(** * Solana -> Unicity bridge: proof construction, validation and replay guard

    A shallow embedding of the TypeScript sources: the light client and
    proof validator (proof-validator.ts), the SDK mint
    (unicity-sdk-simple.ts), the token validator with its event extractor
    (validate-token.ts), the bridge monitor (demo-bridge-monitor.ts) and
    the event handler of the complete demo flow; then the properties of
    the design document, stated and proved on these definitions.

    Conventions.
    - A JavaScript [number] that holds a slot, a height or a counter is a [Z].
    - A JavaScript string is a [string] (its UTF-8 bytes).
    - [async] functions are modelled by their result: every RPC answer the
      function awaits is read from an explicit record of oracle answers.
    - An exception is the [Throws] constructor of [outcome], carrying the
      [message] the source tests with [error.message.includes]. *)

From Stdlib Require Import ZArith List String Ascii Bool Lia.
From Stdlib Require Import DecimalString DecimalZ DecimalPos Strings.Byte.
Abbreviation byte := Init.Byte.byte.
From stdpp Require Import base gmap strings.
Import ListNotations.

Local Open Scope Z_scope.

(** ** JavaScript values and control flow *)

Module Js.

(** Result of running a function body: a value or a thrown [Error]. *)
Inductive outcome (A : Type) : Type :=
| Returns (a : A)
| Throws (message : string).
Arguments Returns {A} a.
Arguments Throws {A} message.

Definition bind {A B} (c : outcome A) (k : A -> outcome B) : outcome B :=
  match c with
  | Returns a => k a
  | Throws m => Throws m
  end.

(** [try { c } catch (error) { h error.message }] *)
Definition try_catch {A} (c : outcome A) (h : string -> outcome A) : outcome A :=
  match c with
  | Returns a => Returns a
  | Throws m => h m
  end.

Definition is_returns {A} (c : outcome A) : bool :=
  match c with Returns _ => true | Throws _ => false end.

(** [String.prototype.includes] *)
Fixpoint includes (needle hay : string) : bool :=
  String.prefix needle hay ||
  match hay with
  | EmptyString => false
  | String _ rest => includes needle rest
  end.

(** [String.prototype.startsWith] *)
Definition startsWith (s p : string) : bool := String.prefix p s.

(** The line feed of a template string. *)
Definition nl : string := String (ascii_of_nat 10) EmptyString.

(** Truthiness of a string: the empty string is falsy. *)
Definition truthy_string (s : string) : bool :=
  match s with EmptyString => false | _ => true end.

(** [Number.prototype.toString] / [BigInt.prototype.toString] /
    [BN.prototype.toString] on an integer: decimal digits, a leading minus
    sign for negatives. On a [number] this is the text for the integers
    below 10^21 in absolute value, which covers every slot, height and
    length; from 10^21 on JavaScript prints a number in exponent form. *)
Definition toString (z : Z) : string := NilZero.string_of_int (Z.to_int z).

(** [Math.abs], [Math.max] on integers. *)
Definition Math_abs (z : Z) : Z := Z.abs z.
Definition Math_max (a b : Z) : Z := Z.max a b.

(** Character classes used by the regular expressions of the sources. *)
Definition in_range (lo hi c : ascii) : bool :=
  (nat_of_ascii lo <=? nat_of_ascii c)%nat && (nat_of_ascii c <=? nat_of_ascii hi)%nat.

(** [[a-f0-9]] under the [i] flag. *)
Definition is_hex_ci (c : ascii) : bool :=
  in_range "a" "f" c || in_range "A" "F" c || in_range "0" "9" c.

(** [[0-9a-f]] without flags. *)
Definition is_hex_lower (c : ascii) : bool :=
  in_range "0" "9" c || in_range "a" "f" c.

(** [[1-9A-HJ-NP-Za-km-z]]: the base-58 alphabet. *)
Definition is_base58 (c : ascii) : bool :=
  in_range "1" "9" c || in_range "A" "H" c || in_range "J" "N" c ||
  in_range "P" "Z" c || in_range "a" "k" c || in_range "m" "z" c.

Fixpoint all_chars (p : ascii -> bool) (s : string) : bool :=
  match s with
  | EmptyString => true
  | String c rest => p c && all_chars p rest
  end.

(** [/^[cls]{lo,hi}$/.test(s)]: the whole string is between [lo] and [hi]
    characters of the class. *)
Definition test_class_repeat (p : ascii -> bool) (lo hi : nat) (s : string) : bool :=
  (lo <=? String.length s)%nat && (String.length s <=? hi)%nat && all_chars p s.

End Js.
Import Js.

(** [outcome] is a monad; sequencing is written [x ← c; k]. *)
#[global] Instance outcome_ret : MRet outcome := fun _ a => Returns a.
#[global] Instance outcome_bind : MBind outcome := fun _ _ k c => Js.bind c k.

(** ** Recipient canonical form (demo-bridge-monitor.ts, complete demo flow) *)

Module Recipient.

(** [/^[a-f0-9]{64}$/i.test(r)] *)
Definition looks_like_digest (r : string) : bool :=
  test_class_repeat is_hex_ci 64 64 r.

(** The conditional expression of [processBridgeEvent] and [processEvent]:
    [/^[a-f0-9]{64}$/i.test(r) ? `[SHA256]${r}` : r] *)
Definition restore (r : string) : string :=
  if looks_like_digest r then "[SHA256]" +:+ r else r.

End Recipient.

(** ** Byte buffers and text encodings (Node [Buffer], [bs58], [crypto]) *)

Module Encoding.

Definition byte_of_N (n : N) : byte :=
  match Byte.of_N (n mod 256) with
  | Some b => b
  | None => Byte.x00
  end.

Definition byte_of_Z (z : Z) : byte := byte_of_N (Z.to_N (z mod 256)).

Definition byte_to_Z (b : byte) : Z := Z.of_N (Byte.to_N b).

(** A string as the bytes [Buffer.from(s, 'utf8')] / [TextEncoder] give. *)
Definition bytes_of_string (s : string) : list byte := list_byte_of_string s.

(** What a byte can start in UTF-8: a character of its own, a sequence of
    [needed] more bytes whose next byte lies between [lower] and [upper],
    or nothing. *)
Inductive Utf8Lead :=
| Utf8Ascii
| Utf8Start (needed : nat) (lower upper : N)
| Utf8Invalid.

Definition utf8_lead (b : byte) : Utf8Lead :=
  let n := Byte.to_N b in
  if (n <=? 0x7F)%N then Utf8Ascii
  else if (0xC2 <=? n)%N && (n <=? 0xDF)%N then Utf8Start 1 0x80 0xBF
  else if (0xE0 <=? n)%N && (n <=? 0xEF)%N then
    Utf8Start 2 (if (n =? 0xE0)%N then 0xA0 else 0x80)%N
                (if (n =? 0xED)%N then 0x9F else 0xBF)%N
  else if (0xF0 <=? n)%N && (n <=? 0xF4)%N then
    Utf8Start 3 (if (n =? 0xF0)%N then 0x90 else 0x80)%N
                (if (n =? 0xF4)%N then 0x8F else 0xBF)%N
  else Utf8Invalid.

(** U+FFFD in UTF-8. *)
Definition replacement : list byte := [Byte.xef; Byte.xbf; Byte.xbd].

(** The UTF-8 decoder, on bytes: a well-formed sequence is kept, and every
    maximal ill-formed part becomes U+FFFD. [pending] holds the bytes of
    the sequence being read, [needed] the number of bytes it still needs. *)
Fixpoint utf8_decode (pending : list byte) (needed : nat) (lower upper : N)
    (bs : list byte) : list byte :=
  match bs with
  | [] => match needed with O => [] | S _ => replacement end
  | b :: rest =>
      let fresh :=
        match utf8_lead b with
        | Utf8Ascii => b :: utf8_decode [] 0 0x80%N 0xBF%N rest
        | Utf8Start n lo hi => utf8_decode [b] n lo hi rest
        | Utf8Invalid => replacement ++ utf8_decode [] 0 0x80%N 0xBF%N rest
        end in
      match needed with
      | O => fresh
      | S k =>
          if (lower <=? Byte.to_N b)%N && (Byte.to_N b <=? upper)%N then
            match k with
            | O => pending ++ b :: utf8_decode [] 0 0x80%N 0xBF%N rest
            | S _ => utf8_decode (pending ++ [b]) k 0x80%N 0xBF%N rest
            end
          else replacement ++ fresh
      end
  end.

(** [buf.toString('utf8')]: the text of the bytes, with U+FFFD for what is
    not UTF-8. *)
Definition string_of_bytes (l : list byte) : string :=
  string_of_list_byte (utf8_decode [] 0 0x80%N 0xBF%N l).

(** Text that is well-formed UTF-8: decoding its bytes gives it back. *)
Definition well_formed_utf8 (s : string) : Prop :=
  string_of_bytes (bytes_of_string s) = s.

(** [s.length]: the UTF-16 code units of a text. A character of four
    UTF-8 bytes takes two units, any other character one. *)
Fixpoint utf16_units (bs : list byte) : nat :=
  match bs with
  | [] => O
  | b :: rest =>
      let n := Byte.to_N b in
      ((if (0x80 <=? n)%N && (n <=? 0xBF)%N then 0
        else if (0xF0 <=? n)%N then 2 else 1) + utf16_units rest)%nat
  end.

Definition js_length (s : string) : nat := utf16_units (bytes_of_string s).

Definition hex_digit (n : N) : ascii :=
  match String.get (N.to_nat n) "0123456789abcdef" with
  | Some c => c
  | None => "0"%char
  end.

(** [buf.toString('hex')] *)
Fixpoint toHex (l : list byte) : string :=
  match l with
  | [] => EmptyString
  | b :: rest =>
      String (hex_digit (Byte.to_N b / 16))
        (String (hex_digit (Byte.to_N b mod 16)) (toHex rest))
  end.

Definition hex_value (c : ascii) : option N :=
  let n := N_of_ascii c in
  if in_range "0" "9" c then Some (n - 48)%N
  else if in_range "a" "f" c then Some (n - 87)%N
  else if in_range "A" "F" c then Some (n - 55)%N
  else None.

(** [Buffer.from(s, 'hex')]: pairs of hex digits, stopping silently at the
    first pair that is not hexadecimal. *)
Fixpoint fromHex (s : string) : list byte :=
  match s with
  | String hi (String lo rest) =>
      match hex_value hi, hex_value lo with
      | Some h, Some l => byte_of_N (h * 16 + l) :: fromHex rest
      | _, _ => []
      end
  | _ => []
  end.

(** Big-endian value of a byte string. *)
Definition be_to_N (l : list byte) : N :=
  fold_left (fun acc b => (acc * 256 + Byte.to_N b)%N) l 0%N.

Definition base58_digit (n : N) : ascii :=
  match String.get (N.to_nat n)
          "123456789ABCDEFGHJKLMNPQRSTUVWXYZabcdefghijkmnopqrstuvwxyz" with
  | Some c => c
  | None => "1"%char
  end.

Fixpoint base58_digits (fuel : nat) (n : N) (acc : string) : string :=
  match fuel with
  | O => acc
  | S fuel' =>
      if (n =? 0)%N then acc
      else base58_digits fuel' (n / 58)%N (String (base58_digit (n mod 58)) acc)
  end.

Fixpoint leading_zeros (l : list byte) : nat :=
  match l with
  | Byte.x00 :: rest => S (leading_zeros rest)
  | _ => O
  end.

Fixpoint ones (n : nat) : string :=
  match n with
  | O => EmptyString
  | S k => String "1" (ones k)
  end.

(** [bs58.encode]; [new PublicKey(bytes).toString()] is this function on the
    32 bytes of the key. Two base-58 digits per byte are always enough. *)
Definition base58_encode (l : list byte) : string :=
  ones (leading_zeros l) +:+ base58_digits (2 * length l) (be_to_N l) EmptyString.

Fixpoint index_of (c : ascii) (alphabet : string) (i : N) : option N :=
  match alphabet with
  | EmptyString => None
  | String a rest => if Ascii.eqb a c then Some i else index_of c rest (i + 1)%N
  end.

Definition base58_index (c : ascii) : option N :=
  index_of c "123456789ABCDEFGHJKLMNPQRSTUVWXYZabcdefghijkmnopqrstuvwxyz" 0%N.

(** The number that a base-58 text writes, most significant digit first. *)
Fixpoint base58_value (s : string) (acc : N) : option N :=
  match s with
  | EmptyString => Some acc
  | String c rest =>
      match base58_index c with
      | Some d => base58_value rest (acc * 58 + d)%N
      | None => None
      end
  end.

(** The bytes of a number, most significant first, without leading zero. *)
Fixpoint bytes_of_N (fuel : nat) (n : N) (acc : list byte) : list byte :=
  match fuel with
  | O => acc
  | S fuel' =>
      if (n =? 0)%N then acc
      else bytes_of_N fuel' (n / 256)%N (byte_of_N (n mod 256) :: acc)
  end.

Fixpoint leading_ones (s : string) : nat :=
  match s with
  | String "1" rest => S (leading_ones rest)
  | _ => O
  end.

(** [bs58.decode], which [new PublicKey(text)] applies to its argument: a
    zero byte for every leading 1, then the bytes of the number; [None]
    for a character outside the alphabet. As many bytes as the text has
    characters are always enough. *)
Definition base58_decode (s : string) : option (list byte) :=
  match base58_value s 0%N with
  | Some n => Some (repeat Byte.x00 (leading_ones s) ++ bytes_of_N (String.length s) n [])
  | None => None
  end.

(** A text that does not start with the digit 1, and bytes that do not
    start with a zero byte: the number part of a base-58 text and of the
    bytes it writes. *)
Definition head_not_one (s : string) : Prop :=
  match s with String c _ => c <> "1"%char | EmptyString => True end.

Definition head_not_zero (l : list byte) : Prop :=
  match l with b :: _ => b <> Byte.x00 | [] => True end.

End Encoding.
Import Encoding.

(** ** SHA-256 ([crypto.createHash('sha256')], [DataHasher(SHA256)]) *)

Module Sha256.
Local Open Scope N_scope.

Definition w32 (x : N) : N := x mod 4294967296.
Definition add32 (x y : N) : N := w32 (x + y).
Definition rotr (n x : N) : N := N.lor (N.shiftr x n) (w32 (N.shiftl x (32 - n))).
Definition not32 (x : N) : N := 4294967295 - x.

Definition Ch (x y z : N) : N := N.lxor (N.land x y) (N.land (not32 x) z).
Definition Maj (x y z : N) : N :=
  N.lxor (N.lxor (N.land x y) (N.land x z)) (N.land y z).
Definition Sigma0 (x : N) : N := N.lxor (N.lxor (rotr 2 x) (rotr 13 x)) (rotr 22 x).
Definition Sigma1 (x : N) : N := N.lxor (N.lxor (rotr 6 x) (rotr 11 x)) (rotr 25 x).
Definition sigma0 (x : N) : N := N.lxor (N.lxor (rotr 7 x) (rotr 18 x)) (N.shiftr x 3).
Definition sigma1 (x : N) : N := N.lxor (N.lxor (rotr 17 x) (rotr 19 x)) (N.shiftr x 10).

(** The round constants and the initial state are fractional parts of
    roots of the first primes; they are computed here from that definition
    and stored evaluated. *)
Definition is_prime (n : N) : bool :=
  (1 <? n) &&
  forallb (fun d => negb (n mod d =? 0)) (map N.of_nat (seq 2 (N.to_nat n - 2))).

Definition first_primes (count : nat) : list N :=
  firstn count (List.filter is_prime (map N.of_nat (seq 2 310))).

(** The largest [r] below [2 ^ bits] with [r ^ k <= n], bit by bit. *)
Fixpoint root_search (k : N) (bits : nat) (n r : N) : N :=
  match bits with
  | O => r
  | S b =>
      let candidate := r + 2 ^ N.of_nat b in
      if candidate ^ k <=? n then root_search k b n candidate
      else root_search k b n r
  end.

(** The first 32 bits of the fractional part of the [k]-th root of [p]. *)
Definition root_fraction (k p : N) : N :=
  w32 (root_search k 40 (p * 2 ^ (32 * k)) 0).

(** Cube roots of the first 64 primes. *)
Definition K : list N := Eval vm_compute in map (root_fraction 3) (first_primes 64).

(** Square roots of the first 8 primes. *)
Definition H0 : list N := Eval vm_compute in map (root_fraction 2) (first_primes 8).

(** Big-endian bytes of a [len]-byte number. *)
Fixpoint be_bytes (len : nat) (x : N) : list byte :=
  match len with
  | O => []
  | S k => byte_of_N (N.shiftr x (8 * N.of_nat k)) :: be_bytes k x
  end.

(** Message padding: a 1 bit, zeros up to 56 mod 64, the bit length. *)
Definition pad (msg : list byte) : list byte :=
  let len := N.of_nat (length msg) in
  let zeros := N.to_nat ((55 + 64 - len mod 64) mod 64) in
  msg ++ [Byte.x80] ++ repeat Byte.x00 zeros ++ be_bytes 8 (8 * len).

Fixpoint words (n : nat) (bs : list byte) : list N :=
  match n with
  | O => []
  | S k => be_to_N (firstn 4 bs) :: words k (skipn 4 bs)
  end.

(** Message schedule: the 16 block words extended to 64. The list is kept
    newest first. *)
Fixpoint extend (n : nat) (rev_w : list N) : list N :=
  match n with
  | O => rev_w
  | S k =>
      let w := add32 (add32 (sigma1 (nth 1 rev_w 0)) (nth 6 rev_w 0))
                     (add32 (sigma0 (nth 14 rev_w 0)) (nth 15 rev_w 0)) in
      extend k (w :: rev_w)
  end.

Definition schedule (block : list byte) : list N :=
  rev (extend 48 (rev (words 16 block))).

Definition round (st : list N) (kw : N * N) : list N :=
  match st with
  | [a; b; c; d; e; f; g; h] =>
      let t1 := add32 (add32 (add32 h (Sigma1 e)) (add32 (Ch e f g) (fst kw))) (snd kw) in
      let t2 := add32 (Sigma0 a) (Maj a b c) in
      [add32 t1 t2; a; b; c; add32 d t1; e; f; g]
  | _ => st
  end.

Definition compress (h : list N) (block : list byte) : list N :=
  let out := fold_left round (combine K (schedule block)) h in
  map (fun p => add32 (fst p) (snd p)) (combine h out).

Fixpoint blocks (n : nat) (h : list N) (bs : list byte) : list N :=
  match n with
  | O => h
  | S k => blocks k (compress h (firstn 64 bs)) (skipn 64 bs)
  end.

(** The 32-byte digest. *)
Definition digest (msg : list byte) : list byte :=
  let padded := pad msg in
  flat_map (be_bytes 4) (blocks (length padded / 64) H0 padded).

(** [crypto.createHash('sha256').update(s).digest()] *)
Definition sha256 (s : string) : list byte := digest (bytes_of_string s).

End Sha256.

(** ** Answers of the Solana RPC endpoint (@solana/web3.js) *)

Module Solana.

Record Block := { blockhash : string }.

(** One entry of [getSignatureStatuses(...).value]. [err] is [None] for
    JavaScript [null]; [Some e] is a TransactionError (an object or a
    non-empty tag, always truthy), given by its JSON text. An optional
    field that is [null] or missing is [None]. *)
Record SignatureStatus := {
  confirmationStatus : option string;
  confirmations : option Z;
  err : option string;
  slot : option Z
}.

(** The view of a transaction response that the sources read:
    [tx.transaction.signatures] and the static account keys of
    [tx.transaction.message]. *)
Record TransactionBody := {
  signatures : option (list string);
  staticAccountKeys : list string
}.

Record TransactionResponse := {
  transaction : option TransactionBody
}.

(** What the endpoint answers to each request of the sources. A request
    that fails throws. *)
Record Rpc := {
  getBlock : Z -> outcome (option Block);
  getSlot : outcome Z;
  getSignatureStatuses : string -> outcome (option SignatureStatus);
  getSignatureStatus : string -> outcome (option SignatureStatus);
  getTransaction : string -> outcome (option TransactionResponse)
}.

End Solana.

(** ** bridge-client.ts: [LockEvent] and [ProofData] *)

Module BridgeClient.

Record LockEvent := {
  lockId : list byte;
  user : list byte;
  amount : Z;
  unicityRecipient : string;
  nonce : Z;
  timestamp : Z
}.

Record TransactionInfo := {
  signature : string;
  slot : Z;
  blockTime : Z;
  fullTransaction : option Solana.TransactionResponse
}.

Record ProofData := {
  event : LockEvent;
  proof_slot : Z;
  blockHash : string;
  blockHeight : Z;
  transaction : TransactionInfo;
  signatureStatus : option Solana.SignatureStatus
}.

End BridgeClient.

(** ** proof-validator.ts: [SolanaLightClient] *)

Module SolanaLightClient.
Import Solana.

(** [addTrustedBlockHash] *)
Definition addTrustedBlockHash (trustedBlockHashes : gset string) (blockHash : string)
  : gset string :=
  {[ blockHash ]} ∪ trustedBlockHashes.

Definition pending_ahead (blockHeight futureDistance : Z) : string :=
  "VALIDATION_PENDING: Block " +:+ toString blockHeight +:+
  " is too recent for validation (" +:+ toString futureDistance +:+ " slots ahead)".

Definition pending_recent (blockHeight blockAge : Z) : string :=
  "VALIDATION_PENDING: Block " +:+ toString blockHeight +:+
  " is too recent for reliable validation (age: " +:+ toString blockAge +:+ " slots)".

(** The body of the second [try] of [verifyBlockHash]. *)
Definition alternative_body (rpc : Rpc) (trusted : gset string)
    (blockHash : string) (blockHeight : Z) : outcome bool * gset string :=
  if negb (test_class_repeat is_base58 32 44 blockHash) then (Returns false, trusted)
  else
    match getSlot rpc with
    | Throws m => (Throws m, trusted)
    | Returns currentSlot =>
        let blockAge := currentSlot - blockHeight in
        if blockAge <? 0 then
          let futureDistance := Math_abs blockAge in
          (Throws (pending_ahead blockHeight futureDistance), trusted)
        else if blockAge <? 10 then
          (Throws (pending_recent blockHeight blockAge), trusted)
        else
          (Returns true, addTrustedBlockHash trusted blockHash)
    end.

(** Its [catch]: a VALIDATION_PENDING error is thrown again, any other
    error becomes [false]. *)
Definition alternative_catch (message : string) : outcome bool :=
  if truthy_string message && includes "VALIDATION_PENDING" message
  then Throws message
  else Returns false.

Definition alternative_validation (rpc : Rpc) (trusted : gset string)
    (blockHash : string) (blockHeight : Z) : outcome bool * gset string :=
  let '(r, trusted') := alternative_body rpc trusted blockHash blockHeight in
  (try_catch r alternative_catch, trusted').

(** [verifyBlockHash]: the direct lookup of the finalized block, and the
    alternative validation when the lookup gives no block or fails. *)
Definition verifyBlockHash (rpc : Rpc) (trusted : gset string)
    (blockHash : string) (blockHeight : Z) : outcome bool * gset string :=
  match getBlock rpc blockHeight with
  | Returns (Some block) =>
      let isValid := String.eqb (blockhash block) blockHash in
      (Returns isValid,
       if isValid then addTrustedBlockHash trusted blockHash else trusted)
  | Returns None | Throws _ =>
      alternative_validation rpc trusted blockHash blockHeight
  end.

(** The hash format test of the alternative validation. *)
Definition format_valid (blockHash : string) : bool :=
  test_class_repeat is_base58 32 44 blockHash.

(** The direct lookup gave no block: [getBlock] answered [null] or failed. *)
Definition lookup_unavailable (rpc : Rpc) (blockHeight : Z) : Prop :=
  match getBlock rpc blockHeight with
  | Returns (Some _) => False
  | Returns None | Throws _ => True
  end.

(** The error is the VALIDATION_PENDING signal, as the callers test it. *)
Definition is_pending_message (message : string) : bool :=
  truthy_string message && includes "VALIDATION_PENDING" message.

Definition is_pending {A} (r : outcome A) : bool :=
  match r with
  | Throws m => is_pending_message m
  | Returns _ => false
  end.

End SolanaLightClient.

(** ** proof-validator.ts: [UnicityGenesisProof] and [UnicityProofValidator] *)

Module Genesis.

Record LockEvent := {
  lockId : string;
  user : string;
  amount : string;
  unicityRecipient : string;
  nonce : string;
  timestamp : string
}.

Record SolanaTransaction := {
  signature : string;
  transaction : option Solana.TransactionResponse;
  blockHeight : Z;
  slot : Z;
  blockTime : Z;
  confirmationStatus : string
}.

(** [status] and [reason] are optional properties: [None] when the object
    has no such property. *)
Record Validation := {
  blockVerified : bool;
  signatureStatusVerified : bool;
  validation_timestamp : Z;
  status : option string;
  reason : option string
}.

Record UnicityGenesisProof := {
  lockEvent : LockEvent;
  solanaTransaction : SolanaTransaction;
  validation : Validation
}.

End Genesis.

Module UnicityProofValidator.
Import Solana.
Module BC := BridgeClient.

(** [verifySignatureStatus] *)
Definition verifySignatureStatus (confirmationStatus : string) (confirmations : Z)
    (err : option string) (slot : Z) : bool :=
  match err with
  | Some _ => false
  | None =>
      let validStatuses := ["processed"; "confirmed"; "finalized"] in
      if negb (existsb (String.eqb confirmationStatus) validStatuses) then false
      else true
  end.

(** [validateLockEvent] *)
Definition validateLockEvent (event : BC.LockEvent) : outcome unit :=
  if negb (length (BC.lockId event) =? 32)%nat then Throws "Invalid lock ID"
  else if BC.amount event <=? 0 then Throws "Invalid amount"
  else if (String.length (BC.unicityRecipient event) =? 0)%nat
       then Throws "Invalid Unicity recipient"
  else if BC.nonce event <? 0 then Throws "Invalid nonce"
  else if BC.timestamp event <=? 0 then Throws "Invalid timestamp"
  else Returns tt.

(** [validateTransactionExists]; every error of its body is thrown again
    with the prefix "Transaction validation failed: ". *)
Definition validateTransactionExists_body (rpc : Rpc) (bridgeProgramId signature : string)
  : outcome unit :=
  tx ← getTransaction rpc signature;
  match tx with
  | None =>
      status ← getSignatureStatus rpc signature;
      match status with
      | None => Throws ("Transaction signature not found: " +:+ signature)
      | Some st =>
          match err st with
          | Some e => Throws ("Transaction failed: " +:+ e)
          | None => Returns tt
          end
      end
  | Some tx =>
      match Solana.transaction tx with
      | None => Throws "Cannot read properties of undefined (reading 'message')"
      | Some body =>
          let programInvoked :=
            existsb (fun key => String.eqb key bridgeProgramId) (staticAccountKeys body) in
          if negb programInvoked then Throws "Transaction does not invoke bridge program"
          else Returns tt
      end
  end.

Definition validateTransactionExists (rpc : Rpc) (bridgeProgramId signature : string)
  : outcome unit :=
  try_catch (validateTransactionExists_body rpc bridgeProgramId signature)
    (fun message => Throws ("Transaction validation failed: " +:+ message)).

(** Step 2 of [validateGenesisProof]: the inner [try]/[catch] around
    [verifyBlockHash]. The result is the value of [blockVerified]. *)
Definition verify_block_step (rpc : Rpc) (trusted : gset string) (proof : BC.ProofData)
  : outcome bool * gset string :=
  let '(r, trusted') :=
    SolanaLightClient.verifyBlockHash rpc trusted (BC.blockHash proof) (BC.blockHeight proof) in
  let body :=
    blockVerified ← r;
    if negb blockVerified then Throws "Block hash verification failed"
    else Returns blockVerified in
  (try_catch body (fun message =>
     if truthy_string message && includes "VALIDATION_PENDING" message
     then Returns false
     else Throws message),
   trusted').

(** Step 3: the value of [signatureStatusVerified]. *)
Definition verify_status_step (proof : BC.ProofData) : bool :=
  match BC.signatureStatus proof with
  | Some st =>
      match confirmationStatus st, confirmations st, slot st with
      | Some cs, Some c, Some s =>
          if truthy_string cs then verifySignatureStatus cs c (err st) s else false
      | _, _, _ => false
      end
  | None => false
  end.

(** The string form of the lock event stored in the genesis proof. *)
Definition genesis_lockEvent (e : BC.LockEvent) : Genesis.LockEvent :=
  {| Genesis.lockId := toHex (BC.lockId e);
     Genesis.user := base58_encode (BC.user e);
     Genesis.amount := toString (BC.amount e);
     Genesis.unicityRecipient := BC.unicityRecipient e;
     Genesis.nonce := toString (BC.nonce e);
     Genesis.timestamp := toString (BC.timestamp e) |}.

(** [proof.signatureStatus?.confirmationStatus || "unknown"] *)
Definition stored_confirmationStatus (proof : BC.ProofData) : string :=
  match BC.signatureStatus proof with
  | Some st =>
      match confirmationStatus st with
      | Some cs => if truthy_string cs then cs else "unknown"
      | None => "unknown"
      end
  | None => "unknown"
  end.

(** The object literal built at the end of [validateGenesisProof]. *)
Definition build_genesisProof (now : Z) (proof : BC.ProofData)
    (blockVerified signatureStatusVerified : bool) : Genesis.UnicityGenesisProof :=
  let validationStatus := if blockVerified then "VALIDATED" else "PENDING" in
  let pending := String.eqb validationStatus "PENDING" in
  {| Genesis.lockEvent := genesis_lockEvent (BC.event proof);
     Genesis.solanaTransaction :=
       {| Genesis.signature := BC.signature (BC.transaction proof);
          Genesis.transaction := BC.fullTransaction (BC.transaction proof);
          Genesis.blockHeight := BC.blockHeight proof;
          Genesis.slot := BC.proof_slot proof;
          Genesis.blockTime := BC.blockTime (BC.transaction proof);
          Genesis.confirmationStatus := stored_confirmationStatus proof |};
     Genesis.validation :=
       {| Genesis.blockVerified := blockVerified;
          Genesis.signatureStatusVerified := signatureStatusVerified;
          Genesis.validation_timestamp := now;
          Genesis.status := if pending then Some "PENDING_VALIDATION" else None;
          Genesis.reason :=
            if pending
            then Some ("Block " +:+ toString (BC.blockHeight proof) +:+
                       " too recent for RPC validation")
            else None |} |}.

(** [validateGenesisProof]. [now] is the value of [Date.now()]. *)
Definition validateGenesisProof (rpc : Rpc) (bridgeProgramId : string) (now : Z)
    (trusted : gset string) (proof : BC.ProofData)
  : outcome Genesis.UnicityGenesisProof * gset string :=
  match validateLockEvent (BC.event proof) with
  | Throws m => (Throws m, trusted)
  | Returns _ =>
      let '(r, trusted') := verify_block_step rpc trusted proof in
      match r with
      | Throws m => (Throws m, trusted')
      | Returns blockVerified =>
          let signatureStatusVerified := verify_status_step proof in
          let step4 :=
            if blockVerified && signatureStatusVerified
            then validateTransactionExists rpc bridgeProgramId
                   (BC.signature (BC.transaction proof))
            else Returns tt in
          match step4 with
          | Throws m => (Throws m, trusted')
          | Returns _ =>
              (Returns (build_genesisProof now proof blockVerified signatureStatusVerified),
               trusted')
          end
      end
  end.

(** [validateCryptographicChain]: the body of its [try]. *)
Definition validateCryptographicChain_body (rpc : Rpc)
    (genesisProof : Genesis.UnicityGenesisProof) : outcome bool :=
  let stx := Genesis.solanaTransaction genesisProof in
  signatureStatus ← getSignatureStatuses rpc (Genesis.signature stx);
  match signatureStatus with
  | None => Throws "Transaction signature not found in Solana network"
  | Some st =>
      match err st with
      | Some e => Throws ("Transaction failed: " +:+ e)
      | None =>
          match Genesis.transaction stx with
          | None => Returns true
          | Some txData =>
              let check :=
                match Solana.transaction txData with
                | Some body =>
                    match signatures body with
                    | Some sigs =>
                        let primarySignature := head sigs in
                        if negb (bool_decide (primarySignature = Some (Genesis.signature stx)))
                        then Throws "Transaction signature mismatch"
                        else Returns tt
                    | None => Returns tt
                    end
                | None => Returns tt
                end in
              _ ← check;
              if String.eqb (Genesis.confirmationStatus stx) "finalized" ||
                 String.eqb (Genesis.confirmationStatus stx) "confirmed"
              then Returns true
              else Returns false
          end
      end
  end.

(** Every error of the body is caught and becomes [false]. *)
Definition validateCryptographicChain (rpc : Rpc)
    (genesisProof : Genesis.UnicityGenesisProof) : outcome bool :=
  try_catch (validateCryptographicChain_body rpc genesisProof)
    (fun _ => Returns false).

End UnicityProofValidator.

(** ** The minted token and its embedded payload *)

Module Token.

(** The object that [JSON.stringify] turns into the token data, and that
    the validator reads back as [DecodedSolanaProof]. [minterSignature] is
    an optional property: [None] when the object has no such property. *)
Record BridgePayload := {
  bridgeType : string;
  lockEvent : Genesis.LockEvent;
  solanaTransaction : Genesis.SolanaTransaction;
  minterSignature : option string
}.

(** [genesis.data.tokenData] of a token file: the hex text of a JSON
    document. Either it is the text of a payload object, or it is text that
    [decodeTokenData] cannot parse. *)
Inductive TokenData :=
| Encoded (payload : BridgePayload)
| Unparsable (hex : string).

(** [genesis.data] of [UnicityTokenFile]; identifiers are stored as the hex
    text of their bytes. *)
Record GenesisData := {
  coins : list (string * Z);
  recipient : string;
  salt : string;
  tokenData : TokenData;
  tokenId : string;
  tokenType : string
}.

(** A token file: the genesis data, the commitment whose inclusion proof
    the file carries, and the state data. *)
Record TokenFile := {
  genesis_data : GenesisData;
  inclusion_of : string;
  state_data : TokenData
}.

End Token.

(** ** unicity-sdk-simple.ts: [mintBridgedTokenWithSDK] *)

Module SdkMint.

Record Wallet := {
  secret : list byte;
  wallet_nonce : list byte;
  publicKey : string
}.

(** The arguments of [MintTransactionData.create]. *)
Record MintTransactionData := {
  mint_tokenId : list byte;
  mint_tokenType : list byte;
  mint_tokenData : Token.BridgePayload;
  mint_coinData : list (string * Z);
  mint_recipient : string;
  mint_salt : list byte;
  mint_dataHash : list byte
}.

(** The collaborators of the mint: the wallet file on disk and the Unicity
    state-transition SDK. [encode] is [TextEncoder.encode(JSON.stringify(_))];
    [directAddress] is the address of the masked predicate made from the
    wallet. [submitMintTransaction] answers with the
    commitment, or throws (REQUEST_ID_EXISTS for a request the network has
    already seen); [waitInclusionProof] throws when no proof arrives. *)
Record Sdk := {
  loadUnicityWallet : option Wallet;
  encode : Token.BridgePayload -> list byte;
  directAddress : list byte -> list byte -> Wallet -> outcome string;
  submitMintTransaction : MintTransactionData -> outcome string;
  waitInclusionProof : string -> outcome unit;
  createTransaction : string -> outcome unit
}.

(** What the mint leaves behind. *)
Inductive Effect :=
| Submitted (data : MintTransactionData)
| WroteOwnerFile (path : string) (minterPublicKey tokenId commitment : string)
| WroteTokenFile (path : string) (token : Token.TokenFile)
| WroteGenesisRecord (path : string) (proof : Genesis.UnicityGenesisProof).

Record MintResult := {
  commitment : string;
  tokenFile : string;
  ownerFile : string;
  genesisFile : string
}.

(** [validateMinterAuthorization] *)
Definition validateMinterAuthorization (unicityRecipient : string) (wallet : Wallet) : bool :=
  String.eqb unicityRecipient (publicKey wallet).

(** [Array.prototype.join] *)
Definition join (sep : string) (parts : list string) : string := String.concat sep parts.

(** The white space and line terminator characters of JavaScript, in
    UTF-8: U+0009 to U+000D, U+0020, U+00A0, U+1680, U+2000 to U+200A,
    U+2028, U+2029, U+202F, U+205F, U+3000, U+FEFF. *)
Definition white_space : list (list byte) :=
  [ [Byte.x09]; [Byte.x0a]; [Byte.x0b]; [Byte.x0c]; [Byte.x0d]; [Byte.x20];
    [Byte.xc2; Byte.xa0];
    [Byte.xe1; Byte.x9a; Byte.x80];
    [Byte.xe2; Byte.x80; Byte.x80]; [Byte.xe2; Byte.x80; Byte.x81];
    [Byte.xe2; Byte.x80; Byte.x82]; [Byte.xe2; Byte.x80; Byte.x83];
    [Byte.xe2; Byte.x80; Byte.x84]; [Byte.xe2; Byte.x80; Byte.x85];
    [Byte.xe2; Byte.x80; Byte.x86]; [Byte.xe2; Byte.x80; Byte.x87];
    [Byte.xe2; Byte.x80; Byte.x88]; [Byte.xe2; Byte.x80; Byte.x89];
    [Byte.xe2; Byte.x80; Byte.x8a];
    [Byte.xe2; Byte.x80; Byte.xa8]; [Byte.xe2; Byte.x80; Byte.xa9];
    [Byte.xe2; Byte.x80; Byte.xaf];
    [Byte.xe2; Byte.x81; Byte.x9f];
    [Byte.xe3; Byte.x80; Byte.x80];
    [Byte.xef; Byte.xbb; Byte.xbf] ].

(** [bs] without the prefix [w], if it starts with it. *)
Fixpoint strip (w bs : list byte) : option (list byte) :=
  match w, bs with
  | [], _ => Some bs
  | x :: w', b :: bs' => if Byte.eqb x b then strip w' bs' else None
  | _ :: _, [] => None
  end.

(** [bs] without its first character, if that is white space. *)
Definition drop_space (bs : list byte) : option (list byte) :=
  fold_right (fun w found => match strip w bs with
                             | Some rest => Some rest
                             | None => found
                             end) None white_space.

Fixpoint trim_start (fuel : nat) (bs : list byte) : list byte :=
  match fuel with
  | O => bs
  | S fuel' =>
      match drop_space bs with
      | Some rest => trim_start fuel' rest
      | None => bs
      end
  end.

Fixpoint all_space (fuel : nat) (bs : list byte) : bool :=
  match bs, fuel with
  | [], _ => true
  | _, O => false
  | _, S fuel' =>
      match drop_space bs with
      | Some rest => all_space fuel' rest
      | None => false
      end
  end.

Fixpoint trim_end (bs : list byte) : list byte :=
  match bs with
  | [] => []
  | b :: rest => if all_space (length bs) bs then [] else b :: trim_end rest
  end.

(** The text without the white space at its two ends. *)
Definition trim (s : string) : string :=
  let bs := list_byte_of_string s in
  string_of_list_byte (trim_end (trim_start (length bs) bs)).

(** The number that a non-empty text of decimal digits writes. *)
Definition decimal_literal (s : string) : option N :=
  match s with
  | EmptyString => None
  | _ => option_map N.of_uint (NilEmpty.uint_of_string s)
  end.

Fixpoint digits_value (base : N) (s : string) (acc : N) : option N :=
  match s with
  | EmptyString => Some acc
  | String c rest =>
      match hex_value c with
      | Some v => if (v <? base)%N then digits_value base rest (acc * base + v)%N else None
      | None => None
      end
  end.

(** The number that a non-empty text of digits in base 2, 8 or 16 writes. *)
Definition radix_literal (base : N) (s : string) : option N :=
  match s with
  | EmptyString => None
  | _ => digits_value base s 0%N
  end.

(** [BigInt(s)] on a string: white space around the literal is dropped;
    the empty text is 0; the literal is decimal digits with an optional
    sign, or the digits of base 16, 8 or 2 after 0x, 0o or 0b; any other
    text is a SyntaxError. *)
Definition BigInt (s : string) : outcome Z :=
  let text := trim s in
  let unsigned (literal : option N) : option Z := option_map Z.of_N literal in
  let value : option Z :=
    match text with
    | EmptyString => Some 0
    | String "0" (String ("x" | "X") digits) => unsigned (radix_literal 16 digits)
    | String "0" (String ("o" | "O") digits) => unsigned (radix_literal 8 digits)
    | String "0" (String ("b" | "B") digits) => unsigned (radix_literal 2 digits)
    | String "+" digits => unsigned (decimal_literal digits)
    | String "-" digits => option_map (fun n => - Z.of_N n) (decimal_literal digits)
    | _ => unsigned (decimal_literal text)
    end in
  match value with
  | Some z => Returns z
  | None => Throws ("Cannot convert " +:+ s +:+ " to a BigInt")
  end.

(** [commitmentData] of the mint. *)
Definition commitmentData (proof : Genesis.UnicityGenesisProof) : string :=
  join "|"
    [ Genesis.lockId (Genesis.lockEvent proof);
      Genesis.signature (Genesis.solanaTransaction proof);
      toString (Genesis.blockHeight (Genesis.solanaTransaction proof));
      Genesis.user (Genesis.lockEvent proof);
      Genesis.amount (Genesis.lockEvent proof);
      Genesis.nonce (Genesis.lockEvent proof);
      Genesis.timestamp (Genesis.lockEvent proof) ].

(** [tokenIdHash], the bytes given to [TokenId.create]. *)
Definition tokenIdHash (proof : Genesis.UnicityGenesisProof) : list byte :=
  Sha256.sha256 (commitmentData proof +:+ "_tokenId").

(** [tokenTypeHash] *)
Definition tokenTypeHash (bridgeProgramId : string) : list byte :=
  Sha256.sha256 ("BRIDGED_SOL_FROM_SOLANA" +:+ bridgeProgramId).

(** [saltHash] *)
Definition saltHash (proof : Genesis.UnicityGenesisProof) : list byte :=
  Sha256.sha256 (commitmentData proof +:+ "_salt").

(** The object literal given to [JSON.stringify] for [tokenData]. *)
Definition tokenData (proof : Genesis.UnicityGenesisProof) : Token.BridgePayload :=
  let stx := Genesis.solanaTransaction proof in
  {| Token.bridgeType := "SOLANA_BRIDGE";
     Token.lockEvent := Genesis.lockEvent proof;
     Token.solanaTransaction :=
       {| Genesis.signature := Genesis.signature stx;
          Genesis.transaction := Genesis.transaction stx;
          Genesis.blockHeight := Genesis.blockHeight stx;
          Genesis.slot := Genesis.slot stx;
          Genesis.blockTime := Genesis.blockTime stx;
          Genesis.confirmationStatus := Genesis.confirmationStatus stx |};
     Token.minterSignature := None |}.

(** [proof.lockEvent.lockId.substring(0, 8)] *)
Definition lockIdHex (proof : Genesis.UnicityGenesisProof) : string :=
  String.substring 0 8 (Genesis.lockId (Genesis.lockEvent proof)).

(** The token that [new Token(...)] and [JSON.stringify] write to the token
    file. *)
Definition token_of (data : MintTransactionData) (commitment : string) : Token.TokenFile :=
  {| Token.genesis_data :=
       {| Token.coins := mint_coinData data;
          Token.recipient := mint_recipient data;
          Token.salt := toHex (mint_salt data);
          Token.tokenData := Token.Encoded (mint_tokenData data);
          Token.tokenId := toHex (mint_tokenId data);
          Token.tokenType := toHex (mint_tokenType data) |};
     Token.inclusion_of := commitment;
     Token.state_data := Token.Encoded (mint_tokenData data) |}.

(** [mintBridgedTokenWithSDK]. The result comes with the effects performed
    before the function returned or threw, oldest first. *)
Definition mintBridgedTokenWithSDK (sdk : Sdk) (proof : Genesis.UnicityGenesisProof)
    (minterPublicKey outputDir bridgeProgramId : string)
  : outcome MintResult * list Effect :=
  match loadUnicityWallet sdk with
  | None => (Throws "Unicity wallet not found - generate one first", [])
  | Some wallet =>
      if negb (validateMinterAuthorization minterPublicKey wallet) then
        (Throws ("AUTHORIZATION FAILED: No wallet for recipient " +:+ minterPublicKey +:+
                 "." +:+ nl +:+ "Local Unicity Wallet address: " +:+ publicKey wallet +:+ nl),
         [])
      else
        let tokenId := tokenIdHash proof in
        let tokenType := tokenTypeHash bridgeProgramId in
        let payload := tokenData proof in
        match BigInt (Genesis.amount (Genesis.lockEvent proof)) with
        | Throws m => (Throws m, [])
        | Returns amount =>
            let coinData := [("BRIDGED_SOL", amount)] in
            let salt := saltHash proof in
            match directAddress sdk tokenId tokenType wallet with
            | Throws m => (Throws m, [])
            | Returns recipient =>
                let data :=
                  {| mint_tokenId := tokenId;
                     mint_tokenType := tokenType;
                     mint_tokenData := payload;
                     mint_coinData := coinData;
                     mint_recipient := recipient;
                     mint_salt := salt;
                     mint_dataHash := Sha256.digest (encode sdk payload) |} in
                match submitMintTransaction sdk data with
                | Throws m => (Throws m, [Submitted data])
                | Returns commitment =>
                    match _ ← waitInclusionProof sdk commitment;
                          createTransaction sdk commitment with
                    | Throws m => (Throws m, [Submitted data])
                    | Returns _ =>
                        let token := token_of data commitment in
                        let ownerFile :=
                          outputDir +:+ "/token-owner-" +:+ lockIdHex proof +:+ ".json" in
                        let tokenFile :=
                          outputDir +:+ "/unicity-token-" +:+ lockIdHex proof +:+ ".json" in
                        let genesisFile :=
                          outputDir +:+ "/genesis-record-" +:+ lockIdHex proof +:+ ".json" in
                        (Returns {| commitment := commitment;
                                    tokenFile := tokenFile;
                                    ownerFile := ownerFile;
                                    genesisFile := genesisFile |},
                         [ Submitted data;
                           WroteOwnerFile ownerFile minterPublicKey (toHex tokenId) commitment;
                           WroteTokenFile tokenFile token;
                           WroteGenesisRecord genesisFile proof ])
                    end
                end
            end
        end
  end.

(** The token written by a run of the mint, if any. *)
Fixpoint written_token (effects : list Effect) : option Token.TokenFile :=
  match effects with
  | [] => None
  | WroteTokenFile _ token :: _ => Some token
  | _ :: rest => written_token rest
  end.

End SdkMint.

(** ** validate-token.ts: [UnicityTokenValidator] *)

Module UnicityTokenValidator.
Import Solana.

Inductive Status := PASS | FAIL | WARN.

(** An entry of [validationResults]. *)
Record ValidationResult := {
  check : string;
  result_status : Status;
  message : string
}.

Definition addResult (check : string) (st : Status) (message : string) : ValidationResult :=
  {| check := check; result_status := st; message := message |}.

(** The collaborators of the validator: the file system, the token factory
    of the SDK, the secp256k1 library and the RPC endpoint. A file that
    does not exist is [None]; a file whose text [JSON.parse] rejects is
    [Some (Throws _)]. *)
Record World := {
  readToken : string -> option (outcome Token.TokenFile);
  tokenFactory_create : Token.TokenFile -> outcome unit;
  ecdsaRecover : list byte -> byte -> list byte -> outcome (list byte);
  ecdsaVerify : list byte -> list byte -> list byte -> outcome bool;
  rpc : Rpc
}.

(** [decodeTokenData] *)
Definition decodeTokenData (hexData : Token.TokenData) : outcome Token.BridgePayload :=
  match hexData with
  | Token.Encoded payload => Returns payload
  | Token.Unparsable _ =>
      Throws "Failed to decode token data: Unexpected token in JSON"
  end.

(** [consistentSolanaLockingProof]: the decoded proof or [null], and the
    results it added. The [typeof ... 'number'] tests hold by the type of
    [blockHeight] and [slot]. *)
Definition consistentSolanaLockingProof (tokenData : Token.TokenData)
  : option Token.BridgePayload * list ValidationResult :=
  match decodeTokenData tokenData with
  | Throws m =>
      (None, [addResult "Solana Locking Proof" FAIL ("Failed to decode: " +:+ m)])
  | Returns decoded =>
      if negb (String.eqb (Token.bridgeType decoded) "SOLANA_BRIDGE") then
        (None, [addResult "Bridge Type" FAIL
                  ("Expected SOLANA_BRIDGE, got " +:+ Token.bridgeType decoded)])
      else
        let lock := Token.lockEvent decoded in
        if negb (truthy_string (Genesis.lockId lock)) ||
           negb (truthy_string (Genesis.user lock)) ||
           negb (truthy_string (Genesis.amount lock)) ||
           negb (truthy_string (Genesis.unicityRecipient lock)) ||
           negb (truthy_string (Genesis.nonce lock)) ||
           negb (truthy_string (Genesis.timestamp lock)) then
          (None, [addResult "Lock Event" FAIL "Missing required lock event fields"])
        else
          let anchor := Token.solanaTransaction decoded in
          if negb (truthy_string (Genesis.signature anchor)) then
            (None, [addResult "Solana Anchor" FAIL
                      "Missing required Solana anchor fields (signature, blockHeight, slot)"])
          else if negb (test_class_repeat is_base58 87 88 (Genesis.signature anchor)) then
            (None, [addResult "Transaction Signature" FAIL
                      "Invalid Solana transaction signature format"])
          else
            (Some decoded,
             [addResult "Solana Locking Proof" PASS "Solana locking proof is consistent"])
  end.

(** [String.prototype.toLowerCase] on ASCII letters. *)
Definition lower_char (c : ascii) : ascii :=
  if in_range "A" "Z" c then ascii_of_nat (nat_of_ascii c + 32) else c.

Fixpoint toLowerCase (s : string) : string :=
  match s with
  | EmptyString => EmptyString
  | String c rest => String (lower_char c) (toLowerCase rest)
  end.

(** The longest prefix of hexadecimal digits, and what follows it. *)
Fixpoint hex_run (s : string) : string * string :=
  match s with
  | EmptyString => (EmptyString, EmptyString)
  | String c rest =>
      if is_hex_ci c then
        let '(run, after) := hex_run rest in (String c run, after)
      else (EmptyString, s)
  end.

(** [s.match(/([0-9a-fA-F]{64,})/i)]: the first run of at least 64
    hexadecimal digits, taken whole. *)
Fixpoint match_hex64 (fuel : nat) (s : string) : option string :=
  match fuel with
  | O => None
  | S fuel' =>
      match s with
      | EmptyString => None
      | String c rest =>
          let '(run, after) := hex_run s in
          if (64 <=? String.length run)%nat then Some run
          else match run with
               | EmptyString => match_hex64 fuel' rest
               | _ => match_hex64 fuel' after
               end
      end
  end.

(** [validateMinterKeyConsistency] *)
Definition validateMinterKeyConsistency (decodedProof : Token.BridgePayload)
    (minterPublicKeyHex : string) : bool * list ValidationResult :=
  let lockEventRecipient := Genesis.unicityRecipient (Token.lockEvent decodedProof) in
  if negb (truthy_string lockEventRecipient) then
    (false, [addResult "Minter Key Consistency" FAIL
               "Missing unicityRecipient in lock event"])
  else
    let mismatch expected :=
      (false, [addResult "Minter Key Consistency" FAIL
                 ("Minter public key does not match Solana lock event. Expected: " +:+
                  expected +:+ ", Got: " +:+ minterPublicKeyHex)]) in
    let mismatch_extracted expected :=
      (false, [addResult "Minter Key Consistency" FAIL
                 ("Minter public key does not match extracted from Solana lock event. " +:+
                  "Expected: " +:+ expected +:+ ", Got: " +:+ minterPublicKeyHex)]) in
    let pass :=
      (true, [addResult "Minter Key Consistency" PASS
                "Minter public key matches Solana locking transaction"]) in
    if (String.length lockEventRecipient =? 66)%nat &&
       all_chars is_hex_ci lockEventRecipient then
      if negb (String.eqb (toLowerCase lockEventRecipient) (toLowerCase minterPublicKeyHex))
      then mismatch lockEventRecipient
      else pass
    else
      match match_hex64 (S (String.length lockEventRecipient)) lockEventRecipient with
      | None =>
          (false, [addResult "Minter Key Consistency" FAIL
                     ("Cannot extract hex public key from unicityRecipient: " +:+
                      lockEventRecipient)])
      | Some extractedHex =>
          if negb (String.eqb (toLowerCase extractedHex) (toLowerCase minterPublicKeyHex))
          then mismatch_extracted extractedHex
          else pass
      end.

(** [validateTokenIdDerivation] *)
Definition expectedTokenIdHex (commitmentData minterSignature : string) : string :=
  toHex (Sha256.sha256 (commitmentData +:+ minterSignature +:+ "_tokenId")).

Definition validateTokenIdDerivation (actualTokenId commitmentData minterSignature : string)
  : bool * list ValidationResult :=
  let expected := expectedTokenIdHex commitmentData minterSignature in
  if negb (String.eqb actualTokenId expected) then
    (false, [addResult "TokenId Derivation" FAIL
               ("TokenId was not properly derived from commitment data and signature. " +:+
                "Expected: " +:+ expected +:+ ", Got: " +:+ actualTokenId)])
  else
    (true, [addResult "TokenId Derivation" PASS
              "TokenId correctly derived from commitment data and minter signature"]).

(** [validateMinterSignatureWithRecovery] *)
Definition validateMinterSignatureWithRecovery (w : World)
    (unicityRecipient commitmentData minterSignature : string)
  : bool * list ValidationResult :=
  let fullSignatureBytes := fromHex minterSignature in
  if negb (length fullSignatureBytes =? 65)%nat then
    (false, [addResult "Minter Signature" FAIL
               ("Signature must be exactly 65 bytes (64-byte signature + 1-byte recovery ID), got " +:+
                toString (Z.of_nat (length fullSignatureBytes)))])
  else
    let signatureBytes := firstn 64 fullSignatureBytes in
    let recoveryId := nth 64 fullSignatureBytes Byte.x00 in
    let commitmentDataHash := Sha256.sha256 commitmentData in
    let checked :=
      recoveredPublicKey ← ecdsaRecover w signatureBytes recoveryId commitmentDataHash;
      ecdsaVerify w signatureBytes commitmentDataHash recoveredPublicKey in
    match checked with
    | Throws m =>
        (false, [addResult "Minter Signature" FAIL
                   ("SECURITY FAILURE: secp256k1 signature recovery threw error: " +:+ m)])
    | Returns isValid =>
        if negb isValid then
          (false, [addResult "Minter Signature" FAIL
                     "SECURITY FAILURE: Signature verification failed with recovered public key"])
        else
          let isFullFormat :=
            truthy_string unicityRecipient && startsWith unicityRecipient "[SHA256]" in
          let isHashOnly :=
            truthy_string unicityRecipient &&
            test_class_repeat is_hex_ci 64 64 unicityRecipient in
          if negb (truthy_string unicityRecipient) || (negb isFullFormat && negb isHashOnly)
          then
            (false, [addResult "Minter Signature" FAIL
                       ("SECURITY FAILURE: Invalid unicityRecipient format: " +:+
                        unicityRecipient)])
          else
            (true, [addResult "Minter Signature" PASS
                      "Signature cryptographically verified - created by holder of correct private key"])
    end.

(** [reconstructedCommitmentData] of [validateToken]. *)
Definition reconstructedCommitmentData (decodedProof : Token.BridgePayload) : string :=
  SdkMint.join "|"
    [ Genesis.lockId (Token.lockEvent decodedProof);
      Genesis.signature (Token.solanaTransaction decodedProof);
      toString (Genesis.blockHeight (Token.solanaTransaction decodedProof));
      Genesis.user (Token.lockEvent decodedProof);
      Genesis.amount (Token.lockEvent decodedProof);
      Genesis.nonce (Token.lockEvent decodedProof);
      Genesis.timestamp (Token.lockEvent decodedProof) ].

Record Verdict := {
  valid : bool;
  summary : string
}.

Definition count_status (st : Status) (results : list ValidationResult) : nat :=
  length (List.filter (fun r => match result_status r, st with
                           | PASS, PASS | FAIL, FAIL | WARN, WARN => true
                           | _, _ => false
                           end) results).

Definition toStringNat (n : nat) : string := toString (Z.of_nat n).

(** Step 3.1 of [validateToken]: the stored transaction against the
    claimed signature. [Some v] is an early [return v]. *)
Definition check_stored_signatures (anchor : Genesis.SolanaTransaction)
  : option Verdict * list ValidationResult :=
  match Genesis.transaction anchor with
  | Some txData =>
      match Solana.transaction txData with
      | Some body =>
          match signatures body with
          | Some (first :: _) =>
              if negb (String.eqb first (Genesis.signature anchor)) then
                (Some {| valid := false; summary := "Transaction data integrity failed" |},
                 [addResult "Transaction Data Integrity" FAIL
                    "Stored transaction signature does not match claimed signature"])
              else
                (None, [addResult "Transaction Data Integrity" PASS
                          "Transaction data signature verified"])
          | Some [] | None =>
              (None, [addResult "Transaction Data Integrity" WARN
                        "No transaction signatures in stored data"])
          end
      | None => (None, [])
      end
  | None => (None, [])
  end.

(** Step 3.2: the signature status on the chain. An error of the request
    itself is recorded as a FAIL result without an early return. *)
Definition check_rpc_status (w : World) (signature : string)
  : option Verdict * list ValidationResult :=
  match getSignatureStatuses (rpc w) signature with
  | Throws m =>
      (None, [addResult "RPC Validation" FAIL
                ("Could not verify tx signature finality on Solana (may be too old): " +:+ m)])
  | Returns None =>
      (Some {| valid := false; summary := "Transaction signature not found on blockchain" |},
       [addResult "RPC Validation" FAIL
          "Transaction signature not found on Solana blockchain"])
  | Returns (Some st) =>
      match err st with
      | Some e =>
          (Some {| valid := false; summary := "Transaction failed on blockchain" |},
           [addResult "RPC Validation" FAIL ("Transaction failed on Solana: " +:+ e)])
      | None =>
          let validStatuses := ["processed"; "confirmed"; "finalized"] in
          let cs := default EmptyString (confirmationStatus st) in
          if negb (truthy_string cs) || negb (existsb (String.eqb cs) validStatuses) then
            (Some {| valid := false; summary := "Invalid transaction confirmation status" |},
             [addResult "RPC Validation" FAIL
                ("Invalid confirmation status: " +:+
                 default "undefined" (confirmationStatus st))])
          else
            (None, [addResult "RPC Validation" PASS
                      ("Transaction signature verified on Solana with status: " +:+ cs)])
      end
  end.

(** The tail of [validateToken], after the minter signature was found:
    commitment data, key consistency, signature recovery, token id
    derivation, stored transaction, chain status, summary. *)
Definition validate_signed (w : World) (tokenJson : Token.TokenFile)
    (decodedProof : Token.BridgePayload) (minterSignature : string)
    (results : list ValidationResult) : Verdict * list ValidationResult :=
  let reconstructed := reconstructedCommitmentData decodedProof in
  let recipient := Genesis.unicityRecipient (Token.lockEvent decodedProof) in
  let '(minterKeyValid, r1) := validateMinterKeyConsistency decodedProof recipient in
  let results := results ++ r1 in
  if negb minterKeyValid then
    ({| valid := false;
        summary := "Minter key consistency validation failed - key mismatch with Solana transaction" |},
     results)
  else
    let '(signatureValid, r2) :=
      validateMinterSignatureWithRecovery w recipient reconstructed minterSignature in
    let results := results ++ r2 in
    if negb signatureValid then
      ({| valid := false; summary := "TokenId derivation signature validation failed" |},
       results)
    else
      let '(tokenIdValid, r3) :=
        validateTokenIdDerivation (Token.tokenId (Token.genesis_data tokenJson))
          reconstructed minterSignature in
      let results := results ++ r3 in
      if negb tokenIdValid then
        ({| valid := false; summary := "TokenId derivation validation failed" |}, results)
      else
        let anchor := Token.solanaTransaction decodedProof in
        let '(early1, r4) := check_stored_signatures anchor in
        let results := results ++ r4 in
        match early1 with
        | Some v => (v, results)
        | None =>
            let '(early2, r5) := check_rpc_status w (Genesis.signature anchor) in
            let results := results ++ r5 in
            match early2 with
            | Some v => (v, results)
            | None =>
                let passCount := count_status PASS results in
                let failCount := count_status FAIL results in
                let warnCount := count_status WARN results in
                ({| valid := (failCount =? 0)%nat;
                    summary := toStringNat passCount +:+ " passed, " +:+
                               toStringNat failCount +:+ " failed, " +:+
                               toStringNat warnCount +:+ " warnings" |},
                 results)
            end
        end.

(** [validateToken]: the verdict and the final [validationResults]. *)
Definition validateToken (w : World) (tokenFilePath : string)
  : Verdict * list ValidationResult :=
  match readToken w tokenFilePath with
  | None =>
      ({| valid := false; summary := "File not found" |},
       [addResult "File Access" FAIL "Token file not found"])
  | Some (Throws m) =>
      ({| valid := false; summary := "Validation error: " +:+ m |},
       [addResult "Validation Process" FAIL ("Unexpected error: " +:+ m)])
  | Some (Returns tokenJson) =>
      match tokenFactory_create w tokenJson with
      | Throws m =>
          ({| valid := false; summary := m |},
           [addResult "Token Deserialization" FAIL
              ("TokenFactory validation failed: " +:+ m)])
      | Returns _ =>
          let results :=
            [addResult "Token Deserialization" PASS
               "Token, unicity proof cryptographically validated by SDK"] in
          let '(decoded, r) :=
            consistentSolanaLockingProof (Token.tokenData (Token.genesis_data tokenJson)) in
          let results := results ++ r in
          match decoded with
          | None =>
              ({| valid := false; summary := "Inconsistent Solana locking proof" |}, results)
          | Some decodedProof =>
              match Token.minterSignature decodedProof with
              | Some minterSignature =>
                  if truthy_string minterSignature then
                    validate_signed w tokenJson decodedProof minterSignature results
                  else
                    ({| valid := false;
                        summary := "Missing mandatory minter signature field" |},
                     results ++ [addResult "Minter Signature" FAIL
                                   "Token missing required minter signature field"])
              | None =>
                  ({| valid := false;
                      summary := "Missing mandatory minter signature field" |},
                   results ++ [addResult "Minter Signature" FAIL
                                 "Token missing required minter signature field"])
              end
          end
      end
  end.

(** The result recorded when the payload has no minter signature. *)
Definition missing_signature_result : ValidationResult :=
  addResult "Minter Signature" FAIL "Token missing required minter signature field".

(** The checks that [validateToken] makes before it looks for the minter
    signature. *)
Definition early_checks : list string :=
  [ "File Access"; "Validation Process"; "Token Deserialization";
    "Solana Locking Proof"; "Bridge Type"; "Lock Event"; "Solana Anchor";
    "Transaction Signature" ].

(** A result of one of those checks, or the missing-signature result. *)
Definition is_early_result (r : ValidationResult) : bool :=
  existsb (String.eqb (check r)) early_checks ||
  (String.eqb (check r) (check missing_signature_result) &&
   String.eqb (message r) (message missing_signature_result)).

End UnicityTokenValidator.

(** ** validate-token.ts: the event extractor ([parseTokenLockedEvent]) *)

Module EventExtractor.

(** [buf.subarray(start, end)]; indices past the end are clamped. *)
Definition subarray (buf : list byte) (start stop : nat) : list byte :=
  firstn (stop - start) (skipn start buf).

Fixpoint bytes_equal (a b : list byte) : bool :=
  match a, b with
  | [], [] => true
  | x :: a', y :: b' => Byte.eqb x y && bytes_equal a' b'
  | _, _ => false
  end.

Definition byte_at (buf : list byte) (i : nat) : Z := byte_to_Z (nth i buf Byte.x00).

(** [buf.readUInt32LE(offset)]; a read past the end throws a RangeError. *)
Definition readUInt32LE (buf : list byte) (offset : nat) : outcome Z :=
  if (length buf <? offset + 4)%nat then Throws "ERR_OUT_OF_RANGE"
  else Returns (byte_at buf offset
                + byte_at buf (offset + 1) * 2 ^ 8
                + byte_at buf (offset + 2) * 2 ^ 16
                + byte_at buf (offset + 3) * 2 ^ 24).

(** [last << 24] on a byte: a 32-bit signed shift. *)
Definition shl24_int32 (last : Z) : Z :=
  if last <? 128 then last * 2 ^ 24 else last * 2 ^ 24 - 2 ^ 32.

(** [buf.readInt32LE(offset)] *)
Definition readInt32LE (buf : list byte) (offset : nat) : outcome Z :=
  if (length buf <? offset + 4)%nat then Throws "ERR_OUT_OF_RANGE"
  else Returns (byte_at buf offset
                + byte_at buf (offset + 1) * 2 ^ 8
                + byte_at buf (offset + 2) * 2 ^ 16
                + shl24_int32 (byte_at buf (offset + 3))).

(** [readU64LE] *)
Definition readU64LE (buffer : list byte) : outcome Z :=
  low ← readUInt32LE buffer 0;
  high ← readUInt32LE buffer 4;
  Returns (low + Z.shiftl high 32).

(** [readI64LE] *)
Definition readI64LE (buffer : list byte) : outcome Z :=
  low ← readUInt32LE buffer 0;
  high ← readInt32LE buffer 4;
  Returns (low + Z.shiftl high 32).

Definition expectedDiscriminator : list byte :=
  map byte_of_Z [18; 238; 170; 48; 2; 120; 199; 224].

(** The body of the [try] of [parseTokenLockedEvent]. *)
Definition parseTokenLockedEvent_body (eventData : list byte) : outcome Genesis.LockEvent :=
  if (length eventData <? 8)%nat then
    Throws "Event data too short to contain discriminator"
  else
    let discriminator := subarray eventData 0 8 in
    if negb (bytes_equal discriminator expectedDiscriminator) then
      Throws "Event discriminator mismatch"
    else
      let offset := 8%nat in
      if (length eventData <? offset + 32)%nat then Throws "Not enough data for lock_id"
      else
        let lockId := toHex (subarray eventData offset (offset + 32)) in
        let offset := (offset + 32)%nat in
        if (length eventData <? offset + 32)%nat then Throws "Not enough data for user"
        else
          let userBytes := subarray eventData offset (offset + 32) in
          let user := base58_encode userBytes in
          let offset := (offset + 32)%nat in
          if (length eventData <? offset + 8)%nat then Throws "Not enough data for amount"
          else
            let amountBytes := subarray eventData offset (offset + 8) in
            amount ← readU64LE amountBytes;
            let offset := (offset + 8)%nat in
            if (length eventData <? offset + 4)%nat
            then Throws "Not enough data for string length"
            else
              recipientLength ← readUInt32LE eventData offset;
              let recipientLength := Z.to_nat recipientLength in
              let offset := (offset + 4)%nat in
              if (length eventData <? offset + recipientLength)%nat
              then Throws "Not enough data for unicity_recipient string"
              else
                let unicityRecipient :=
                  string_of_bytes (subarray eventData offset (offset + recipientLength)) in
                let offset := (offset + recipientLength)%nat in
                if (length eventData <? offset + 8)%nat
                then Throws "Not enough data for nonce"
                else
                  let nonceBytes := subarray eventData offset (offset + 8) in
                  nonce ← readU64LE nonceBytes;
                  let offset := (offset + 8)%nat in
                  if (length eventData <? offset + 8)%nat
                  then Throws "Not enough data for timestamp"
                  else
                    let timestampBytes := subarray eventData offset (offset + 8) in
                    timestamp ← readI64LE timestampBytes;
                    Returns {| Genesis.lockId := lockId;
                               Genesis.user := user;
                               Genesis.amount := toString amount;
                               Genesis.unicityRecipient := unicityRecipient;
                               Genesis.nonce := toString nonce;
                               Genesis.timestamp := toString timestamp |}.

(** [parseTokenLockedEvent]: any error of the body gives [null]. *)
Definition parseTokenLockedEvent (eventData : list byte) : option Genesis.LockEvent :=
  match parseTokenLockedEvent_body eventData with
  | Returns e => Some e
  | Throws _ => None
  end.

End EventExtractor.

(** ** The binary log encoding of a lock event

    This definition follows the design document: an 8-byte discriminator,
    the 32-byte lock id, the 32-byte account, the amount as 8 bytes
    little-endian unsigned, the recipient as a 4-byte little-endian length
    and its UTF-8 bytes, the nonce as 8 bytes little-endian unsigned, the
    timestamp as 8 bytes little-endian two's complement. *)

Module LogEncoding.
Module BC := BridgeClient.

(** The [n] low bytes of [x], least significant first; a negative [x] is
    taken in two's complement. *)
Fixpoint le_bytes (n : nat) (x : Z) : list byte :=
  match n with
  | O => []
  | S k => byte_of_Z x :: le_bytes k (x / 256)
  end.

Definition discriminator : list byte :=
  map byte_of_Z [18; 238; 170; 48; 2; 120; 199; 224].

Definition serialize (e : BC.LockEvent) : list byte :=
  discriminator
  ++ BC.lockId e
  ++ BC.user e
  ++ le_bytes 8 (BC.amount e)
  ++ le_bytes 4 (Z.of_nat (String.length (BC.unicityRecipient e)))
  ++ bytes_of_string (BC.unicityRecipient e)
  ++ le_bytes 8 (BC.nonce e)
  ++ le_bytes 8 (BC.timestamp e).

(** A lock event that the encoding can carry; its recipient is text, that
    is well-formed UTF-8. *)
Definition valid_event (e : BC.LockEvent) : Prop :=
  length (BC.lockId e) = 32%nat /\
  length (BC.user e) = 32%nat /\
  0 <= BC.amount e < 2 ^ 64 /\
  Z.of_nat (String.length (BC.unicityRecipient e)) < 2 ^ 32 /\
  0 <= BC.nonce e < 2 ^ 64 /\
  - 2 ^ 63 <= BC.timestamp e < 2 ^ 63 /\
  well_formed_utf8 (BC.unicityRecipient e).

End LogEncoding.

(** ** demo-bridge-monitor.ts: [BridgeMonitor] *)

Module BridgeMonitor.
Module BC := BridgeClient.

Record Config := {
  bridgeProgramId : string;
  outputDir : string
}.

(** The fields of the monitor that [processBridgeEvent] reads and writes,
    with the trusted block hashes of the light client that its proof
    validator owns. *)
Record State := {
  processedEvents : Z;
  lastCheckedSlot : Z;
  processedTransactions : gset string;
  trustedBlockHashes : gset string
}.

(** The collaborators: the RPC endpoint, the SDK and wallet of the mint,
    and the clock. *)
Record World := {
  rpc : Solana.Rpc;
  sdk : SdkMint.Sdk;
  now : Z
}.

(** What one call of [processBridgeEvent] did, oldest first. *)
Inductive Action :=
| ValidatedGenesisProof (proof : BC.ProofData)
| ValidatedCryptographicChain (genesisProof : Genesis.UnicityGenesisProof)
| CalledMint (proof : Genesis.UnicityGenesisProof) (minterPublicKey : string)
    (effects : list SdkMint.Effect)
| WroteValidationMetadata (lockIdHex : string)
| SavedProcessedTransactions (processed : gset string) (lastCheckedSlot : Z).

(** [BN.prototype.toNumber]: an assertion fails from 2^53 on. *)
Definition BN_toNumber (z : Z) : outcome Z :=
  if Z.abs z <? 2 ^ 53 then Returns z
  else Throws "Number can only safely store up to 53 bits".

(** The body of the [try] of [processBridgeEvent], from the proof
    validation on. The state and the actions are those reached when the
    body returned or threw. *)
Definition process_body (cfg : Config) (w : World) (st : State)
    (event : BC.LockEvent) (proof : BC.ProofData) : outcome unit * State * list Action :=
  let lockIdHex := String.substring 0 8 (toHex (BC.lockId event)) in
  let '(validated, trusted') :=
    UnicityProofValidator.validateGenesisProof (rpc w) (bridgeProgramId cfg) (now w)
      (trustedBlockHashes st) proof in
  let st := {| processedEvents := processedEvents st;
               lastCheckedSlot := lastCheckedSlot st;
               processedTransactions := processedTransactions st;
               trustedBlockHashes := trusted' |} in
  let log := [ValidatedGenesisProof proof] in
  match validated with
  | Throws m => (Throws m, st, log)
  | Returns validatedProof =>
      let log := log ++ [ValidatedCryptographicChain validatedProof] in
      match UnicityProofValidator.validateCryptographicChain (rpc w) validatedProof with
      | Throws m => (Throws m, st, log)
      | Returns chainValid =>
          let validationPending :=
            bool_decide (Genesis.status (Genesis.validation validatedProof)
                         = Some "PENDING_VALIDATION") in
          let unicityRecipient := Recipient.restore (BC.unicityRecipient event) in
          let '(mintResult, effects) :=
            SdkMint.mintBridgedTokenWithSDK (sdk w) validatedProof unicityRecipient
              (outputDir cfg) (bridgeProgramId cfg) in
          let mintingFailed := negb (is_returns mintResult) in
          let log := log ++ [CalledMint validatedProof unicityRecipient effects] in
          let log :=
            if validationPending then log ++ [WroteValidationMetadata lockIdHex] else log in
          let processedEvents' := processedEvents st + 1 in
          let processed' :=
            {[ BC.signature (BC.transaction proof) ]} ∪ processedTransactions st in
          let lastCheckedSlot' := Math_max (lastCheckedSlot st) (BC.proof_slot proof) in
          let log :=
            if processedEvents' mod 5 =? 0
            then log ++ [SavedProcessedTransactions processed' lastCheckedSlot']
            else log in
          (Returns tt,
           {| processedEvents := processedEvents';
              lastCheckedSlot := lastCheckedSlot';
              processedTransactions := processed';
              trustedBlockHashes := trustedBlockHashes st |},
           log)
      end
  end.

(** [processBridgeEvent]: the replay check, then the [try] whose [catch]
    only reports the error. *)
Definition processBridgeEvent (cfg : Config) (w : World) (st : State)
    (event : BC.LockEvent) (proof : BC.ProofData) : State * list Action :=
  if bool_decide (BC.signature (BC.transaction proof) ∈ processedTransactions st)
  then (st, [])
  else
    match BN_toNumber (BC.amount event) with
    | Throws _ => (st, [])
    | Returns _ =>
        let '(_, st', log) := process_body cfg w st event proof in
        (st', log)
    end.

(** An action that is a call of the mint with the given key. *)
Definition mint_called_with (key : string) (a : Action) : Prop :=
  match a with
  | CalledMint _ minterPublicKey _ => minterPublicKey = key
  | _ => True
  end.

Definition is_mint_call (a : Action) : bool :=
  match a with CalledMint _ _ _ => true | _ => false end.

Definition is_validation (a : Action) : bool :=
  match a with ValidatedGenesisProof _ => true | _ => false end.

End BridgeMonitor.

(** ** The complete demo flow: [processEvent] *)

Module CompleteDemo.
Module BC := BridgeClient.

Definition bridgeProgramId : string := "9q5thPnZG7FKKNr61wceXdfuy2QRLYky8RTJonh2YzyB".

Inductive Settled :=
| Resolved
| Rejected (message : string).

Inductive Action :=
| ValidatedGenesisProof (proof : BC.ProofData)
| ValidatedCryptographicChain (genesisProof : Genesis.UnicityGenesisProof)
| CalledMint (proof : Genesis.UnicityGenesisProof) (minterPublicKey : string)
    (effects : list SdkMint.Effect).

(** [UnicityBridgeIntegration.mintBridgedTokens] *)
Definition mintBridgedTokens (sdk : SdkMint.Sdk) (outputDir : string)
    (proof : Genesis.UnicityGenesisProof) (minterPublicKey : string)
  : outcome SdkMint.MintResult * list SdkMint.Effect :=
  SdkMint.mintBridgedTokenWithSDK sdk proof minterPublicKey outputDir bridgeProgramId.

(** [processEvent]: how the promise is settled, the trusted block hashes
    of the validator afterwards, and the actions. *)
Definition processEvent (rpc : Solana.Rpc) (sdk : SdkMint.Sdk) (now : Z)
    (outputDir : string) (trusted : gset string)
    (event : BC.LockEvent) (proof : BC.ProofData) : Settled * gset string * list Action :=
  let '(validated, trusted') :=
    UnicityProofValidator.validateGenesisProof rpc bridgeProgramId now trusted proof in
  let log := [ValidatedGenesisProof proof] in
  match validated with
  | Throws m => (Rejected m, trusted', log)
  | Returns validatedProof =>
      let log := log ++ [ValidatedCryptographicChain validatedProof] in
      match UnicityProofValidator.validateCryptographicChain rpc validatedProof with
      | Throws m => (Rejected m, trusted', log)
      | Returns chainValid =>
          if negb chainValid then
            (Rejected "Cryptographic chain validation failed", trusted', log)
          else
            let eventRecipient := Recipient.restore (BC.unicityRecipient event) in
            let '(mintResult, effects) :=
              mintBridgedTokens sdk outputDir validatedProof eventRecipient in
            let log := log ++ [CalledMint validatedProof eventRecipient effects] in
            match mintResult with
            | Throws m =>
                if includes "REQUEST_ID_EXISTS" m || includes "already exists" m
                then (Rejected "TOKEN_ALREADY_EXISTS", trusted', log)
                else (Rejected m, trusted', log)
            | Returns _ => (Resolved, trusted', log)
            end
      end
  end.

(** An action that is a call of the mint with the given key. *)
Definition mint_called_with (key : string) (a : Action) : Prop :=
  match a with
  | CalledMint _ minterPublicKey _ => minterPublicKey = key
  | _ => True
  end.

End CompleteDemo.


(** ** Sample data: the scenarios of the design document *)

Module Samples.
Module BC := BridgeClient.

Definition digest_recipient : string :=
  "15ed2f7f97c6e98c15d8dc4ba8bef3ebefc5ebf049dab7cdd075d334a6bba2f9".

Definition tx_signature : string :=
  "5VERv8NMvzbJMEkV8xnrLkEaWRtSz9CosKDYjCJjBRnbJLgp8uirBgmQpjKhoR4tjF3ZpRzrFmBV6UjKdiSZkQUW".

Definition block_hash : string := "4vJ9JU1bJJE96FWSJKvHsmmFADCg4gpZQff4P3bkLKi".

(** Scenario A: amount 100000000, nonce 0, timestamp 1700000000, a
    64-hex-character recipient. *)
Definition lock_event : BC.LockEvent :=
  {| BC.lockId := repeat Byte.x2a 32;
     BC.user := repeat Byte.x07 32;
     BC.amount := 100000000;
     BC.unicityRecipient := digest_recipient;
     BC.nonce := 0;
     BC.timestamp := 1700000000 |}.

Definition stored_tx (sigs : list string) : Solana.TransactionResponse :=
  {| Solana.transaction :=
       Some {| Solana.signatures := Some sigs;
               Solana.staticAccountKeys := [CompleteDemo.bridgeProgramId] |} |}.

Definition status (cs : string) (confirmations : option Z) : Solana.SignatureStatus :=
  {| Solana.confirmationStatus := Some cs;
     Solana.confirmations := confirmations;
     Solana.err := None;
     Solana.slot := Some 100 |}.

Definition proof_with (hash : string) (st : option Solana.SignatureStatus)
    (full : option Solana.TransactionResponse) : BC.ProofData :=
  {| BC.event := lock_event;
     BC.proof_slot := 100;
     BC.blockHash := hash;
     BC.blockHeight := 100;
     BC.transaction :=
       {| BC.signature := tx_signature;
          BC.slot := 100;
          BC.blockTime := 1700000000;
          BC.fullTransaction := full |};
     BC.signatureStatus := st |}.

Definition proof_data : BC.ProofData :=
  proof_with block_hash (Some (status "confirmed" (Some 3))) (Some (stored_tx [tx_signature])).

(** An endpoint that knows the transaction; the finalized block at the
    asked height is [block] and the finalized slot is [finalized]. *)
Definition rpc_with (block : outcome (option Solana.Block)) (finalized : Z) : Solana.Rpc :=
  {| Solana.getBlock := fun _ => block;
     Solana.getSlot := Returns finalized;
     Solana.getSignatureStatuses := fun _ => Returns (Some (status "confirmed" (Some 3)));
     Solana.getSignatureStatus := fun _ => Returns (Some (status "confirmed" (Some 3)));
     Solana.getTransaction := fun _ => Returns (Some (stored_tx [tx_signature])) |}.

(** The block is finalized and has the claimed hash. *)
Definition rpc_finalized : Solana.Rpc :=
  rpc_with (Returns (Some {| Solana.blockhash := block_hash |})) 200.

(** Scenario C: the block is 5 slots ahead of the finalized slot. *)
Definition rpc_ahead : Solana.Rpc := rpc_with (Returns None) 95.

(** The block is no longer served but is 50 slots old. *)
Definition rpc_aged : Solana.Rpc := rpc_with (Throws "Block not available") 150.

Definition wallet : SdkMint.Wallet :=
  {| SdkMint.secret := repeat Byte.x01 32;
     SdkMint.wallet_nonce := repeat Byte.x02 32;
     SdkMint.publicKey := "[SHA256]" +:+ digest_recipient |}.

(** An SDK whose network accepts the commitment. *)
Definition sdk_accepting : SdkMint.Sdk :=
  {| SdkMint.loadUnicityWallet := Some wallet;
     SdkMint.encode := fun _ => [];
     SdkMint.directAddress := fun _ _ _ => Returns "DIRECT://0000";
     SdkMint.submitMintTransaction := fun _ => Returns "commitment-1";
     SdkMint.waitInclusionProof := fun _ => Returns tt;
     SdkMint.createTransaction := fun _ => Returns tt |}.

Definition config : BridgeMonitor.Config :=
  {| BridgeMonitor.bridgeProgramId := CompleteDemo.bridgeProgramId;
     BridgeMonitor.outputDir := "demo-output" |}.

Definition world (rpc : Solana.Rpc) : BridgeMonitor.World :=
  {| BridgeMonitor.rpc := rpc; BridgeMonitor.sdk := sdk_accepting; BridgeMonitor.now := 0 |}.

Definition fresh_state : BridgeMonitor.State :=
  {| BridgeMonitor.processedEvents := 0;
     BridgeMonitor.lastCheckedSlot := 0;
     BridgeMonitor.processedTransactions := ∅;
     BridgeMonitor.trustedBlockHashes := ∅ |}.

(** The monitor after it has recorded the sample transaction. *)
Definition seen_state : BridgeMonitor.State :=
  {| BridgeMonitor.processedEvents := 1;
     BridgeMonitor.lastCheckedSlot := 100;
     BridgeMonitor.processedTransactions := {[ tx_signature ]};
     BridgeMonitor.trustedBlockHashes := ∅ |}.

(** A stored signature status of a finalized transaction: the endpoint
    reports [confirmations: null] for it. *)
Definition proof_finalized : BC.ProofData :=
  proof_with block_hash (Some (status "finalized" None)) (Some (stored_tx [tx_signature])).

(** A genesis proof whose embedded transaction is signed by another
    signature than the claimed one. *)
Definition genesis_mismatch : Genesis.UnicityGenesisProof :=
  UnicityProofValidator.build_genesisProof 0
    (proof_with block_hash (Some (status "finalized" (Some 3)))
       (Some (stored_tx ["3mismatch"])))
    true true.

Definition genesis_validated : Genesis.UnicityGenesisProof :=
  UnicityProofValidator.build_genesisProof 0 proof_data true true.

(** A 65-byte signature in hex, as the validator expects it. *)
Definition minter_signature : string :=
  "1b" +:+ toHex (repeat Byte.x11 32) +:+ toHex (repeat Byte.x22 32).

(** The token that the mint writes for [genesis_validated]. *)
Definition minted_token : Token.TokenFile :=
  SdkMint.token_of
    {| SdkMint.mint_tokenId := SdkMint.tokenIdHash genesis_validated;
       SdkMint.mint_tokenType := SdkMint.tokenTypeHash CompleteDemo.bridgeProgramId;
       SdkMint.mint_tokenData := SdkMint.tokenData genesis_validated;
       SdkMint.mint_coinData := [("BRIDGED_SOL", 100000000)];
       SdkMint.mint_recipient := "DIRECT://0000";
       SdkMint.mint_salt := SdkMint.saltHash genesis_validated;
       SdkMint.mint_dataHash := Sha256.digest [] |}
    "commitment-1".

(** A 64-byte transaction signature that starts with two zero bytes: its
    base-58 text has 86 characters. *)
Definition short_signature : string :=
  base58_encode (repeat Byte.x00 2 ++ repeat Byte.x01 62).

(** The proof of the sample event in a transaction with that signature. *)
Definition proof_short_signature : BC.ProofData :=
  {| BC.event := lock_event;
     BC.proof_slot := 100;
     BC.blockHash := block_hash;
     BC.blockHeight := 100;
     BC.transaction :=
       {| BC.signature := short_signature;
          BC.slot := 100;
          BC.blockTime := 1700000000;
          BC.fullTransaction := Some (stored_tx [short_signature]) |};
     BC.signatureStatus := Some (status "confirmed" (Some 3)) |}.

Definition genesis_short_signature : Genesis.UnicityGenesisProof :=
  UnicityProofValidator.build_genesisProof 0 proof_short_signature true true.

(** A validator whose token factory accepts the file and whose secp256k1
    library verifies every signature. *)
Definition validator_world (token : Token.TokenFile) : UnicityTokenValidator.World :=
  {| UnicityTokenValidator.readToken := fun _ => Some (Returns token);
     UnicityTokenValidator.tokenFactory_create := fun _ => Returns tt;
     UnicityTokenValidator.ecdsaRecover := fun _ _ _ => Returns (repeat Byte.x04 65);
     UnicityTokenValidator.ecdsaVerify := fun _ _ _ => Returns true;
     UnicityTokenValidator.rpc := rpc_finalized |}.

End Samples.

(** * More of the code: the functions around the ones above *)

(** ** proof-validator.ts: [verifyMerkleProof], [getLatestFinalizedBlock],
    [ProofUtils] *)

Module LightClientMore.
Import Solana.

(** [crypto.createHash('sha256').update(a).update(b).digest('hex')] on two
    buffers read from hex text. *)
Definition hash_pair (leftHex rightHex : string) : string :=
  toHex (Sha256.digest (fromHex leftHex ++ fromHex rightHex)).

(** One turn of the loop of [verifyMerkleProof]. [currentIndex % 2 === 0]
    is the remainder of the truncating division. *)
Definition merkle_step (computedHash proofElement : string) (currentIndex : Z) : string :=
  let isLeftChild := Z.rem currentIndex 2 =? 0 in
  if isLeftChild then hash_pair computedHash proofElement
  else hash_pair proofElement computedHash.

(** The loop: the hash and the index after every element of [proof]. *)
Fixpoint merkle_loop (computedHash : string) (currentIndex : Z) (proof : list string)
  : string :=
  match proof with
  | [] => computedHash
  | proofElement :: rest =>
      merkle_loop (merkle_step computedHash proofElement currentIndex)
                  (currentIndex / 2) rest
  end.

(** [verifyMerkleProof]; [leafIndex] is an integer. *)
Definition verifyMerkleProof (transactionHash merkleRoot : string) (proof : list string)
    (leafIndex : Z) : bool :=
  let computedHash := toHex (Sha256.sha256 transactionHash) in
  String.eqb (merkle_loop computedHash leafIndex proof) merkleRoot.

Record Checkpoint := {
  cp_slot : Z;
  cp_blockHash : string;
  cp_blockHeight : Z
}.

(** [getLatestFinalizedBlock] *)
Definition getLatestFinalizedBlock (rpc : Rpc) : outcome Checkpoint :=
  slot ← getSlot rpc;
  block ← getBlock rpc slot;
  match block with
  | None => Throws "Could not fetch finalized block"
  | Some block =>
      Returns {| cp_slot := slot; cp_blockHash := blockhash block; cp_blockHeight := slot |}
  end.

End LightClientMore.

Module ProofUtils.

(** [generateLockId] *)
Definition generateLockId (user amount nonce timestamp : string) : string :=
  toHex (Sha256.sha256 (user +:+ ":" +:+ amount +:+ ":" +:+ nonce +:+ ":" +:+ timestamp)).

(** [verifyProofIntegrity]: the expected lock id is computed and not used;
    the result is [hasValidStructure]. A number is truthy when it is not
    zero. *)
Definition verifyProofIntegrity (proof : Genesis.UnicityGenesisProof) : bool :=
  let expectedLockId :=
    generateLockId (Genesis.user (Genesis.lockEvent proof))
                   (Genesis.amount (Genesis.lockEvent proof))
                   (Genesis.nonce (Genesis.lockEvent proof))
                   (Genesis.timestamp (Genesis.lockEvent proof)) in
  let hasValidStructure :=
    truthy_string (Genesis.lockId (Genesis.lockEvent proof)) &&
    truthy_string (Genesis.user (Genesis.lockEvent proof)) &&
    truthy_string (Genesis.amount (Genesis.lockEvent proof)) &&
    negb (Genesis.blockHeight (Genesis.solanaTransaction proof) =? 0) &&
    truthy_string (Genesis.signature (Genesis.solanaTransaction proof)) in
  hasValidStructure.

End ProofUtils.

(** ** bridge-client.ts: [generateProof], [verifyProof] *)

Module SolanaBridgeClient.
Module BC := BridgeClient.

(** Answers of the endpoint at commitment "confirmed", with the block time
    that the proof builder reads ([None] for null or missing). *)
Record TransactionDetails := {
  details : Solana.TransactionResponse;
  details_blockTime : option Z
}.

Record ConfirmedBlock := {
  block_hash : string;
  block_blockTime : option Z
}.

Record Connection := {
  getTransaction : string -> outcome (option TransactionDetails);
  getSignatureStatuses : string -> outcome (option Solana.SignatureStatus);
  getBlock : Z -> outcome (option ConfirmedBlock)
}.

(** [x || fallback] on a number that may be null. *)
Definition number_or (x : option Z) (fallback : Z) : Z :=
  match x with
  | Some v => if v =? 0 then fallback else v
  | None => fallback
  end.

(** [generateProof]. The error of a failed transaction is given by its
    JSON text, as [JSON.stringify] prints it. *)
Definition generateProof (c : Connection) (event : BC.LockEvent) (signature : string)
    (slot : Z) : outcome BC.ProofData :=
  txDetails ← getTransaction c signature;
  match txDetails with
  | None => Throws ("Transaction not found: " +:+ signature)
  | Some txDetails =>
      signatureStatus ← getSignatureStatuses c signature;
      match signatureStatus with
      | None => Throws ("Could not get signature status for transaction: " +:+ signature)
      | Some st =>
          match Solana.err st with
          | Some e => Throws ("Transaction failed with error: " +:+ e)
          | None =>
              let blockTime := number_or (details_blockTime txDetails) 0 in
              let '(blockHash, blockTime) :=
                match getBlock c slot with
                | Returns (Some block) =>
                    (block_hash block, number_or (block_blockTime block) blockTime)
                | Returns None | Throws _ => (EmptyString, blockTime)
                end in
              Returns {| BC.event := event;
                         BC.proof_slot := slot;
                         BC.blockHash := blockHash;
                         BC.blockHeight := slot;
                         BC.transaction :=
                           {| BC.signature := signature;
                              BC.slot := slot;
                              BC.blockTime := blockTime;
                              BC.fullTransaction := Some (details txDetails) |};
                         BC.signatureStatus := Some st |}
          end
      end
  end.

(** [verifyProof] (static) *)
Definition verifyProof (proof : BC.ProofData) : bool :=
  if negb (length (BC.lockId (BC.event proof)) =? 32)%nat then false
  else if BC.amount (BC.event proof) <=? 0 then false
  else if negb (truthy_string (BC.signature (BC.transaction proof))) then false
  else
    match BC.signatureStatus proof with
    | None => false
    | Some st =>
        match Solana.err st with
        | Some _ => false
        | None =>
            match Solana.confirmationStatus st with
            | None => false
            | Some cs =>
                if negb (truthy_string cs) ||
                   negb (existsb (String.eqb cs) ["processed"; "confirmed"; "finalized"])
                then false
                else true
            end
        end
    end.

End SolanaBridgeClient.

(** ** The lock script and the demo flow: the recipient sent to the contract *)

Module LockDemo.

(** [[a-zA-Z0-9_]] *)
Definition is_word_char (c : ascii) : bool :=
  in_range "a" "z" c || in_range "A" "Z" c || in_range "0" "9" c ||
  Ascii.eqb c "_".

(** [recipient.startsWith('[SHA256]') && recipient.length === 72]; the
    length of a string is counted in UTF-16 code units. *)
Definition isUnicityKey (recipient : string) : bool :=
  startsWith recipient "[SHA256]" && (js_length recipient =? 72)%nat.

(** [/^[a-zA-Z0-9_]+$/.test(recipient) && recipient.length >= 3 &&
    recipient.length <= 50]; a text of word characters has one byte and
    one code unit for each character. *)
Definition isSimpleRecipient (recipient : string) : bool :=
  test_class_repeat is_word_char 1 (String.length recipient) recipient &&
  (3 <=? String.length recipient)%nat && (String.length recipient <=? 50)%nat.

(** The recipients that [main] of the lock script lets through. *)
Definition accepted (recipient : string) : bool :=
  isUnicityKey recipient || isSimpleRecipient recipient.

(** [contractRecipient] of [executeLockTransaction] and of the demo flow:
    [r.startsWith('[SHA256]') ? r.substring(8) : r]; the eight code units
    that [substring] drops are the eight bytes of the tag. *)
Definition contractRecipient (originalRecipient : string) : string :=
  if startsWith originalRecipient "[SHA256]"
  then String.substring 8 (String.length originalRecipient - 8) originalRecipient
  else originalRecipient.

End LockDemo.

(** ** demo-bridge-monitor.ts: persistence and polling *)

Module MonitorMore.
Import BridgeMonitor.
Module BC := BridgeClient.

(** The parsed text of processed-transactions.json; a property that is
    missing is [None]. *)
Record SavedFile := {
  saved_processedTransactions : option (list string);
  saved_lastCheckedSlot : option Z;
  savedAt : string
}.

(** The object that [saveProcessedTransactions] writes. [Array.from] of
    the set is given by the elements of the set. *)
Definition saveProcessedTransactions (st : State) (isoNow : string) : SavedFile :=
  {| saved_processedTransactions := Some (elements (processedTransactions st));
     saved_lastCheckedSlot := Some (lastCheckedSlot st);
     savedAt := isoNow |}.

(** [loadProcessedTransactions]. The file is [None] when it does not
    exist and [Some (Throws _)] when its text does not parse; both leave
    the monitor as it was. *)
Definition loadProcessedTransactions (st : State) (file : option (outcome SavedFile))
  : State :=
  match file with
  | Some (Returns data) =>
      {| processedEvents := processedEvents st;
         lastCheckedSlot := SolanaBridgeClient.number_or (saved_lastCheckedSlot data) 0;
         processedTransactions :=
           list_to_set (default [] (saved_processedTransactions data));
         trustedBlockHashes := trustedBlockHashes st |}
  | Some (Throws _) | None => st
  end.

(** An entry of [getSignaturesForAddress]. *)
Record SignatureInfo := {
  info_signature : string;
  info_slot : Z
}.

(** The collaborators of a poll: those of [processBridgeEvent], the list
    of recent signatures (most recent first), whether the finalized
    transaction is there with its meta and without error, the event parser
    of the bridge client, and the connection of the proof builder. *)
Record PollWorld := {
  base : World;
  getSignaturesForAddress : outcome (list SignatureInfo);
  transaction_succeeded : string -> outcome bool;
  parseTokenLockedEvent : string -> option BC.LockEvent;
  client : SolanaBridgeClient.Connection
}.

(** The body of the loop of [pollForMissedTransactions] for one entry. *)
Definition poll_one (cfg : Config) (w : PollWorld) (st : State) (sigInfo : SignatureInfo)
  : State * list Action :=
  if bool_decide (info_signature sigInfo ∈ processedTransactions st) then (st, [])
  else if info_slot sigInfo <=? lastCheckedSlot st then (st, [])
  else
    match transaction_succeeded w (info_signature sigInfo) with
    | Returns true =>
        match parseTokenLockedEvent w (info_signature sigInfo) with
        | Some lockEvent =>
            match SolanaBridgeClient.generateProof (client w) lockEvent
                    (info_signature sigInfo) (info_slot sigInfo) with
            | Returns proof => processBridgeEvent cfg (base w) st lockEvent proof
            | Throws _ => (st, [])
            end
        | None => (st, [])
        end
    | Returns false | Throws _ => (st, [])
    end.

Fixpoint poll_loop (cfg : Config) (w : PollWorld) (st : State)
    (signatures : list SignatureInfo) : State * list Action :=
  match signatures with
  | [] => (st, [])
  | sigInfo :: rest =>
      let '(st1, log1) := poll_one cfg w st sigInfo in
      let '(st2, log2) := poll_loop cfg w st1 rest in
      (st2, log1 ++ log2)
  end.

(** [pollForMissedTransactions]: the list is walked oldest first; an error
    of the list request ends the poll. *)
Definition pollForMissedTransactions (cfg : Config) (w : PollWorld) (st : State)
  : State * list Action :=
  match getSignaturesForAddress w with
  | Returns signatures => poll_loop cfg w st (rev signatures)
  | Throws _ => (st, [])
  end.

End MonitorMore.

(** ** A reference Merkle tree

    The tree that [verifyMerkleProof] is meant for, written from the
    comments of that function: a leaf is the hash of the transaction hash
    text, a parent is the hash of the bytes of its left child followed by
    those of its right child; the proof of a leaf lists the siblings on
    the way up, and leaves are numbered from the left. *)

Module MerkleTree.

Inductive tree :=
| Leaf (transactionHash : string)
| Node (left right : tree).

Fixpoint root (t : tree) : string :=
  match t with
  | Leaf transactionHash => toHex (Sha256.sha256 transactionHash)
  | Node l r => LightClientMore.hash_pair (root l) (root r)
  end.

Fixpoint depth (t : tree) : nat :=
  match t with
  | Leaf _ => O
  | Node l _ => S (depth l)
  end.

(** Every leaf is at the same depth. *)
Fixpoint perfect (t : tree) : bool :=
  match t with
  | Leaf _ => true
  | Node l r => perfect l && perfect r && (depth l =? depth r)%nat
  end.

Fixpoint leaf (t : tree) (index : Z) : string :=
  match t with
  | Leaf transactionHash => transactionHash
  | Node l r =>
      if index <? 2 ^ Z.of_nat (depth l) then leaf l index
      else leaf r (index - 2 ^ Z.of_nat (depth l))
  end.

Fixpoint siblings (t : tree) (index : Z) : list string :=
  match t with
  | Leaf _ => []
  | Node l r =>
      if index <? 2 ^ Z.of_nat (depth l) then siblings l index ++ [root r]
      else siblings r (index - 2 ^ Z.of_nat (depth l)) ++ [root l]
  end.

End MerkleTree.

(** ** Sample data for the functions above *)

Module MoreSamples.
Import Samples.

(** The confirmed endpoint of the bridge client; it knows the sample
    transaction and answers [block] to the block request. *)
Definition connection_with (block : outcome (option SolanaBridgeClient.ConfirmedBlock))
  : SolanaBridgeClient.Connection :=
  {| SolanaBridgeClient.getTransaction := fun _ =>
       Returns (Some {| SolanaBridgeClient.details := stored_tx [tx_signature];
                        SolanaBridgeClient.details_blockTime := Some 1700000000 |});
     SolanaBridgeClient.getSignatureStatuses := fun _ =>
       Returns (Some (status "confirmed" (Some 3)));
     SolanaBridgeClient.getBlock := fun _ => block |}.

End MoreSamples.

Module SignedSamples.
Import Samples.

(** The payload of [genesis_validated] with a minter signature, and a token
    whose id is derived as the validator expects. *)
Definition signed_payload : Token.BridgePayload :=
  {| Token.bridgeType := "SOLANA_BRIDGE";
     Token.lockEvent := Genesis.lockEvent genesis_validated;
     Token.solanaTransaction := Genesis.solanaTransaction genesis_validated;
     Token.minterSignature := Some minter_signature |}.

Definition signed_token : Token.TokenFile :=
  {| Token.genesis_data :=
       {| Token.coins := [("BRIDGED_SOL", 100000000)];
          Token.recipient := "DIRECT://0000";
          Token.salt := toHex (SdkMint.saltHash genesis_validated);
          Token.tokenData := Token.Encoded signed_payload;
          Token.tokenId :=
            UnicityTokenValidator.expectedTokenIdHex
              (UnicityTokenValidator.reconstructedCommitmentData signed_payload)
              minter_signature;
          Token.tokenType := toHex (SdkMint.tokenTypeHash CompleteDemo.bridgeProgramId) |};
     Token.inclusion_of := "commitment-1";
     Token.state_data := Token.Encoded signed_payload |}.

End SignedSamples.
(** * Properties *)

(** ** The hash function on its test vectors *)

Section Sha256Vectors.

Example sha256_constants :
  hd 0%N Sha256.K = 0x428a2f98%N /\ List.last Sha256.K 0%N = 0xc67178f2%N /\
  hd 0%N Sha256.H0 = 0x6a09e667%N /\ List.last Sha256.H0 0%N = 0x5be0cd19%N /\
  length Sha256.K = 64%nat /\ length Sha256.H0 = 8%nat.
Proof. vm_compute. repeat split; reflexivity. Qed.

Example sha256_abc :
  toHex (Sha256.sha256 "abc")
  = "ba7816bf8f01cfea414140de5dae2223b00361a396177a9cb410ff61f20015ad".
Proof. vm_compute. reflexivity. Qed.

Example sha256_empty :
  toHex (Sha256.sha256 "")
  = "e3b0c44298fc1c149afbf4c8996fb92427ae41e4649b934ca495991b7852b855".
Proof. vm_compute. reflexivity. Qed.

Example sha256_two_blocks :
  toHex (Sha256.sha256 "abcdbcdecdefdefgefghfghighijhijkijkljklmklmnlmnomnopnopq")
  = "248d6a61d20638b8e5c026930c3e6039a33ce45964ff2167f6ecedd419db06c1".
Proof. vm_compute. reflexivity. Qed.

Example base58_vectors :
  base58_encode (fromHex "0000287fb4cd") = "11233QC4" /\
  base58_encode (fromHex "61") = "2g" /\
  base58_encode (fromHex "00eb15231dfceb60925886b67d065299925915aeb172c06647")
  = "1NS17iag9jJgTHD1VXjvLCEnZuQ3rJDE9L".
Proof. vm_compute. repeat split; reflexivity. Qed.

End Sha256Vectors.

(** ** Strings *)

Section StringFacts.

Lemma includes_prefix needle hay :
  String.prefix needle hay = true -> includes needle hay = true.
Proof. intros H. destruct hay; simpl in *; rewrite H; reflexivity. Qed.

Lemma prefix_append p s : String.prefix p (p +:+ s) = true.
Proof.
  induction p as [|c p IH]; simpl.
  - destruct s; reflexivity.
  - destruct (ascii_dec c c); [exact IH | congruence].
Qed.

Lemma includes_append needle rest : includes needle (needle +:+ rest) = true.
Proof. apply includes_prefix, prefix_append. Qed.

Lemma all_chars_Forall p s :
  all_chars p s = true <-> Forall (fun c => p c = true) (list_ascii_of_string s).
Proof.
  induction s as [|c s IH]; simpl.
  - split; [constructor | reflexivity].
  - rewrite andb_true_iff, IH. split.
    + intros [? ?]. constructor; assumption.
    + intros H. inversion H; subst. split; assumption.
Qed.

Lemma test_class_repeat_spec p lo hi s :
  test_class_repeat p lo hi s = true <->
  (lo <= String.length s <= hi)%nat /\
  Forall (fun c => p c = true) (list_ascii_of_string s).
Proof.
  unfold test_class_repeat.
  rewrite !andb_true_iff, !Nat.leb_le, all_chars_Forall. tauto.
Qed.

(** The class [[a-f0-9]] under the [i] flag is the set of the 22
    hexadecimal digit characters. *)
Lemma is_hex_ci_spec c :
  is_hex_ci c = true <-> In c (list_ascii_of_string "0123456789abcdefABCDEF").
Proof.
  destruct c as [[] [] [] [] [] [] [] []]; vm_compute;
    (split; [ intros H; first [ discriminate H | tauto ]
            | intros H; first [ reflexivity | intuition discriminate ] ]).
Qed.

End StringFacts.

(** ** Recipient canonical form *)

Section RecipientFacts.
Import Recipient.

Lemma looks_like_digest_spec r :
  looks_like_digest r = true <->
  String.length r = 64%nat /\
  Forall (fun c => In c (list_ascii_of_string "0123456789abcdefABCDEF"))
         (list_ascii_of_string r).
Proof.
  unfold looks_like_digest. rewrite test_class_repeat_spec.
  assert (E : Forall (fun c => is_hex_ci c = true) (list_ascii_of_string r) <->
              Forall (fun c => In c (list_ascii_of_string "0123456789abcdefABCDEF"))
                     (list_ascii_of_string r)).
  { rewrite !List.Forall_forall. split; intros H c Hc.
    - apply is_hex_ci_spec, H, Hc.
    - apply is_hex_ci_spec, H, Hc. }
  rewrite E. split; intros [H1 H2]; (split; [lia | exact H2]).
Qed.

Lemma restore_digest r : looks_like_digest r = true -> restore r = "[SHA256]" +:+ r.
Proof. intros H. unfold restore. rewrite H. reflexivity. Qed.

Lemma restore_other r : looks_like_digest r = false -> restore r = r.
Proof. intros H. unfold restore. rewrite H. reflexivity. Qed.

End RecipientFacts.

(** ** The replay guard of the monitor *)

Section MonitorFacts.
Import BridgeMonitor.

(** What the body of [processBridgeEvent] leaves when it ran to its end,
    and when it did not. *)
Lemma process_body_cases cfg w st event proof :
  let sig := BC.signature (BC.transaction proof) in
  let '(r, st', log) := process_body cfg w st event proof in
  hd_error log = Some (ValidatedGenesisProof proof) /\
  Forall (mint_called_with (Recipient.restore (BC.unicityRecipient event))) log /\
  match r with
  | Returns _ =>
      processedTransactions st' = {[ sig ]} ∪ processedTransactions st /\
      lastCheckedSlot st' = Math_max (lastCheckedSlot st) (BC.proof_slot proof) /\
      processedEvents st' = processedEvents st + 1 /\
      existsb is_mint_call log = true
  | Throws _ =>
      processedTransactions st' = processedTransactions st /\
      lastCheckedSlot st' = lastCheckedSlot st /\
      processedEvents st' = processedEvents st /\
      existsb is_mint_call log = false
  end.
Proof.
  unfold process_body.
  destruct (UnicityProofValidator.validateGenesisProof _ _ _ _ _) as [[gp|m] t'].
  2: { simpl. repeat split; repeat constructor. }
  destruct (UnicityProofValidator.validateCryptographicChain _ _) as [chainValid|m].
  2: { simpl. repeat split; repeat constructor. }
  destruct (SdkMint.mintBridgedTokenWithSDK _ _ _ _ _) as [mintResult effects].
  destruct (bool_decide _); destruct (_ =? 0); simpl;
    repeat split; repeat constructor.
Qed.

Lemma processBridgeEvent_skips cfg w st event proof :
  BC.signature (BC.transaction proof) ∈ processedTransactions st ->
  processBridgeEvent cfg w st event proof = (st, []).
Proof.
  intros H. unfold processBridgeEvent. rewrite bool_decide_eq_true_2 by exact H.
  reflexivity.
Qed.

Lemma processBridgeEvent_effects cfg w st event proof st' log :
  processBridgeEvent cfg w st event proof = (st', log) ->
  let sig := BC.signature (BC.transaction proof) in
  processedTransactions st ⊆ processedTransactions st' /\
  processedTransactions st' ⊆ {[ sig ]} ∪ processedTransactions st /\
  (sig ∉ processedTransactions st -> sig ∈ processedTransactions st' ->
   hd_error log = Some (ValidatedGenesisProof proof) /\
   existsb is_mint_call log = true) /\
  lastCheckedSlot st <= lastCheckedSlot st' /\
  Forall (mint_called_with (Recipient.restore (BC.unicityRecipient event))) log.
Proof.
  intros H. cbv zeta. unfold processBridgeEvent in H.
  set (sig := BC.signature (BC.transaction proof)) in *.
  destruct (bool_decide _) eqn:Hmem.
  { inversion H; subst.
    split_and!; [set_solver | set_solver | intros Hn Hin; contradiction | lia | constructor]. }
  apply bool_decide_eq_false in Hmem.
  destruct (BN_toNumber _).
  2: { inversion H; subst.
       split_and!; [set_solver | set_solver | intros Hn Hin; contradiction | lia | constructor]. }
  pose proof (process_body_cases cfg w st event proof) as Hb. simpl in Hb.
  destruct (process_body cfg w st event proof) as [[r st1] log1].
  inversion H; subst. destruct Hb as (Hhd & Hmint & Hr).
  destruct r as [[]|m].
  - destruct Hr as (Hset & Hl & _ & Hc). rewrite Hset, Hl. fold sig.
    split_and!;
      [apply union_subseteq_r | reflexivity | intros _ _; split; assumption
      | unfold Math_max; lia | exact Hmint].
  - destruct Hr as (Hset & Hl & _ & Hc). rewrite Hset, Hl.
    split_and!;
      [reflexivity | apply union_subseteq_r | intros Hn Hin; contradiction | lia | exact Hmint].
Qed.

(** C10. A lock event whose transaction signature is already in the
    processed-transaction set makes [processBridgeEvent] return at once:
    the state is unchanged and nothing was done, in particular no proof
    validation and no mint submission. In every call the set only grows,
    and only by the signature of the call; the signature enters the set
    only after a processing attempt (the proof was validated and the mint
    was called); [lastCheckedSlot] never decreases. Hence a second
    delivery of an event that was processed does nothing. *)
Theorem replay_guard cfg w st event proof :
  let sig := BC.signature (BC.transaction proof) in
  (sig ∈ processedTransactions st ->
   processBridgeEvent cfg w st event proof = (st, [])) /\
  (forall st' log, processBridgeEvent cfg w st event proof = (st', log) ->
     processedTransactions st ⊆ processedTransactions st' /\
     processedTransactions st' ⊆ {[ sig ]} ∪ processedTransactions st /\
     (sig ∉ processedTransactions st -> sig ∈ processedTransactions st' ->
      hd_error log = Some (ValidatedGenesisProof proof) /\
      existsb is_mint_call log = true) /\
     lastCheckedSlot st <= lastCheckedSlot st' /\
     (sig ∈ processedTransactions st' ->
      forall w2, processBridgeEvent cfg w2 st' event proof = (st', []))).
Proof.
  intros sig. split.
  - apply processBridgeEvent_skips.
  - intros st' log H.
    destruct (processBridgeEvent_effects _ _ _ _ _ _ _ H) as (H1 & H2 & H3 & H4 & _).
    repeat split; try assumption.
    + apply H3; assumption.
    + apply H3; assumption.
    + intros Hin w2. apply processBridgeEvent_skips. exact Hin.
Qed.

End MonitorFacts.

(** ** The confirmation oracle: [verifyBlockHash] *)

Section LightClientFacts.
Import Solana SolanaLightClient.

Lemma pending_ahead_is_pending h d : is_pending_message (pending_ahead h d) = true.
Proof. reflexivity. Qed.

Lemma pending_recent_is_pending h a : is_pending_message (pending_recent h a) = true.
Proof. reflexivity. Qed.

Lemma alternative_catch_cases m :
  (is_pending_message m = true /\ alternative_catch m = Throws m) \/
  (is_pending_message m = false /\ alternative_catch m = Returns false).
Proof.
  unfold alternative_catch, is_pending_message.
  destruct (truthy_string m && includes "VALIDATION_PENDING" m); [left | right]; auto.
Qed.

(** The alternative validation when the finalized slot is known. *)
Lemma alternative_validation_known rpc trusted blockHash blockHeight currentSlot :
  getSlot rpc = Returns currentSlot ->
  alternative_validation rpc trusted blockHash blockHeight =
    if negb (format_valid blockHash) then (Returns false, trusted)
    else if currentSlot - blockHeight <? 0 then
      (Throws (pending_ahead blockHeight (Math_abs (currentSlot - blockHeight))), trusted)
    else if currentSlot - blockHeight <? 10 then
      (Throws (pending_recent blockHeight (currentSlot - blockHeight)), trusted)
    else (Returns true, addTrustedBlockHash trusted blockHash).
Proof.
  intros Hslot. unfold alternative_validation, alternative_body, format_valid.
  rewrite Hslot.
  destruct (negb _); [reflexivity|].
  destruct (_ <? 0); [reflexivity|].
  destruct (_ <? 10); reflexivity.
Qed.

Lemma verifyBlockHash_unavailable rpc trusted blockHash blockHeight :
  lookup_unavailable rpc blockHeight ->
  verifyBlockHash rpc trusted blockHash blockHeight =
  alternative_validation rpc trusted blockHash blockHeight.
Proof.
  unfold lookup_unavailable, verifyBlockHash.
  destruct (getBlock rpc blockHeight) as [[b|]|m]; [contradiction | reflexivity | reflexivity].
Qed.

(** [verifyBlockHash] answers [true], answers [false], or throws the
    VALIDATION_PENDING signal; it throws nothing else. *)
Lemma verifyBlockHash_outcomes rpc trusted blockHash blockHeight :
  let r := fst (verifyBlockHash rpc trusted blockHash blockHeight) in
  r = Returns true \/ r = Returns false \/
  (exists m, r = Throws m /\ is_pending_message m = true).
Proof.
  unfold verifyBlockHash.
  assert (Halt : let r := fst (alternative_validation rpc trusted blockHash blockHeight) in
                 r = Returns true \/ r = Returns false \/
                 (exists m, r = Throws m /\ is_pending_message m = true)).
  { unfold alternative_validation, alternative_body.
    destruct (negb _); simpl; [auto|].
    destruct (getSlot rpc) as [cur|m]; simpl.
    - destruct (_ <? 0); simpl; [right; right; eexists; split; reflexivity|].
      destruct (_ <? 10); simpl; [right; right; eexists; split; reflexivity | auto].
    - destruct (alternative_catch_cases m) as [[Hp ->] | [Hp ->]]; [|auto].
      right; right. exists m. auto. }
  destruct (getBlock rpc blockHeight) as [[b|]|m]; try exact Halt.
  simpl. destruct (String.eqb _ _); auto.
Qed.

(** C4 (as amended). In the fallback path of [verifyBlockHash] (the direct
    lookup gave no block) with the finalized slot known and
    [blockAge = currentSlot - blockHeight]: a hash that is not format-valid
    gives [false] whatever the age; a format-valid hash gives the
    VALIDATION_PENDING signal for every [blockAge < 10] (negative ages
    included) and the boolean [true], with the hash added to the trusted
    set, for every [blockAge >= 10]. The three results exclude each other and
    one of them occurs; the trusted set changes only on acceptance. *)
Theorem fallback_outcomes rpc trusted blockHash blockHeight currentSlot :
  lookup_unavailable rpc blockHeight ->
  getSlot rpc = Returns currentSlot ->
  let blockAge := currentSlot - blockHeight in
  let r := verifyBlockHash rpc trusted blockHash blockHeight in
  (is_pending (fst r) = true <-> format_valid blockHash = true /\ blockAge < 10) /\
  (fst r = Returns true <-> format_valid blockHash = true /\ 10 <= blockAge) /\
  (fst r = Returns false <-> format_valid blockHash = false) /\
  (is_pending (fst r) = true \/ fst r = Returns true \/ fst r = Returns false) /\
  snd r = (if is_returns (fst r) && format_valid blockHash
           then addTrustedBlockHash trusted blockHash else trusted).
Proof.
  intros Hun Hslot. cbv zeta.
  rewrite (verifyBlockHash_unavailable _ _ _ _ Hun).
  rewrite (alternative_validation_known _ _ _ _ _ Hslot).
  destruct (format_valid blockHash); simpl.
  - destruct (Z.ltb_spec (currentSlot - blockHeight) 0).
    { simpl. split_and!; try (split; [intros; split; [reflexivity | lia] | reflexivity]);
        try (split; [discriminate | intros [_ ?]; lia]);
        try (split; discriminate); auto. }
    destruct (Z.ltb_spec (currentSlot - blockHeight) 10).
    { simpl. split_and!; try (split; [intros; split; [reflexivity | lia] | reflexivity]);
        try (split; [discriminate | intros [_ ?]; lia]);
        try (split; discriminate); auto. }
    simpl. split_and!; try (split; [discriminate | intros [_ ?]; lia]);
      try (split; [intros; split; [reflexivity | lia] | reflexivity]);
      try (split; discriminate); auto.
  - split_and!; try (split; [discriminate | intros [? _]; discriminate]);
      try (split; reflexivity); auto.
Qed.

End LightClientFacts.

Section LightClientScenarios.
Import Solana SolanaLightClient Samples.

(** C4, counterexample to the claim as written: in the fallback path with
    [blockAge = 95 - 100 = -5] and the empty hash that the proof builder
    leaves when it cannot fetch the block, the result is the boolean
    [false], not the VALIDATION_PENDING signal. *)
Lemma fallback_negative_age_not_pending :
  let r := verifyBlockHash rpc_ahead ∅ "" 100 in
  lookup_unavailable rpc_ahead 100 /\
  getSlot rpc_ahead = Returns 95 /\
  95 - 100 < 0 /\
  is_pending (fst r) = false /\
  fst r = Returns false.
Proof. vm_compute. repeat split; reflexivity. Qed.

(** A block that is no longer served but is 50 slots old is accepted. *)
Lemma fallback_outcomes_witness :
  lookup_unavailable rpc_aged 100 /\
  getSlot rpc_aged = Returns 150 /\
  fst (verifyBlockHash rpc_aged ∅ block_hash 100) = Returns true.
Proof.
  assert (H1 : lookup_unavailable rpc_aged 100) by exact I.
  assert (H2 : getSlot rpc_aged = Returns 150) by reflexivity.
  split; [exact H1 | split; [exact H2 |]].
  apply (proj2 (proj1 (proj2 (fallback_outcomes rpc_aged ∅ block_hash 100 150 H1 H2)))).
  split; [vm_compute; reflexivity | lia].
Defined.

End LightClientScenarios.

(** ** The proof validator: [validateGenesisProof] *)

Section ProofValidatorFacts.
Import Solana SolanaLightClient UnicityProofValidator.

Lemma verify_block_step_trusted rpc trusted proof :
  snd (verify_block_step rpc trusted proof) =
  snd (verifyBlockHash rpc trusted (BC.blockHash proof) (BC.blockHeight proof)).
Proof.
  unfold verify_block_step. destruct (verifyBlockHash _ _ _ _); reflexivity.
Qed.

(** The block-verification step after each result of [verifyBlockHash]. *)
Lemma verify_block_step_cases rpc trusted proof :
  let v := fst (verifyBlockHash rpc trusted (BC.blockHash proof) (BC.blockHeight proof)) in
  let s := fst (verify_block_step rpc trusted proof) in
  (v = Returns true -> s = Returns true) /\
  (v = Returns false -> s = Throws "Block hash verification failed") /\
  (forall m, v = Throws m -> is_pending_message m = true -> s = Returns false).
Proof.
  unfold verify_block_step.
  destruct (verifyBlockHash _ _ _ _) as [v t]. simpl.
  split_and!.
  - intros ->. reflexivity.
  - intros ->. reflexivity.
  - intros m -> Hp. simpl. unfold is_pending_message in Hp. rewrite Hp. reflexivity.
Qed.

(** How [validateGenesisProof] ends, step by step. *)
Lemma validateGenesisProof_unfold rpc pid now trusted proof :
  fst (validateGenesisProof rpc pid now trusted proof) =
  (_ ← validateLockEvent (BC.event proof);
   blockVerified ← fst (verify_block_step rpc trusted proof);
   _ ← (if blockVerified && verify_status_step proof
        then validateTransactionExists rpc pid (BC.signature (BC.transaction proof))
        else Returns tt);
   Returns (build_genesisProof now proof blockVerified (verify_status_step proof))).
Proof.
  unfold validateGenesisProof.
  destruct (validateLockEvent _); [|reflexivity].
  destruct (verify_block_step _ _ _) as [[b|m] t]; [|reflexivity].
  simpl. destruct (if b && _ then _ else _); reflexivity.
Qed.

Lemma build_genesisProof_status now proof b s :
  let v := Genesis.validation (build_genesisProof now proof b s) in
  Genesis.blockVerified v = b /\
  Genesis.signatureStatusVerified v = s /\
  Genesis.status v = (if b then None else Some "PENDING_VALIDATION") /\
  Genesis.reason v =
    (if b then None
     else Some ("Block " +:+ toString (BC.blockHeight proof) +:+
                " too recent for RPC validation")).
Proof. destruct b; repeat split; reflexivity. Qed.

(** Every genesis proof that [validateGenesisProof] returns was built from
    the two flags of the run. *)
Lemma validateGenesisProof_returns rpc pid now trusted proof gp :
  fst (validateGenesisProof rpc pid now trusted proof) = Returns gp ->
  exists b,
    fst (verify_block_step rpc trusted proof) = Returns b /\
    gp = build_genesisProof now proof b (verify_status_step proof).
Proof.
  rewrite validateGenesisProof_unfold.
  destruct (validateLockEvent _); [|discriminate].
  destruct (fst (verify_block_step _ _ _)) as [b|m]; [|discriminate].
  simpl. destruct (if b && _ then _ else _); [|discriminate].
  simpl. intros [= <-]. exists b. split; reflexivity.
Qed.

(** C3 (as amended). [validateGenesisProof] returns a genesis proof when
    the block verification is pending, and when it succeeds provided the
    transaction-existence check that follows does not fail. In every
    returned proof, [validation.status] is "PENDING_VALIDATION" exactly
    when [blockVerified] is false, and then a reason string is set; when
    [blockVerified] is true the object has no [status] and no [reason]
    property (the word "VALIDATED" is only logged). *)
Theorem genesis_status_classification rpc pid now trusted proof :
  (forall gp, fst (validateGenesisProof rpc pid now trusted proof) = Returns gp ->
     let v := Genesis.validation gp in
     (Genesis.status v = Some "PENDING_VALIDATION" <-> Genesis.blockVerified v = false) /\
     (Genesis.blockVerified v = true -> Genesis.status v = None /\ Genesis.reason v = None) /\
     (Genesis.blockVerified v = false -> exists text, Genesis.reason v = Some text)) /\
  (forall b,
     validateLockEvent (BC.event proof) = Returns tt ->
     fst (verify_block_step rpc trusted proof) = Returns b ->
     (b && verify_status_step proof = true ->
      validateTransactionExists rpc pid (BC.signature (BC.transaction proof)) = Returns tt) ->
     exists gp,
       fst (validateGenesisProof rpc pid now trusted proof) = Returns gp /\
       Genesis.blockVerified (Genesis.validation gp) = b).
Proof.
  split.
  - intros gp Hgp. apply validateGenesisProof_returns in Hgp as (b & _ & ->).
    destruct (build_genesisProof_status now proof b (verify_status_step proof))
      as (Hb & _ & Hs & Hr).
    cbv zeta. rewrite Hb, Hs, Hr. destruct b; split_and!.
    + split; discriminate.
    + auto.
    + discriminate.
    + split; reflexivity.
    + discriminate.
    + intros _. eexists. reflexivity.
  - intros b Hev Hb Hex. rewrite validateGenesisProof_unfold, Hev, Hb. simpl.
    destruct (b && verify_status_step proof) eqn:E.
    + rewrite (Hex eq_refl). simpl. eexists. split; [reflexivity|].
      apply build_genesisProof_status.
    + simpl. eexists. split; [reflexivity|]. apply build_genesisProof_status.
Qed.

(** C5. The block-verification step of [validateGenesisProof] has three
    outcomes, one for each result of [verifyBlockHash], which has no other
    result: [true] sets [blockVerified] to true and goes on; [false] throws
    "Block hash verification failed" and no genesis proof is returned; the
    VALIDATION_PENDING signal is caught, [blockVerified] is false, and for a
    well-formed lock event a genesis proof is returned, with
    [blockVerified = false] and status "PENDING_VALIDATION". *)
Theorem block_verification_outcomes rpc pid now trusted proof :
  let v := fst (verifyBlockHash rpc trusted (BC.blockHash proof) (BC.blockHeight proof)) in
  let step := fst (verify_block_step rpc trusted proof) in
  let result := fst (validateGenesisProof rpc pid now trusted proof) in
  (v = Returns true \/ v = Returns false \/
   exists m, v = Throws m /\ is_pending_message m = true) /\
  (v = Returns true -> step = Returns true) /\
  (v = Returns false ->
   step = Throws "Block hash verification failed" /\ is_returns result = false) /\
  (forall m, v = Throws m ->
     step = Returns false /\
     (validateLockEvent (BC.event proof) = Returns tt ->
      exists gp, result = Returns gp /\
        Genesis.blockVerified (Genesis.validation gp) = false /\
        Genesis.status (Genesis.validation gp) = Some "PENDING_VALIDATION")).
Proof.
  cbv zeta.
  pose proof (verifyBlockHash_outcomes rpc trusted (BC.blockHash proof) (BC.blockHeight proof))
    as Hout.
  destruct (verify_block_step_cases rpc trusted proof) as (Ht & Hf & Hp).
  cbv zeta in Hout. split_and!.
  - exact Hout.
  - exact Ht.
  - intros Hv. split; [exact (Hf Hv)|].
    rewrite validateGenesisProof_unfold, (Hf Hv).
    destruct (validateLockEvent _); reflexivity.
  - intros m Hv.
    assert (Hm : is_pending_message m = true).
    { destruct Hout as [H|[H|(m' & H & Hm')]]; rewrite Hv in H;
        [discriminate | discriminate | congruence]. }
    pose proof (Hp m Hv Hm) as Hstep. split; [exact Hstep|].
    intros Hev. rewrite validateGenesisProof_unfold, Hev, Hstep. simpl.
    eexists. split; [reflexivity|]. split; reflexivity.
Qed.

(** The values of [confirmationStatus] that [verifySignatureStatus]
    accepts. *)
Lemma valid_status_spec cs :
  existsb (String.eqb cs) ["processed"; "confirmed"; "finalized"] = true <->
  cs = "processed" \/ cs = "confirmed" \/ cs = "finalized".
Proof.
  simpl. rewrite !orb_true_iff, !String.eqb_eq. intuition discriminate.
Qed.


(** C7 (as amended). [validateCryptographicChain] never throws: it returns
    a boolean. It returns [true] only if the signature status that it
    queries exists and has no error. With such a status: without embedded
    transaction data it returns [true]; with embedded data whose
    signature list does not start with the claimed signature it returns
    [false] (the "Transaction signature mismatch" error is caught inside
    the function); otherwise it returns [true] exactly when the stored
    [confirmationStatus] is confirmed or finalized. *)
Theorem cryptographic_chain rpc gp :
  let stx := Genesis.solanaTransaction gp in
  let queried := getSignatureStatuses rpc (Genesis.signature stx) in
  let mismatch :=
    exists txData body sigs,
      Genesis.transaction stx = Some txData /\
      Solana.transaction txData = Some body /\
      signatures body = Some sigs /\
      head sigs <> Some (Genesis.signature stx) in
  (exists b, validateCryptographicChain rpc gp = Returns b) /\
  (validateCryptographicChain rpc gp = Returns true ->
   exists st, queried = Returns (Some st) /\ err st = None) /\
  (forall st, queried = Returns (Some st) -> err st = None ->
     (Genesis.transaction stx = None -> validateCryptographicChain rpc gp = Returns true) /\
     (mismatch -> validateCryptographicChain rpc gp = Returns false) /\
     (Genesis.transaction stx <> None -> ~ mismatch ->
      (validateCryptographicChain rpc gp = Returns true <->
       Genesis.confirmationStatus stx = "confirmed" \/
       Genesis.confirmationStatus stx = "finalized"))).
Proof.
  cbv zeta. unfold validateCryptographicChain, validateCryptographicChain_body.
  destruct (getSignatureStatuses rpc _) as [[st|]|m]; simpl.
  2: { split_and!; [eexists; reflexivity | discriminate | intros ? [=]]. }
  2: { split_and!; [eexists; reflexivity | discriminate | intros ? [=]]. }
  destruct (err st) as [e|] eqn:Ee; simpl.
  { split_and!; [eexists; reflexivity | discriminate |].
    intros st' [= <-] H. congruence. }
  assert (Hstatus :
    try_catch
      (if String.eqb (Genesis.confirmationStatus (Genesis.solanaTransaction gp)) "finalized" ||
          String.eqb (Genesis.confirmationStatus (Genesis.solanaTransaction gp)) "confirmed"
       then Returns true else Returns false) (fun _ : string => Returns false)
    = Returns true <->
    Genesis.confirmationStatus (Genesis.solanaTransaction gp) = "confirmed" \/
    Genesis.confirmationStatus (Genesis.solanaTransaction gp) = "finalized").
  { destruct (String.eqb_spec
                (Genesis.confirmationStatus (Genesis.solanaTransaction gp)) "finalized") as [->|Hf];
      simpl; [split; auto|].
    destruct (String.eqb_spec
                (Genesis.confirmationStatus (Genesis.solanaTransaction gp)) "confirmed") as [->|Hc];
      simpl; [split; auto|].
    split; [discriminate | intros [?|?]; contradiction]. }
  destruct (Genesis.transaction (Genesis.solanaTransaction gp)) as [txData|]; simpl.
  2: { split_and!; [eexists; reflexivity | intros _; exists st; split; [reflexivity | exact Ee] |].
       intros st' _ _. split_and!; [reflexivity | | congruence].
       intros (? & ? & ? & [=] & _). }
  destruct (Solana.transaction txData) as [body|] eqn:Ebody; simpl.
  2: { split_and!.
       - destruct (_ || _); eexists; reflexivity.
       - intros _. exists st. split; [reflexivity | exact Ee].
       - intros st' _ _. split_and!; [discriminate | | intros _ _; exact Hstatus].
         intros (? & ? & ? & [= <-] & H & _). congruence. }
  destruct (signatures body) as [sigs|] eqn:Esigs; simpl.
  2: { split_and!.
       - destruct (_ || _); eexists; reflexivity.
       - intros _. exists st. split; [reflexivity | exact Ee].
       - intros st' _ _. split_and!; [discriminate | | intros _ _; exact Hstatus].
         intros (? & ? & ? & [= <-] & Hb & H & _). congruence. }
  destruct (bool_decide_reflect
              (head sigs = Some (Genesis.signature (Genesis.solanaTransaction gp)))) as [Heq|Hne];
    simpl.
  - split_and!.
    + destruct (_ || _); eexists; reflexivity.
    + intros _. exists st. split; [reflexivity | exact Ee].
    + intros st' _ _. split_and!; [discriminate | | intros _ _; exact Hstatus].
      intros (? & ? & ? & [= <-] & Hb & H & Hn). congruence.
  - split_and!.
    + eexists; reflexivity.
    + discriminate.
    + intros st' _ _. split_and!; [discriminate | reflexivity |].
      intros _ Hno. exfalso. apply Hno. exists txData, body, sigs. auto.
Qed.

End ProofValidatorFacts.

Section ProofValidatorScenarios.
Import Solana SolanaLightClient UnicityProofValidator Samples.

(** C3, counterexample to the claim as written: the block is verified
    ([blockVerified = true]) and the returned proof has no [status]
    property at all, so the field does not equal "VALIDATED". *)
Lemma validated_proof_has_no_status :
  let gp := genesis_validated in
  fst (validateGenesisProof rpc_finalized CompleteDemo.bridgeProgramId 0 ∅ proof_data)
    = Returns gp /\
  Genesis.blockVerified (Genesis.validation gp) = true /\
  Genesis.status (Genesis.validation gp) = None /\
  Genesis.status (Genesis.validation gp) <> Some "VALIDATED".
Proof. split_and!; [vm_compute; reflexivity | reflexivity | reflexivity | discriminate]. Qed.

(** A block ahead of the finalized slot still gives a genesis proof. *)
Lemma genesis_status_classification_witness :
  exists gp,
    fst (validateGenesisProof rpc_ahead CompleteDemo.bridgeProgramId 0 ∅ proof_data)
      = Returns gp /\
    Genesis.blockVerified (Genesis.validation gp) = false.
Proof.
  apply (proj2 (genesis_status_classification
                  rpc_ahead CompleteDemo.bridgeProgramId 0 ∅ proof_data) false).
  - reflexivity.
  - vm_compute. reflexivity.
  - simpl. discriminate.
Defined.

(** Scenario C: the block is 5 slots ahead of the finalized slot. *)
Lemma block_verification_outcomes_witness :
  exists gp,
    fst (validateGenesisProof rpc_ahead CompleteDemo.bridgeProgramId 0 ∅ proof_data)
      = Returns gp /\
    Genesis.blockVerified (Genesis.validation gp) = false /\
    Genesis.status (Genesis.validation gp) = Some "PENDING_VALIDATION".
Proof.
  refine (proj2 (proj2 (proj2 (proj2 (block_verification_outcomes
            rpc_ahead CompleteDemo.bridgeProgramId 0 ∅ proof_data)))
            (pending_ahead 100 5) _) _).
  - vm_compute. reflexivity.
  - reflexivity.
Defined.

(** Scenario C in the monitor: the mint is called and the commitment is
    submitted; the transaction is recorded as processed. *)
Example scenario_C_mint_proceeds :
  let '(st', log) :=
    BridgeMonitor.processBridgeEvent config (world rpc_ahead) fresh_state
      lock_event proof_data in
  existsb (fun a => match a with
                    | BridgeMonitor.CalledMint gp _ (SdkMint.Submitted _ :: _) =>
                        bool_decide (Genesis.status (Genesis.validation gp)
                                     = Some "PENDING_VALIDATION")
                    | _ => false
                    end) log = true /\
  bool_decide (tx_signature ∈ BridgeMonitor.processedTransactions st') = true.
Proof. vm_compute. split; reflexivity. Qed.



(** C7, counterexample to the claim as written: the embedded transaction
    carries another primary signature than the claimed one; the mismatch
    error is thrown and caught inside the function, which returns [false]
    to its caller instead of raising. *)
Lemma signature_mismatch_not_raised :
  head ["3mismatch"] <> Some tx_signature /\
  validateCryptographicChain_body rpc_finalized genesis_mismatch
    = Throws "Transaction signature mismatch" /\
  validateCryptographicChain rpc_finalized genesis_mismatch = Returns false.
Proof. split_and!; [discriminate | vm_compute; reflexivity | vm_compute; reflexivity]. Qed.

(** A chain that validates was checked against an error-free status. *)
Lemma cryptographic_chain_witness :
  exists st,
    getSignatureStatuses rpc_finalized tx_signature = Returns (Some st) /\ err st = None.
Proof.
  apply (proj1 (proj2 (cryptographic_chain rpc_finalized genesis_validated))).
  vm_compute. reflexivity.
Defined.

End ProofValidatorScenarios.

Section MonitorScenarios.
Import BridgeMonitor Samples.

(** The monitor that has seen the sample transaction skips it. *)
Lemma replay_guard_witness :
  processBridgeEvent config (world rpc_finalized) seen_state lock_event proof_data
  = (seen_state, []).
Proof.
  assert (H : tx_signature ∈ ({[ tx_signature ]} : gset string))
    by (apply elem_of_singleton_2; reflexivity).
  exact (proj1 (replay_guard config (world rpc_finalized) seen_state lock_event proof_data) H).
Defined.

(** Scenario B: the same event delivered twice. The first delivery
    validates and mints, the second one does nothing. *)
Example scenario_B_second_delivery :
  let first :=
    processBridgeEvent config (world rpc_finalized) fresh_state lock_event proof_data in
  existsb is_mint_call (snd first) = true /\
  snd (processBridgeEvent config (world rpc_finalized) (fst first) lock_event proof_data) = [].
Proof. vm_compute. split; reflexivity. Qed.

End MonitorScenarios.

(** ** The recipient passed to the mint *)

Section RecipientPassing.
Import Recipient.

Lemma processEvent_mint_calls rpc sdk now outputDir trusted event proof :
  Forall (CompleteDemo.mint_called_with (restore (BridgeClient.unicityRecipient event)))
         (snd (CompleteDemo.processEvent rpc sdk now outputDir trusted event proof)).
Proof.
  unfold CompleteDemo.processEvent.
  destruct (UnicityProofValidator.validateGenesisProof _ _ _ _ _) as [[gp|m] t'].
  2: { repeat constructor. }
  destruct (UnicityProofValidator.validateCryptographicChain _ _) as [[|]|m];
    [| repeat constructor | repeat constructor].
  simpl. destruct (CompleteDemo.mintBridgedTokens _ _ _ _) as [[r|m] effects].
  - repeat constructor.
  - destruct (_ || _); repeat constructor.
Qed.

(** [validateCryptographicChain] catches every error of its body. *)
Lemma chain_never_throws rpc gp :
  exists b, UnicityProofValidator.validateCryptographicChain rpc gp = Returns b.
Proof.
  unfold UnicityProofValidator.validateCryptographicChain.
  destruct (UnicityProofValidator.validateCryptographicChain_body rpc gp) as [b|m]; eexists; reflexivity.
Qed.

(** When the monitor reaches the mint, the call is in its actions: the
    validated proof, the restored recipient, the effects of that mint. *)
Lemma processBridgeEvent_calls_mint cfg w st event proof gp :
  BridgeClient.signature (BridgeClient.transaction proof)
    ∉ BridgeMonitor.processedTransactions st ->
  Z.abs (BridgeClient.amount event) < 2 ^ 53 ->
  fst (UnicityProofValidator.validateGenesisProof (BridgeMonitor.rpc w)
         (BridgeMonitor.bridgeProgramId cfg) (BridgeMonitor.now w)
         (BridgeMonitor.trustedBlockHashes st) proof) = Returns gp ->
  let key := restore (BridgeClient.unicityRecipient event) in
  In (BridgeMonitor.CalledMint gp key
        (snd (SdkMint.mintBridgedTokenWithSDK (BridgeMonitor.sdk w) gp key
                (BridgeMonitor.outputDir cfg) (BridgeMonitor.bridgeProgramId cfg))))
     (snd (BridgeMonitor.processBridgeEvent cfg w st event proof)).
Proof.
  intros Hnew Hamount Hgp key. unfold BridgeMonitor.processBridgeEvent.
  rewrite bool_decide_eq_false_2 by exact Hnew.
  unfold BridgeMonitor.BN_toNumber.
  destruct (Z.ltb_spec (Z.abs (BridgeClient.amount event)) (2 ^ 53)) as [_|Hge]; [|lia].
  unfold BridgeMonitor.process_body.
  destruct (UnicityProofValidator.validateGenesisProof _ _ _ _ _) as [validated trusted'].
  cbn [fst] in Hgp. subst validated.
  destruct (chain_never_throws (BridgeMonitor.rpc w) gp) as [b ->].
  fold key.
  destruct (SdkMint.mintBridgedTokenWithSDK _ _ _ _ _) as [mintResult effects].
  cbn [snd].
  destruct (bool_decide _); destruct (_ =? 0); cbn [snd];
    rewrite ?in_app_iff; cbn [In]; tauto.
Qed.

(** The same for the demo flow, which mints only when the chain
    validation answers [true]. *)
Lemma processEvent_calls_mint rpc sdk now outputDir trusted event proof gp :
  fst (UnicityProofValidator.validateGenesisProof rpc CompleteDemo.bridgeProgramId now
         trusted proof) = Returns gp ->
  UnicityProofValidator.validateCryptographicChain rpc gp = Returns true ->
  let key := restore (BridgeClient.unicityRecipient event) in
  In (CompleteDemo.CalledMint gp key
        (snd (CompleteDemo.mintBridgedTokens sdk outputDir gp key)))
     (snd (CompleteDemo.processEvent rpc sdk now outputDir trusted event proof)).
Proof.
  intros Hgp Hchain key. unfold CompleteDemo.processEvent.
  destruct (UnicityProofValidator.validateGenesisProof _ _ _ _ _) as [validated trusted'].
  cbn [fst] in Hgp. subst validated. rewrite Hchain. cbn [negb]. fold key.
  destruct (CompleteDemo.mintBridgedTokens _ _ _ _) as [[r|m] effects]; cbn [snd].
  - rewrite ?in_app_iff; cbn [In]; tauto.
  - destruct (_ || _); cbn [snd]; rewrite ?in_app_iff; cbn [In]; tauto.
Qed.

(** C8. A recipient matches [/^[a-f0-9]{64}$/i] exactly when it is 64
    characters long and made of hexadecimal digits; for such a recipient
    the value computed before minting is "[SHA256]" followed by the
    recipient, for any other recipient it is the recipient unchanged; and
    every call of the mint made by [processBridgeEvent] of the monitor and
    by [processEvent] of the demo flow receives that value as the minter
    key (the target-network recipient). The call is made: the monitor,
    for a transaction it has not processed, an amount below 2^53 in
    absolute value and a proof that [validateGenesisProof] accepts, calls
    the mint with the validated proof and the restored recipient; the demo
    flow does so when moreover the chain validation answers [true]. *)
Theorem recipient_restored cfg w st rpc sdk now outputDir trusted event proof :
  let r := BridgeClient.unicityRecipient event in
  (looks_like_digest r = true <->
   String.length r = 64%nat /\
   Forall (fun c => In c (list_ascii_of_string "0123456789abcdefABCDEF"))
          (list_ascii_of_string r)) /\
  (looks_like_digest r = true -> restore r = "[SHA256]" +:+ r) /\
  (looks_like_digest r = false -> restore r = r) /\
  Forall (BridgeMonitor.mint_called_with (restore r))
         (snd (BridgeMonitor.processBridgeEvent cfg w st event proof)) /\
  Forall (CompleteDemo.mint_called_with (restore r))
         (snd (CompleteDemo.processEvent rpc sdk now outputDir trusted event proof)) /\
  (forall gp,
     BridgeClient.signature (BridgeClient.transaction proof)
       ∉ BridgeMonitor.processedTransactions st ->
     Z.abs (BridgeClient.amount event) < 2 ^ 53 ->
     fst (UnicityProofValidator.validateGenesisProof (BridgeMonitor.rpc w)
            (BridgeMonitor.bridgeProgramId cfg) (BridgeMonitor.now w)
            (BridgeMonitor.trustedBlockHashes st) proof) = Returns gp ->
     In (BridgeMonitor.CalledMint gp (restore r)
           (snd (SdkMint.mintBridgedTokenWithSDK (BridgeMonitor.sdk w) gp (restore r)
                   (BridgeMonitor.outputDir cfg) (BridgeMonitor.bridgeProgramId cfg))))
        (snd (BridgeMonitor.processBridgeEvent cfg w st event proof))) /\
  (forall gp,
     fst (UnicityProofValidator.validateGenesisProof rpc CompleteDemo.bridgeProgramId now
            trusted proof) = Returns gp ->
     UnicityProofValidator.validateCryptographicChain rpc gp = Returns true ->
     In (CompleteDemo.CalledMint gp (restore r)
           (snd (CompleteDemo.mintBridgedTokens sdk outputDir gp (restore r))))
        (snd (CompleteDemo.processEvent rpc sdk now outputDir trusted event proof))).
Proof.
  cbv zeta. split_and!.
  - apply looks_like_digest_spec.
  - apply restore_digest.
  - apply restore_other.
  - destruct (BridgeMonitor.processBridgeEvent cfg w st event proof) as [st' log] eqn:E.
    apply processBridgeEvent_effects in E. apply E.
  - apply processEvent_mint_calls.
  - intros gp Hnew Hamount Hgp. now apply processBridgeEvent_calls_mint.
  - intros gp Hgp Hchain. now apply processEvent_calls_mint.
Qed.

(** Scenario A: the 64-hex-character recipient is restored to its tagged
    form, and the monitor and the demo flow call the mint with it. *)
Lemma recipient_restored_witness :
  restore Samples.digest_recipient = "[SHA256]" +:+ Samples.digest_recipient /\
  In (BridgeMonitor.CalledMint Samples.genesis_validated (restore Samples.digest_recipient)
        (snd (SdkMint.mintBridgedTokenWithSDK Samples.sdk_accepting
                Samples.genesis_validated (restore Samples.digest_recipient)
                "demo-output" CompleteDemo.bridgeProgramId)))
     (snd (BridgeMonitor.processBridgeEvent Samples.config
             (Samples.world Samples.rpc_finalized) Samples.fresh_state
             Samples.lock_event Samples.proof_data)) /\
  In (CompleteDemo.CalledMint Samples.genesis_validated (restore Samples.digest_recipient)
        (snd (CompleteDemo.mintBridgedTokens Samples.sdk_accepting "output"
                Samples.genesis_validated (restore Samples.digest_recipient))))
     (snd (CompleteDemo.processEvent Samples.rpc_finalized Samples.sdk_accepting 0
             "output" ∅ Samples.lock_event Samples.proof_data)).
Proof.
  destruct (recipient_restored Samples.config (Samples.world Samples.rpc_finalized)
              Samples.fresh_state Samples.rpc_finalized Samples.sdk_accepting 0 "output" ∅
              Samples.lock_event Samples.proof_data)
    as (_ & Hdigest & _ & _ & _ & Hmonitor & Hdemo).
  split_and!.
  - apply Hdigest. vm_compute. reflexivity.
  - apply Hmonitor.
    + apply not_elem_of_empty.
    + vm_compute. reflexivity.
    + vm_compute. reflexivity.
  - apply Hdemo.
    + vm_compute. reflexivity.
    + vm_compute. reflexivity.
Defined.

Example scenario_A_mint_key :
  existsb (fun a => match a with
                    | BridgeMonitor.CalledMint _ key _ =>
                        String.eqb key ("[SHA256]" +:+ Samples.digest_recipient)
                    | _ => false
                    end)
    (snd (BridgeMonitor.processBridgeEvent Samples.config
            (Samples.world Samples.rpc_finalized) Samples.fresh_state
            Samples.lock_event Samples.proof_data)) = true.
Proof. vm_compute. reflexivity. Qed.

End RecipientPassing.

(** ** The minted token against the independent verifier *)

Section MintedTokenFacts.
Import SdkMint UnicityTokenValidator.

(** The mint writes the token built from its own derivations. *)
Lemma written_token_of_mint sdk proof minterPublicKey outputDir bridgeProgramId token :
  written_token (snd (mintBridgedTokenWithSDK sdk proof minterPublicKey outputDir
                        bridgeProgramId)) = Some token ->
  Token.tokenData (Token.genesis_data token) = Token.Encoded (tokenData proof) /\
  Token.tokenId (Token.genesis_data token) = toHex (tokenIdHash proof).
Proof.
  unfold mintBridgedTokenWithSDK.
  destruct (loadUnicityWallet sdk) as [wallet|]; [|discriminate].
  destruct (negb _); [discriminate|].
  destruct (BigInt _) as [amount|]; [|discriminate].
  destruct (directAddress _ _ _ _) as [recipient|]; [|discriminate].
  destruct (submitMintTransaction _ _) as [c|]; [|discriminate].
  destruct (_ ← waitInclusionProof sdk c; createTransaction sdk c); [|discriminate].
  simpl. intros [= <-]. split; reflexivity.
Qed.

(** The payload of the mint is the three-field object of the source. *)
Lemma tokenData_fields proof :
  tokenData proof =
  {| Token.bridgeType := "SOLANA_BRIDGE";
     Token.lockEvent := Genesis.lockEvent proof;
     Token.solanaTransaction := Genesis.solanaTransaction proof;
     Token.minterSignature := None |}.
Proof. unfold tokenData. destruct (Genesis.solanaTransaction proof). reflexivity. Qed.

(** C2. The token written by [mintBridgedTokenWithSDK] carries a payload
    with exactly the fields [bridgeType], [lockEvent] and
    [solanaTransaction] of the proof and no [minterSignature]. Hence
    [validateToken] on a file that holds such a token always answers
    [valid = false] and records no result of a check that comes after the
    test for the presence of the minter signature. It ends at that test,
    with the failed "Minter Signature" result last, exactly when the token
    factory accepts the file, the six fields of the lock event are
    non-empty and the transaction signature is 87 or 88 base-58
    characters; the verdict is then "Missing mandatory minter signature
    field". Otherwise it ends before the test: with the message of the
    factory when the factory rejects the file, and else with "Inconsistent
    Solana locking proof" at the first of the checks "Lock Event",
    "Solana Anchor" and "Transaction Signature" that fails. *)
Theorem minted_token_rejected sdk proof minterPublicKey outputDir bridgeProgramId token :
  written_token (snd (mintBridgedTokenWithSDK sdk proof minterPublicKey outputDir
                        bridgeProgramId)) = Some token ->
  Token.tokenData (Token.genesis_data token) =
    Token.Encoded {| Token.bridgeType := "SOLANA_BRIDGE";
                     Token.lockEvent := Genesis.lockEvent proof;
                     Token.solanaTransaction := Genesis.solanaTransaction proof;
                     Token.minterSignature := None |} /\
  forall w tokenFilePath,
    readToken w tokenFilePath = Some (Returns token) ->
    let verdict := fst (validateToken w tokenFilePath) in
    let results := snd (validateToken w tokenFilePath) in
    let lock := Genesis.lockEvent proof in
    let signature := Genesis.signature (Genesis.solanaTransaction proof) in
    let fields :=
      truthy_string (Genesis.lockId lock) && truthy_string (Genesis.user lock) &&
      truthy_string (Genesis.amount lock) &&
      truthy_string (Genesis.unicityRecipient lock) &&
      truthy_string (Genesis.nonce lock) && truthy_string (Genesis.timestamp lock) in
    let accepted :=
      addResult "Token Deserialization" PASS
        "Token, unicity proof cryptographically validated by SDK" in
    let inconsistent :=
      {| valid := false; summary := "Inconsistent Solana locking proof" |} in
    valid verdict = false /\
    Forall (fun r => is_early_result r = true) results /\
    (last results = Some missing_signature_result <->
     tokenFactory_create w token = Returns tt /\
     fields = true /\
     test_class_repeat is_base58 87 88 signature = true) /\
    (forall m, tokenFactory_create w token = Throws m ->
       validateToken w tokenFilePath =
         ({| valid := false; summary := m |},
          [addResult "Token Deserialization" FAIL
             ("TokenFactory validation failed: " +:+ m)])) /\
    (tokenFactory_create w token = Returns tt ->
       validateToken w tokenFilePath =
         if negb fields then
           (inconsistent,
            [accepted; addResult "Lock Event" FAIL "Missing required lock event fields"])
         else if negb (truthy_string signature) then
           (inconsistent,
            [accepted;
             addResult "Solana Anchor" FAIL
               "Missing required Solana anchor fields (signature, blockHeight, slot)"])
         else if negb (test_class_repeat is_base58 87 88 signature) then
           (inconsistent,
            [accepted;
             addResult "Transaction Signature" FAIL
               "Invalid Solana transaction signature format"])
         else
           ({| valid := false; summary := "Missing mandatory minter signature field" |},
            [accepted;
             addResult "Solana Locking Proof" PASS "Solana locking proof is consistent";
             missing_signature_result])).
Proof.
  intros Hw. apply written_token_of_mint in Hw as [Hdata _].
  rewrite tokenData_fields in Hdata. split; [exact Hdata|].
  intros w path Hread. cbv zeta. unfold validateToken. rewrite Hread, Hdata.
  destruct (tokenFactory_create w token) as [[]|m].
  2: { split_and!; [reflexivity | repeat constructor | | | discriminate].
       - split; [discriminate|]. intros [H _]. discriminate.
       - intros m' [= <-]. reflexivity. }
  unfold consistentSolanaLockingProof, decodeTokenData.
  cbn [Token.bridgeType Token.lockEvent Token.solanaTransaction Token.minterSignature].
  change (negb ("SOLANA_BRIDGE" =? "SOLANA_BRIDGE")%string) with false. cbv iota.
  rewrite <- !negb_andb.
  destruct (truthy_string (Genesis.lockId (Genesis.lockEvent proof)) && _ && _ && _ && _ && _).
  2: { cbn. split_and!; [reflexivity | repeat constructor | | discriminate | reflexivity].
       split; [discriminate|]. intros (_ & H & _). discriminate. }
  cbn [negb].
  destruct (truthy_string (Genesis.signature (Genesis.solanaTransaction proof))) eqn:Ht.
  2: { cbn. split_and!; [reflexivity | repeat constructor | | discriminate | reflexivity].
       split; [discriminate|]. intros (_ & _ & H).
       destruct (Genesis.signature (Genesis.solanaTransaction proof)); discriminate. }
  cbn [negb].
  destruct (test_class_repeat is_base58 87 88 _).
  2: { cbn. split_and!; [reflexivity | repeat constructor | | discriminate | reflexivity].
       split; [discriminate|]. intros (_ & _ & H). discriminate. }
  cbn. split_and!; [reflexivity | repeat constructor | | discriminate | reflexivity].
  split; [intros _; split_and!; reflexivity | reflexivity].
Qed.

(** The commitment string is rebuilt by the verifier exactly as the mint
    built it. *)
Lemma commitment_string_agrees proof :
  reconstructedCommitmentData (tokenData proof) = commitmentData proof.
Proof. unfold reconstructedCommitmentData, commitmentData, tokenData. reflexivity. Qed.

Lemma append_length a b : String.length (a +:+ b) = (String.length a + String.length b)%nat.
Proof. induction a; simpl; [reflexivity | rewrite IHa; reflexivity]. Qed.

(** The text hashed by the mint differs from the text hashed by the
    verifier for every non-empty minter signature. *)
Lemma tokenId_preimages_differ proof minterSignature :
  minterSignature <> EmptyString ->
  commitmentData proof +:+ "_tokenId" <>
  reconstructedCommitmentData (tokenData proof) +:+ minterSignature +:+ "_tokenId".
Proof.
  intros Hne Heq. rewrite commitment_string_agrees in Heq.
  apply (f_equal String.length) in Heq. rewrite !append_length in Heq.
  destruct minterSignature; [congruence | simpl in Heq; lia].
Qed.

End MintedTokenFacts.

Section MintedTokenScenarios.
Import SdkMint UnicityTokenValidator Samples.

(** The mint of the sample proof writes [minted_token]; a validator that
    reads it back accepts the file and its structure, and ends at the
    test for the minter signature. *)
Lemma minted_token_rejected_witness :
  written_token (snd (mintBridgedTokenWithSDK sdk_accepting genesis_validated
                        ("[SHA256]" +:+ digest_recipient) "demo-output"
                        CompleteDemo.bridgeProgramId)) = Some minted_token /\
  validateToken (validator_world minted_token) "unicity-token-2a2a2a2a.json"
  = ({| valid := false; summary := "Missing mandatory minter signature field" |},
     [addResult "Token Deserialization" PASS
        "Token, unicity proof cryptographically validated by SDK";
      addResult "Solana Locking Proof" PASS "Solana locking proof is consistent";
      addResult "Minter Signature" FAIL "Token missing required minter signature field"]) /\
  last (snd (validateToken (validator_world minted_token) "unicity-token-2a2a2a2a.json"))
  = Some missing_signature_result.
Proof.
  assert (Hw : written_token
                 (snd (mintBridgedTokenWithSDK sdk_accepting genesis_validated
                         ("[SHA256]" +:+ digest_recipient) "demo-output"
                         CompleteDemo.bridgeProgramId)) = Some minted_token)
    by (vm_compute; reflexivity).
  split; [exact Hw|].
  destruct (proj2 (minted_token_rejected sdk_accepting genesis_validated
                     ("[SHA256]" +:+ digest_recipient) "demo-output"
                     CompleteDemo.bridgeProgramId minted_token Hw)
                  (validator_world minted_token) "unicity-token-2a2a2a2a.json" eq_refl)
    as (_ & _ & Hlast & _ & Hexact).
  split.
  - rewrite (Hexact eq_refl). vm_compute. reflexivity.
  - apply Hlast. split_and!; [reflexivity | vm_compute; reflexivity | vm_compute; reflexivity].
Defined.

(** C2, counterexample to the claim as written: a transaction signature
    of 64 bytes whose base-58 text has 86 characters. [validateGenesisProof]
    accepts the proof and the mint writes its token; [validateToken] ends
    at the "Transaction Signature" check, before the test for the minter
    signature, and records no "Minter Signature" result. *)
Lemma short_signature_stops_earlier :
  String.length short_signature = 86%nat /\
  fst (UnicityProofValidator.validateGenesisProof rpc_finalized
         CompleteDemo.bridgeProgramId 0 ∅ proof_short_signature)
    = Returns genesis_short_signature /\
  exists token,
    written_token (snd (mintBridgedTokenWithSDK sdk_accepting genesis_short_signature
                          ("[SHA256]" +:+ digest_recipient) "demo-output"
                          CompleteDemo.bridgeProgramId)) = Some token /\
    Token.tokenData (Token.genesis_data token) =
      Token.Encoded {| Token.bridgeType := "SOLANA_BRIDGE";
                       Token.lockEvent := Genesis.lockEvent genesis_short_signature;
                       Token.solanaTransaction :=
                         Genesis.solanaTransaction genesis_short_signature;
                       Token.minterSignature := None |} /\
    validateToken (validator_world token) "unicity-token-2a2a2a2a.json"
    = ({| valid := false; summary := "Inconsistent Solana locking proof" |},
       [addResult "Token Deserialization" PASS
          "Token, unicity proof cryptographically validated by SDK";
        addResult "Transaction Signature" FAIL
          "Invalid Solana transaction signature format"]) /\
    last (snd (validateToken (validator_world token) "unicity-token-2a2a2a2a.json"))
    <> Some missing_signature_result.
Proof.
  split; [vm_compute; reflexivity|].
  split; [vm_compute; reflexivity|].
  eexists. split; [vm_compute; reflexivity|].
  split_and!; [vm_compute; reflexivity | vm_compute; reflexivity | vm_compute; discriminate].
Qed.

(** C1, the code at a concrete input. The token id that the mint derives
    for the sample proof is the hash of [commitmentData + "_tokenId"]; the
    verifier expects the hash of
    [commitmentData + minterSignature + "_tokenId"]. The two identifiers
    differ, and [validateTokenIdDerivation] rejects the minted id. *)
Theorem minted_tokenId_not_rederived :
  let minted := Token.tokenId (Token.genesis_data minted_token) in
  let commitment := reconstructedCommitmentData (tokenData genesis_validated) in
  commitment = commitmentData genesis_validated /\
  minted = toHex (Sha256.sha256 (commitment +:+ "_tokenId")) /\
  minted = "4d6ab774f5609f5ec8de23ab592616012eb8ce0b5909aca262de3bf7ae81b103" /\
  expectedTokenIdHex commitment minter_signature
    = toHex (Sha256.sha256 (commitment +:+ minter_signature +:+ "_tokenId")) /\
  expectedTokenIdHex commitment minter_signature
    = "494fc2fa86ed3f3eb8ae5f44a47ea6be8e0422c9aa3392c41140f1998805f709" /\
  fst (validateTokenIdDerivation minted commitment minter_signature) = false.
Proof.
  cbv zeta. split_and!; vm_compute; reflexivity.
Qed.

End MintedTokenScenarios.

(** ** Base 58: the text of an account gives the account back *)

Section Base58Facts.
Local Open Scope N_scope.

Lemma base58_index_digit d : d < 58 -> base58_index (base58_digit d) = Some d.
Proof.
  intros H.
  assert (Hall : forallb (fun k => match base58_index (base58_digit (N.of_nat k)) with
                                   | Some d' => (N.of_nat k =? d')
                                   | None => false
                                   end) (seq 0 58) = true) by (vm_compute; reflexivity).
  rewrite forallb_forall in Hall.
  specialize (Hall (N.to_nat d)). rewrite N2Nat.id in Hall.
  assert (Hin : In (N.to_nat d) (seq 0 58)) by (apply in_seq; lia).
  specialize (Hall Hin).
  destruct (base58_index (base58_digit d)) as [d'|]; [|discriminate].
  apply N.eqb_eq in Hall. now subst.
Qed.

Lemma base58_digit_one d : d < 58 -> base58_digit d = "1"%char -> d = 0.
Proof.
  intros H Hd. pose proof (base58_index_digit d H) as Hi.
  rewrite Hd in Hi. vm_compute in Hi. congruence.
Qed.

Lemma base58_value_app a b acc :
  base58_value (a +:+ b) acc
  = match base58_value a acc with Some v => base58_value b v | None => None end.
Proof.
  revert acc. induction a as [|c a IH]; intros acc; [reflexivity|].
  change (String c a +:+ b) with (String c (a +:+ b)).
  cbn [base58_value]. destruct (base58_index c); [apply IH|reflexivity].
Qed.

Lemma base58_digits_spec f n acc :
  n < 58 ^ N.of_nat f ->
  exists D,
    base58_digits f n acc = D +:+ acc /\
    (forall a0, base58_value D a0 = Some (a0 * 58 ^ N.of_nat (String.length D) + n)) /\
    n < 58 ^ N.of_nat (String.length D) /\
    head_not_one D.
Proof.
  revert n acc. induction f as [|f IH]; intros n acc Hn.
  - exists EmptyString. cbn [base58_digits]. change (58 ^ N.of_nat 0) with 1 in Hn.
    split_and!; [reflexivity| |cbn; lia|exact I].
    intros a0. cbn. f_equal. lia.
  - cbn [base58_digits]. destruct (N.eqb_spec n 0) as [->|Hne].
    + exists EmptyString. split_and!; [reflexivity| |cbn; lia|exact I].
      intros a0. cbn. f_equal. lia.
    + assert (Hq : n / 58 < 58 ^ N.of_nat f).
      { apply N.Div0.div_lt_upper_bound.
        rewrite Nat2N.inj_succ, N.pow_succ_r' in Hn. lia. }
      destruct (IH (n / 58) (String (base58_digit (n mod 58)) acc) Hq)
        as (D & HD & Hval & Hlt & Hhead).
      exists (D +:+ String (base58_digit (n mod 58)) EmptyString).
      assert (Hlen : String.length (D +:+ String (base58_digit (n mod 58)) EmptyString)
                     = S (String.length D)).
      { clear. induction D as [|c D IHD]; [reflexivity|].
        change (String c D +:+ ?x) with (String c (D +:+ x)). cbn [String.length].
        now rewrite IHD. }
      rewrite Hlen, Nat2N.inj_succ, N.pow_succ_r'.
      pose proof (N.div_mod n 58 ltac:(lia)) as Hdm.
      pose proof (N.mod_lt n 58 ltac:(lia)) as Hm.
      split_and!.
      * rewrite HD. clear. induction D as [|c D IHD]; [reflexivity|].
        change (String c D +:+ ?x) with (String c (D +:+ x)). now rewrite IHD.
      * intros a0. rewrite base58_value_app, Hval. cbn [base58_value].
        rewrite (base58_index_digit _ Hm). f_equal. lia.
      * lia.
      * destruct D as [|c D].
        -- cbn. intros Hone. apply base58_digit_one in Hone; [|exact Hm].
           cbn in Hlt. assert (n / 58 = 0) by lia. lia.
        -- exact Hhead.
Qed.

Lemma base58_value_ones z : base58_value (ones z) 0 = Some 0.
Proof. induction z as [|z IH]; [reflexivity|]. exact IH. Qed.

Lemma leading_ones_app z D : head_not_one D -> leading_ones (ones z +:+ D) = z.
Proof.
  intros H. induction z as [|z IH].
  - change (ones 0 +:+ D) with D. destruct D as [|c D]; [reflexivity|].
    cbn in H. cbn [leading_ones].
    destruct c as [[] [] [] [] [] [] [] []]; try reflexivity. now contradiction H.
  - change (ones (S z) +:+ D) with (String "1" (ones z +:+ D)).
    cbn [leading_ones]. now rewrite IH.
Qed.


Lemma be_to_N_app a b : be_to_N (a ++ [b]) = be_to_N a * 256 + Byte.to_N b.
Proof. unfold be_to_N. now rewrite fold_left_app. Qed.

Lemma byte_to_N_lt b : Byte.to_N b < 256.
Proof. pose proof (Byte.to_N_bounded b). lia. Qed.

Lemma be_to_N_lt l : be_to_N l < 256 ^ N.of_nat (length l).
Proof.
  induction l as [|b l IH] using rev_ind; [cbn; lia|].
  rewrite be_to_N_app, length_app, Nat.add_comm. cbn [length Nat.add].
  rewrite Nat2N.inj_succ, N.pow_succ_r'. pose proof (byte_to_N_lt b). lia.
Qed.

Lemma be_to_N_pos b l : b <> Byte.x00 -> be_to_N (b :: l) <> 0.
Proof.
  intros Hb. induction l as [|c l IH] using rev_ind.
  - unfold be_to_N. cbn [fold_left]. intros H.
    apply Hb. apply (f_equal Byte.of_N) in H.
    change (0 * 256 + Byte.to_N b) with (Byte.to_N b) in H.
    rewrite Byte.of_to_N in H. cbn in H. congruence.
  - change (b :: l ++ [c]) with ((b :: l) ++ [c]). rewrite be_to_N_app. lia.
Qed.

Lemma byte_of_to_N b : byte_of_N (Byte.to_N b) = b.
Proof.
  unfold byte_of_N. rewrite N.mod_small by apply byte_to_N_lt.
  now rewrite Byte.of_to_N.
Qed.

Lemma bytes_of_N_be m : forall f acc,
  head_not_zero m -> be_to_N m < 256 ^ N.of_nat f ->
  bytes_of_N f (be_to_N m) acc = m ++ acc.
Proof.
  induction m as [|b m IH] using rev_ind; intros f acc Hh Hlt.
  - destruct f; reflexivity.
  - assert (Hne : be_to_N (m ++ [b]) <> 0).
    { destruct m as [|c m]; [apply be_to_N_pos; exact Hh|].
      change ((c :: m) ++ [b]) with (c :: (m ++ [b])). apply be_to_N_pos. exact Hh. }
    destruct f as [|f]; [change (256 ^ N.of_nat 0) with 1 in Hlt; lia|].
    cbn [bytes_of_N]. destruct (N.eqb_spec (be_to_N (m ++ [b])) 0) as [H0|_]; [contradiction|].
    rewrite be_to_N_app in *. pose proof (byte_to_N_lt b) as Hb.
    replace ((be_to_N m * 256 + Byte.to_N b) / 256) with (be_to_N m)
      by (apply (N.div_unique _ 256 _ (Byte.to_N b)); lia).
    replace ((be_to_N m * 256 + Byte.to_N b) mod 256) with (Byte.to_N b)
      by (apply (N.mod_unique _ 256 (be_to_N m)); lia).
    rewrite byte_of_to_N, IH.
    + now rewrite <- app_assoc.
    + destruct m; [exact I|exact Hh].
    + rewrite Nat2N.inj_succ, N.pow_succ_r' in Hlt. lia.
Qed.

Lemma leading_zeros_split l :
  l = repeat Byte.x00 (leading_zeros l) ++ skipn (leading_zeros l) l /\
  head_not_zero (skipn (leading_zeros l) l) /\
  be_to_N (skipn (leading_zeros l) l) = be_to_N l.
Proof.
  induction l as [|b l IH]; [split_and!; [reflexivity|exact I|reflexivity]|].
  destruct (Byte.eqb b Byte.x00) eqn:Hb.
  - apply Byte.byte_dec_bl in Hb. subst b. cbn [leading_zeros skipn repeat app].
    destruct IH as (H1 & H2 & H3). split_and!; [now rewrite <- H1|exact H2|].
    rewrite H3. reflexivity.
  - assert (Hne : b <> Byte.x00) by (intros ->; discriminate).
    assert (Hz : leading_zeros (b :: l) = O) by (destruct b; try reflexivity; congruence).
    rewrite Hz. cbn [skipn repeat app]. split_and!; [reflexivity|exact Hne|reflexivity].
Qed.

Lemma pow_256_58 k : 256 ^ N.of_nat k <= 58 ^ N.of_nat (2 * k).
Proof.
  induction k as [|k IH]; [cbn; lia|].
  replace (2 * S k)%nat with (S (S (2 * k))) by lia.
  rewrite !Nat2N.inj_succ, !N.pow_succ_r'. lia.
Qed.

Lemma base58_decode_encode l : base58_decode (base58_encode l) = Some l.
Proof.
  unfold base58_encode.
  destruct (leading_zeros_split l) as (Hl & Hh & Hv).
  assert (Hn : be_to_N l < 58 ^ N.of_nat (2 * length l)).
  { eapply N.lt_le_trans; [apply be_to_N_lt|apply pow_256_58]. }
  destruct (base58_digits_spec _ _ EmptyString Hn) as (D & HD & Hval & Hlt & Hhead).
  rewrite HD. replace (D +:+ EmptyString) with D
    by (clear; induction D as [|c D IHD]; [reflexivity|];
        change (String c D +:+ "") with (String c (D +:+ "")); now rewrite <- IHD).
  unfold base58_decode.
  rewrite base58_value_app, base58_value_ones, Hval, (leading_ones_app _ _ Hhead).
  rewrite N.mul_0_l, N.add_0_l.
  rewrite <- Hv, bytes_of_N_be, app_nil_r; [now rewrite <- Hl|exact Hh|].
  rewrite Hv, append_length.
  eapply N.lt_le_trans; [exact Hlt|].
  transitivity (256 ^ N.of_nat (String.length D)); [apply N.pow_le_mono_l; lia|].
  apply N.pow_le_mono_r; lia.
Qed.

End Base58Facts.

(** ** The event extractor and the binary log encoding *)

Section WireFacts.
Import EventExtractor LogEncoding.

Lemma byte_to_of_N n : Byte.to_N (byte_of_N n) = (n mod 256)%N.
Proof.
  unfold byte_of_N. destruct (Byte.of_N (n mod 256)) as [b|] eqn:E.
  - apply Byte.to_of_N. exact E.
  - apply Byte.of_N_None_iff in E.
    pose proof (N.mod_upper_bound n 256). lia.
Qed.

Lemma byte_to_Z_of_Z z : byte_to_Z (byte_of_Z z) = z mod 256.
Proof.
  unfold byte_to_Z, byte_of_Z. rewrite byte_to_of_N.
  pose proof (Z.mod_pos_bound z 256 ltac:(lia)).
  rewrite N.mod_small by lia. lia.
Qed.

Lemma le_bytes_length n x : length (le_bytes n x) = n.
Proof. revert x. induction n; intros; simpl; [reflexivity | rewrite IHn; reflexivity]. Qed.

Lemma subarray_field (pre field post : list byte) (off n : nat) :
  length pre = off -> length field = n ->
  subarray (pre ++ field ++ post) off (off + n) = field.
Proof.
  intros <- <-. unfold subarray.
  replace (length pre + length field - length pre)%nat with (length field) by lia.
  rewrite skipn_app, Nat.sub_diag, skipn_all, skipn_O, app_nil_l.
  rewrite firstn_app, Nat.sub_diag, firstn_all, firstn_O. apply app_nil_r.
Qed.

Lemma byte_at_app (pre rest : list byte) (i : nat) :
  byte_at (pre ++ rest) (length pre + i) = byte_at rest i.
Proof. unfold byte_at. rewrite app_nth2_plus. reflexivity. Qed.

Lemma bytes_equal_spec a b : bytes_equal a b = true <-> a = b.
Proof.
  revert b. induction a as [|x a IH]; intros [|y b]; simpl; try (split; [discriminate|discriminate]).
  - split; reflexivity.
  - rewrite andb_true_iff, IH. split.
    + intros [H ->]. apply Byte.byte_dec_bl in H. subst. reflexivity.
    + intros [= -> ->]. split; [apply Byte.byte_dec_lb|]; reflexivity.
Qed.

Lemma bind_returns {A B} (v : A) (k : A -> outcome B) : mbind k (Returns v) = k v.
Proof. reflexivity. Qed.

Ltac pow_consts :=
  change (2 ^ 8) with 256 in *; change (2 ^ 16) with 65536 in *;
  change (2 ^ 24) with 16777216 in *; change (2 ^ 32) with 4294967296 in *;
  change (2 ^ 64) with 18446744073709551616 in *;
  change (2 ^ 63) with 9223372036854775808 in *.

Lemma readUInt32LE_le_bytes (pre post : list byte) (x : Z) :
  0 <= x < 2 ^ 32 ->
  readUInt32LE (pre ++ le_bytes 4 x ++ post) (length pre) = Returns x.
Proof.
  intros Hx. unfold readUInt32LE.
  rewrite (proj2 (Nat.ltb_ge _ _)).
  2: { rewrite !length_app, le_bytes_length. lia. }
  f_equal.
  replace (length pre) with (length pre + 0)%nat at 1 by lia.
  rewrite !byte_at_app. unfold byte_at. cbn [le_bytes nth app].
  rewrite !byte_to_Z_of_Z. pow_consts.
  Z.div_mod_to_equations. lia.
Qed.

Lemma shiftl_32 h : Z.shiftl h 32 = h * 4294967296.
Proof. rewrite Z.shiftl_mul_pow2 by lia. reflexivity. Qed.

Lemma readU64LE_le_bytes (x : Z) :
  0 <= x < 2 ^ 64 -> readU64LE (le_bytes 8 x) = Returns x.
Proof.
  intros Hx. unfold readU64LE, readUInt32LE.
  cbn [le_bytes length Nat.ltb Nat.leb Nat.add].
  rewrite !bind_returns. f_equal.
  unfold byte_at. cbn [nth Nat.add]. rewrite !byte_to_Z_of_Z, shiftl_32. pow_consts.
  Z.div_mod_to_equations. lia.
Qed.

Lemma readI64LE_le_bytes (x : Z) :
  - 2 ^ 63 <= x < 2 ^ 63 -> readI64LE (le_bytes 8 x) = Returns x.
Proof.
  intros Hx. unfold readI64LE, readUInt32LE, readInt32LE.
  cbn [le_bytes length Nat.ltb Nat.leb Nat.add].
  rewrite !bind_returns. f_equal.
  unfold byte_at, shl24_int32. cbn [nth Nat.add]. rewrite !byte_to_Z_of_Z, shiftl_32.
  pow_consts.
  destruct (Z.ltb_spec (x / 256 / 256 / 256 / 256 / 256 / 256 / 256 mod 256) 128);
    Z.div_mod_to_equations; lia.
Qed.


Lemma length_list_byte_of_string s :
  length (list_byte_of_string s) = String.length s.
Proof.
  unfold list_byte_of_string. rewrite length_map.
  induction s; simpl; [reflexivity | rewrite IHs; reflexivity].
Qed.

Lemma serialize_length e :
  valid_event e ->
  length (serialize e) = (100 + String.length (BC.unicityRecipient e))%nat.
Proof.
  intros (Hl & Hu & _). unfold serialize, bytes_of_string.
  rewrite !length_app, !le_bytes_length, Hl, Hu, length_list_byte_of_string.
  simpl. lia.
Qed.

Lemma subarray_at (buf pre field post : list byte) (off n : nat) :
  buf = pre ++ field ++ post -> length pre = off -> length field = n ->
  subarray buf off (off + n) = field.
Proof. intros ->. apply subarray_field. Qed.

Lemma readUInt32LE_at (buf pre post : list byte) (x : Z) (off : nat) :
  buf = pre ++ le_bytes 4 x ++ post -> length pre = off -> 0 <= x < 2 ^ 32 ->
  readUInt32LE buf off = Returns x.
Proof. intros -> <-. apply readUInt32LE_le_bytes. Qed.

Lemma discriminator_length : length discriminator = 8%nat.
Proof. reflexivity. Qed.

Lemma parse_serialize_body e :
  valid_event e ->
  parseTokenLockedEvent_body (serialize e)
  = Returns (UnicityProofValidator.genesis_lockEvent e).
Proof.
  intros Hv. pose proof (serialize_length e Hv) as Hlen.
  destruct Hv as (Hl & Hu & Ha & Hr & Hn & Ht & Hw).
  set (L := String.length (BC.unicityRecipient e)) in *.
  assert (Hrl : length (bytes_of_string (BC.unicityRecipient e)) = L)
    by apply length_list_byte_of_string.
  pose proof discriminator_length as Hd.
  assert (F0 : subarray (serialize e) 0 8 = discriminator).
  { apply (subarray_at _ [] discriminator
             (BC.lockId e ++ BC.user e ++ le_bytes 8 (BC.amount e)
              ++ le_bytes 4 (Z.of_nat L) ++ bytes_of_string (BC.unicityRecipient e)
              ++ le_bytes 8 (BC.nonce e) ++ le_bytes 8 (BC.timestamp e)) 0 8);
      reflexivity. }
  assert (F1 : subarray (serialize e) 8 (8 + 32) = BC.lockId e).
  { apply (subarray_at _ discriminator (BC.lockId e)
             (BC.user e ++ le_bytes 8 (BC.amount e)
              ++ le_bytes 4 (Z.of_nat L) ++ bytes_of_string (BC.unicityRecipient e)
              ++ le_bytes 8 (BC.nonce e) ++ le_bytes 8 (BC.timestamp e)));
      [reflexivity | exact Hd | exact Hl]. }
  assert (F2 : subarray (serialize e) (8 + 32) (8 + 32 + 32) = BC.user e).
  { apply (subarray_at _ (discriminator ++ BC.lockId e) (BC.user e)
             (le_bytes 8 (BC.amount e)
              ++ le_bytes 4 (Z.of_nat L) ++ bytes_of_string (BC.unicityRecipient e)
              ++ le_bytes 8 (BC.nonce e) ++ le_bytes 8 (BC.timestamp e)));
      [unfold serialize; rewrite <- !app_assoc; reflexivity
      | rewrite !length_app; lia | exact Hu]. }
  assert (F3 : subarray (serialize e) (8 + 32 + 32) (8 + 32 + 32 + 8)
               = le_bytes 8 (BC.amount e)).
  { apply (subarray_at _ (discriminator ++ BC.lockId e ++ BC.user e)
             (le_bytes 8 (BC.amount e))
             (le_bytes 4 (Z.of_nat L) ++ bytes_of_string (BC.unicityRecipient e)
              ++ le_bytes 8 (BC.nonce e) ++ le_bytes 8 (BC.timestamp e)));
      [unfold serialize; rewrite <- !app_assoc; reflexivity
      | rewrite !length_app; lia | apply le_bytes_length]. }
  assert (F4 : readUInt32LE (serialize e) (8 + 32 + 32 + 8) = Returns (Z.of_nat L)).
  { apply (readUInt32LE_at _
             (discriminator ++ BC.lockId e ++ BC.user e ++ le_bytes 8 (BC.amount e))
             (bytes_of_string (BC.unicityRecipient e)
              ++ le_bytes 8 (BC.nonce e) ++ le_bytes 8 (BC.timestamp e)));
      [unfold serialize; rewrite <- !app_assoc; reflexivity
      | rewrite !length_app, le_bytes_length; lia | lia]. }
  assert (F5 : subarray (serialize e) (8 + 32 + 32 + 8 + 4) (8 + 32 + 32 + 8 + 4 + L)
               = bytes_of_string (BC.unicityRecipient e)).
  { apply (subarray_at _
             (discriminator ++ BC.lockId e ++ BC.user e ++ le_bytes 8 (BC.amount e)
              ++ le_bytes 4 (Z.of_nat L))
             (bytes_of_string (BC.unicityRecipient e))
             (le_bytes 8 (BC.nonce e) ++ le_bytes 8 (BC.timestamp e)));
      [unfold serialize; rewrite <- !app_assoc; reflexivity
      | rewrite !length_app, !le_bytes_length; lia | exact Hrl]. }
  assert (F6 : subarray (serialize e) (8 + 32 + 32 + 8 + 4 + L) (8 + 32 + 32 + 8 + 4 + L + 8)
               = le_bytes 8 (BC.nonce e)).
  { apply (subarray_at _
             (discriminator ++ BC.lockId e ++ BC.user e ++ le_bytes 8 (BC.amount e)
              ++ le_bytes 4 (Z.of_nat L) ++ bytes_of_string (BC.unicityRecipient e))
             (le_bytes 8 (BC.nonce e))
             (le_bytes 8 (BC.timestamp e)));
      [unfold serialize; rewrite <- !app_assoc; reflexivity
      | rewrite !length_app, !le_bytes_length; lia | apply le_bytes_length]. }
  assert (F7 : subarray (serialize e) (8 + 32 + 32 + 8 + 4 + L + 8)
                 (8 + 32 + 32 + 8 + 4 + L + 8 + 8)
               = le_bytes 8 (BC.timestamp e)).
  { apply (subarray_at _
             (discriminator ++ BC.lockId e ++ BC.user e ++ le_bytes 8 (BC.amount e)
              ++ le_bytes 4 (Z.of_nat L) ++ bytes_of_string (BC.unicityRecipient e)
              ++ le_bytes 8 (BC.nonce e))
             (le_bytes 8 (BC.timestamp e)) []);
      [unfold serialize; rewrite <- !app_assoc, app_nil_r; reflexivity
      | rewrite !length_app, !le_bytes_length; lia | apply le_bytes_length]. }
  unfold parseTokenLockedEvent_body. cbv zeta.
  rewrite Hlen, F0, F1, F2, F3, F4, (readU64LE_le_bytes _ Ha), !bind_returns.
  rewrite Nat2Z.id, F5, F6, F7, (readU64LE_le_bytes _ Hn), (readI64LE_le_bytes _ Ht).
  rewrite !bind_returns.
  rewrite (proj2 (bytes_equal_spec _ _)) by reflexivity.
  rewrite !(proj2 (Nat.ltb_ge _ _)) by lia.
  cbn [negb]. unfold UnicityProofValidator.genesis_lockEvent.
  unfold well_formed_utf8 in Hw. rewrite Hw. reflexivity.
Qed.

(** A buffer that parses holds the declared recipient length and is long
    enough for it. *)
Lemma parse_success_length buf ev :
  parseTokenLockedEvent_body buf = Returns ev ->
  exists n, readUInt32LE buf 80 = Returns n /\ (100 + Z.to_nat n <= length buf)%nat.
Proof.
  unfold parseTokenLockedEvent_body. cbv zeta.
  destruct (length buf <? 8)%nat; [discriminate|].
  destruct (negb _); [discriminate|].
  destruct (length buf <? 8 + 32)%nat; [discriminate|].
  destruct (length buf <? 8 + 32 + 32)%nat; [discriminate|].
  destruct (length buf <? 8 + 32 + 32 + 8)%nat; [discriminate|].
  destruct (readU64LE _) as [amount|]; [|discriminate]. rewrite bind_returns.
  destruct (length buf <? 8 + 32 + 32 + 8 + 4)%nat; [discriminate|].
  change (8 + 32 + 32 + 8)%nat with 80%nat.
  destruct (readUInt32LE buf 80) as [n|]; [|discriminate]. rewrite bind_returns.
  destruct (length buf <? _)%nat; [discriminate|].
  destruct (length buf <? _)%nat; [discriminate|].
  destruct (readU64LE _) as [nonce|]; [|discriminate]. rewrite bind_returns.
  destruct (length buf <? _)%nat eqn:E; [discriminate|].
  apply Nat.ltb_ge in E.
  intros _. exists n. split; [reflexivity | lia].
Qed.

Lemma byte_at_firstn buf n i : (i < n)%nat -> byte_at (firstn n buf) i = byte_at buf i.
Proof.
  intros Hi. unfold byte_at. rewrite nth_firstn.
  rewrite (proj2 (Nat.ltb_lt _ _) Hi). reflexivity.
Qed.

(** A read that succeeds in a prefix of a buffer reads the same in the
    buffer. *)
Lemma readUInt32LE_firstn buf n off v :
  readUInt32LE (firstn n buf) off = Returns v -> readUInt32LE buf off = Returns v.
Proof.
  unfold readUInt32LE. rewrite length_firstn.
  destruct (Nat.ltb_spec (min n (length buf)) (off + 4)); [discriminate|].
  rewrite (proj2 (Nat.ltb_ge (length buf) (off + 4))) by lia.
  rewrite !byte_at_firstn by lia. trivial.
Qed.

Lemma parse_truncated e n :
  valid_event e -> (n < length (serialize e))%nat ->
  parseTokenLockedEvent (firstn n (serialize e)) = None.
Proof.
  intros Hv Hn. unfold parseTokenLockedEvent.
  destruct (parseTokenLockedEvent_body _) as [ev|] eqn:E; [|reflexivity].
  exfalso. apply parse_success_length in E as (m & Hread & Hlen).
  apply readUInt32LE_firstn in Hread.
  rewrite length_firstn in Hlen. rewrite (serialize_length e Hv) in *.
  destruct Hv as (Hl & Hu & Ha & Hr & Hno & Ht & Hw).
  assert (F4 : readUInt32LE (serialize e) 80
               = Returns (Z.of_nat (String.length (BC.unicityRecipient e)))).
  { apply (readUInt32LE_at _
             (discriminator ++ BC.lockId e ++ BC.user e ++ le_bytes 8 (BC.amount e))
             (bytes_of_string (BC.unicityRecipient e)
              ++ le_bytes 8 (BC.nonce e) ++ le_bytes 8 (BC.timestamp e)));
      [unfold serialize; rewrite <- !app_assoc; reflexivity
      | rewrite !length_app, le_bytes_length, Hl, Hu; reflexivity | lia]. }
  rewrite F4 in Hread. injection Hread as <-. rewrite Nat2Z.id in Hlen. lia.
Qed.

Lemma parse_wrong_discriminator buf :
  subarray buf 0 8 <> expectedDiscriminator -> parseTokenLockedEvent buf = None.
Proof.
  intros Hne. unfold parseTokenLockedEvent, parseTokenLockedEvent_body. cbv zeta.
  destruct (length buf <? 8)%nat; [reflexivity|].
  destruct (bytes_equal _ _) eqn:E; [|reflexivity].
  apply bytes_equal_spec in E. contradiction.
Qed.

(** The text fields of a parsed event give back the values they print. *)
Lemma fromHex_toHex l : fromHex (toHex l) = l.
Proof.
  induction l as [|b l IH]; [reflexivity|].
  cbn [toHex fromHex]. rewrite IH. destruct b; reflexivity.
Qed.

Lemma all_chars_weaken (p q : ascii -> bool) s :
  (forall c, p c = true -> q c = true) -> all_chars p s = true -> all_chars q s = true.
Proof.
  intros Hpq. induction s as [|c s IH]; [reflexivity|].
  cbn. intros H. apply andb_prop in H as [Hc Hs]. now rewrite (Hpq c Hc), IH.
Qed.

(** Decimal text: digits, after an optional minus sign. *)
Lemma string_of_uint_digits d :
  all_chars (in_range "0" "9") (NilEmpty.string_of_uint d) = true.
Proof. induction d; cbn; try reflexivity; exact IHd. Qed.

Lemma toString_class z :
  all_chars (fun c => in_range "0" "9" c || Ascii.eqb c "-") (toString z) = true.
Proof.
  unfold toString.
  assert (H : forall d, all_chars (fun c => in_range "0" "9" c || Ascii.eqb c "-")
                          (NilZero.string_of_uint d) = true).
  { intros d. apply (all_chars_weaken (in_range "0" "9")).
    - intros c ->. reflexivity.
    - destruct d; try apply string_of_uint_digits. reflexivity. }
  destruct (Z.to_int z) as [d|d]; cbn; [apply H|]. apply H.
Qed.

(** A digit or a minus sign is not white space. *)
Lemma drop_space_digit c rest :
  in_range "0" "9" c || Ascii.eqb c "-" = true ->
  SdkMint.drop_space (byte_of_ascii c :: rest) = None.
Proof.
  destruct c as [[] [] [] [] [] [] [] []]; intros H; try discriminate H; reflexivity.
Qed.

Lemma list_byte_of_string_cons c s :
  list_byte_of_string (String c s) = byte_of_ascii c :: list_byte_of_string s.
Proof. reflexivity. Qed.

Lemma trim_decimal s :
  all_chars (fun c => in_range "0" "9" c || Ascii.eqb c "-") s = true ->
  SdkMint.trim s = s.
Proof.
  intros H. unfold SdkMint.trim.
  assert (Hstart : SdkMint.trim_start (length (list_byte_of_string s)) (list_byte_of_string s)
                   = list_byte_of_string s).
  { destruct s as [|c s]; [reflexivity|].
    cbn in H. apply andb_prop in H as [Hc _].
    rewrite list_byte_of_string_cons. cbn [length SdkMint.trim_start].
    now rewrite (drop_space_digit c _ Hc). }
  rewrite Hstart. clear Hstart.
  assert (Hend : SdkMint.trim_end (list_byte_of_string s) = list_byte_of_string s).
  { induction s as [|c s IH]; [reflexivity|].
    cbn in H. apply andb_prop in H as [Hc Hs].
    rewrite list_byte_of_string_cons. cbn [SdkMint.trim_end length SdkMint.all_space].
    rewrite (drop_space_digit c _ Hc), (IH Hs). reflexivity. }
  rewrite Hend. apply string_of_list_byte_of_string.
Qed.

Lemma decimal_literal_to_uint p :
  SdkMint.decimal_literal (NilEmpty.string_of_uint (Pos.to_uint p)) = Some (Npos p).
Proof.
  unfold SdkMint.decimal_literal.
  rewrite NilEmpty.usu.
  destruct (NilEmpty.string_of_uint (Pos.to_uint p)) eqn:E.
  - exfalso. apply (DecimalPos.Unsigned.to_uint_nonnil p).
    destruct (Pos.to_uint p); try discriminate E. reflexivity.
  - cbn [option_map]. f_equal. apply DecimalPos.Unsigned.of_to.
Qed.

(** On a text of decimal digits [BigInt] reads the decimal literal. *)
Lemma BigInt_digits s n :
  all_chars (in_range "0" "9") s = true ->
  SdkMint.decimal_literal s = Some n ->
  SdkMint.BigInt s = Returns (Z.of_N n) /\
  SdkMint.BigInt (String "-" s) = Returns (- Z.of_N n).
Proof.
  intros Hd Hn.
  assert (Hc : all_chars (fun c => in_range "0" "9" c || Ascii.eqb c "-") s = true).
  { revert Hd. apply all_chars_weaken. intros c ->. reflexivity. }
  split.
  - unfold SdkMint.BigInt. rewrite (trim_decimal s Hc).
    destruct s as [|c1 s1]; [discriminate Hn|].
    cbn in Hd. apply andb_prop in Hd as [H1 Hd].
    destruct c1 as [[] [] [] [] [] [] [] []]; try discriminate H1;
      try (rewrite Hn; reflexivity).
    destruct s1 as [|c2 s2]; [rewrite Hn; reflexivity|].
    cbn in Hd. apply andb_prop in Hd as [H2 _].
    destruct c2 as [[] [] [] [] [] [] [] []]; try discriminate H2;
      rewrite Hn; reflexivity.
  - unfold SdkMint.BigInt. rewrite (trim_decimal (String "-" s)) by exact Hc.
    rewrite Hn. reflexivity.
Qed.

Lemma BigInt_toString z : SdkMint.BigInt (toString z) = Returns z.
Proof.
  unfold toString. destruct z as [|p|p]; [reflexivity| |].
  - change (NilZero.string_of_int (Z.to_int (Z.pos p)))
      with (NilZero.string_of_uint (Pos.to_uint p)).
    assert (Hs : NilZero.string_of_uint (Pos.to_uint p)
                 = NilEmpty.string_of_uint (Pos.to_uint p)).
    { pose proof (DecimalPos.Unsigned.to_uint_nonnil p) as Hne.
      destruct (Pos.to_uint p); try reflexivity. contradiction. }
    rewrite Hs.
    exact (proj1 (BigInt_digits _ _ (string_of_uint_digits _) (decimal_literal_to_uint p))).
  - change (NilZero.string_of_int (Z.to_int (Z.neg p)))
      with (String "-" (NilZero.string_of_uint (Pos.to_uint p))).
    assert (Hs : NilZero.string_of_uint (Pos.to_uint p)
                 = NilEmpty.string_of_uint (Pos.to_uint p)).
    { pose proof (DecimalPos.Unsigned.to_uint_nonnil p) as Hne.
      destruct (Pos.to_uint p); try reflexivity. contradiction. }
    rewrite Hs.
    exact (proj2 (BigInt_digits _ _ (string_of_uint_digits _) (decimal_literal_to_uint p))).
Qed.


End WireFacts.

Section WireScenarios.
Import EventExtractor LogEncoding Samples.


(** Scenario A on the wire: the parsed amount, nonce and timestamp. *)
Example scenario_A_parsed :
  option_map (fun ev => (Genesis.amount ev, Genesis.nonce ev, Genesis.timestamp ev,
                         Genesis.unicityRecipient ev))
             (parseTokenLockedEvent (serialize lock_event))
  = Some ("100000000", "0", "1700000000", digest_recipient).
Proof. vm_compute. reflexivity. Qed.

(** Recipient bytes that are not UTF-8 are read with U+FFFD in place of
    each invalid byte: the bytes 61 ff 62 give the text a U+FFFD b, so an
    event with such a recipient does not come back. *)
Example recipient_bytes_replaced :
  let text := string_of_list_byte [Byte.x61; Byte.xff; Byte.x62] in
  let e := {| BC.lockId := BC.lockId lock_event;
              BC.user := BC.user lock_event;
              BC.amount := BC.amount lock_event;
              BC.unicityRecipient := text;
              BC.nonce := BC.nonce lock_event;
              BC.timestamp := BC.timestamp lock_event |} in
  string_of_bytes [Byte.x61; Byte.xff; Byte.x62]
  = string_of_list_byte [Byte.x61; Byte.xef; Byte.xbf; Byte.xbd; Byte.x62] /\
  option_map Genesis.unicityRecipient (parseTokenLockedEvent (serialize e))
  = Some (string_of_list_byte [Byte.x61; Byte.xef; Byte.xbf; Byte.xbd; Byte.x62]) /\
  ~ well_formed_utf8 text.
Proof.
  cbv zeta. split_and!; [vm_compute; reflexivity | vm_compute; reflexivity |].
  unfold well_formed_utf8. vm_compute. discriminate.
Qed.

(** A negative timestamp is read back through the signed high word. *)
Example readI64LE_negative : readI64LE (le_bytes 8 (-2)) = Returns (-2).
Proof. vm_compute. reflexivity. Qed.

Example readU64LE_large :
  readU64LE (le_bytes 8 18446744073709551615) = Returns 18446744073709551615.
Proof. vm_compute. reflexivity. Qed.

End WireScenarios.


(** * Further properties: the functions around the ones above *)

Ltac pow_values :=
  change (2 ^ 8) with 256 in *; change (2 ^ 16) with 65536 in *;
  change (2 ^ 24) with 16777216 in *; change (2 ^ 32) with 4294967296 in *;
  change (2 ^ 64) with 18446744073709551616 in *;
  change (2 ^ 63) with 9223372036854775808 in *.

Section Sha256Shape.
Import Sha256.

Lemma round_length st kw : length (round st kw) = length st.
Proof.
  unfold round.
  destruct st as [|a [|b [|c [|d [|e [|f [|g [|h [|i rest]]]]]]]]]; reflexivity.
Qed.

Lemma fold_round_length kws st : length (fold_left round kws st) = length st.
Proof.
  revert st. induction kws as [|kw kws IH]; intros st; simpl; [reflexivity|].
  rewrite IH. apply round_length.
Qed.

Lemma compress_length h block : length (compress h block) = length h.
Proof.
  unfold compress. rewrite length_map, length_combine, fold_round_length.
  apply Nat.min_id.
Qed.

Lemma blocks_length n h bs : length (blocks n h bs) = length h.
Proof.
  revert h bs. induction n as [|n IH]; intros h bs; simpl; [reflexivity|].
  rewrite IH. apply compress_length.
Qed.

Lemma be_bytes_length len x : length (be_bytes len x) = len.
Proof. induction len as [|len IH]; simpl; [reflexivity|]. now rewrite IH. Qed.

Lemma flat_map_be_bytes_length ws : length (flat_map (be_bytes 4) ws) = (4 * length ws)%nat.
Proof.
  induction ws as [|w ws IH]; [reflexivity|].
  change (flat_map (be_bytes 4) (w :: ws)) with (be_bytes 4 w ++ flat_map (be_bytes 4) ws).
  rewrite length_app, be_bytes_length, IH. simpl. lia.
Qed.

Lemma digest_length msg : length (digest msg) = 32%nat.
Proof.
  unfold digest. rewrite flat_map_be_bytes_length, blocks_length. reflexivity.
Qed.

End Sha256Shape.

Section HexText.

Lemma hex_digit_lower n : is_hex_lower (hex_digit n) = true.
Proof.
  unfold hex_digit.
  destruct (N.to_nat n) as [|[|[|[|[|[|[|[|[|[|[|[|[|[|[|[|k]]]]]]]]]]]]]]]]; try reflexivity.
Qed.

Lemma toHex_lower l : all_chars is_hex_lower (toHex l) = true.
Proof.
  induction l as [|b l IH]; [reflexivity|].
  simpl. now rewrite !hex_digit_lower, IH.
Qed.

Lemma toHex_length l : String.length (toHex l) = (2 * length l)%nat.
Proof. induction l as [|b l IH]; simpl; [reflexivity|]. rewrite IH. lia. Qed.

End HexText.

Section LightClientMoreFacts.
Import Solana SolanaLightClient LightClientMore.

(** X1. Whatever the endpoint answers, [verifyBlockHash] adds the claimed
    hash to the trusted set exactly when it returns [true], and changes
    nothing else in the set; the set is never read, so the outcome is the
    same for every trusted set; when the finalized block is served, the
    result is the comparison of its hash with the claimed one. *)
Theorem verifyBlockHash_trusted_set rpc trusted blockHash blockHeight :
  let r := verifyBlockHash rpc trusted blockHash blockHeight in
  snd r = match fst r with
          | Returns true => addTrustedBlockHash trusted blockHash
          | _ => trusted
          end /\
  trusted ⊆ snd r /\
  snd r ⊆ {[ blockHash ]} ∪ trusted /\
  (forall trusted2, fst (verifyBlockHash rpc trusted2 blockHash blockHeight) = fst r) /\
  (forall block, getBlock rpc blockHeight = Returns (Some block) ->
     fst r = Returns (String.eqb (blockhash block) blockHash)).
Proof.
  intros r.
  assert (Hsnd : snd r = match fst r with
                         | Returns true => addTrustedBlockHash trusted blockHash
                         | _ => trusted
                         end).
  { subst r. unfold verifyBlockHash.
    assert (Halt : let a := alternative_validation rpc trusted blockHash blockHeight in
                   snd a = match fst a with
                           | Returns true => addTrustedBlockHash trusted blockHash
                           | _ => trusted
                           end).
    { unfold alternative_validation, alternative_body.
      destruct (negb (test_class_repeat is_base58 32 44 blockHash)); [reflexivity|].
      destruct (getSlot rpc) as [currentSlot|m]; cbn [try_catch fst snd].
      - destruct (currentSlot - blockHeight <? 0); cbn [try_catch fst snd].
        + destruct (alternative_catch_cases
                      (pending_ahead blockHeight (Math_abs (currentSlot - blockHeight))))
            as [[_ ->] | [_ ->]]; reflexivity.
        + destruct (currentSlot - blockHeight <? 10); cbn [try_catch fst snd]; [|reflexivity].
          destruct (alternative_catch_cases
                      (pending_recent blockHeight (currentSlot - blockHeight)))
            as [[_ ->] | [_ ->]]; reflexivity.
      - destruct (alternative_catch_cases m) as [[_ ->] | [_ ->]]; reflexivity. }
    destruct (getBlock rpc blockHeight) as [[block|]|m]; try exact Halt.
    simpl. destruct (String.eqb (blockhash block) blockHash); reflexivity. }
  split; [exact Hsnd|].
  split_and!.
  - rewrite Hsnd. destruct (fst r) as [[|]|m]; try reflexivity.
    unfold addTrustedBlockHash. apply union_subseteq_r.
  - rewrite Hsnd. destruct (fst r) as [[|]|m]; try apply union_subseteq_r.
    unfold addTrustedBlockHash. reflexivity.
  - intros trusted2. subst r. unfold verifyBlockHash.
    assert (Halt : fst (alternative_validation rpc trusted2 blockHash blockHeight)
                   = fst (alternative_validation rpc trusted blockHash blockHeight)).
    { unfold alternative_validation, alternative_body.
      destruct (negb (test_class_repeat is_base58 32 44 blockHash)); [reflexivity|].
      destruct (getSlot rpc) as [currentSlot|m]; [|reflexivity].
      destruct (currentSlot - blockHeight <? 0); [reflexivity|].
      destruct (currentSlot - blockHeight <? 10); reflexivity. }
    destruct (getBlock rpc blockHeight) as [[block|]|m]; try exact Halt. reflexivity.
  - intros block Hb. subst r. unfold verifyBlockHash. rewrite Hb. reflexivity.
Qed.

Lemma rem2_even x : (Z.rem x 2 =? 0) = Z.even x.
Proof.
  pose proof (Z.quot_rem' x 2) as H.
  pose proof (Z.rem_bound_abs x 2 ltac:(lia)) as Hb.
  rewrite H at 2. rewrite Z.add_comm, Z.even_add_mul_2.
  assert (Hr : Z.rem x 2 = -1 \/ Z.rem x 2 = 0 \/ Z.rem x 2 = 1) by lia.
  destruct Hr as [-> | [-> | ->]]; reflexivity.
Qed.

Lemma merkle_step_index h e i k : merkle_step h e (i + 2 * k) = merkle_step h e i.
Proof. unfold merkle_step. now rewrite !rem2_even, Z.even_add_mul_2. Qed.

Lemma merkle_loop_index proof : forall h i k,
  merkle_loop h (i + k * 2 ^ Z.of_nat (length proof)) proof = merkle_loop h i proof.
Proof.
  induction proof as [|e proof IH]; intros h i k; [reflexivity|].
  cbn [merkle_loop length].
  rewrite Nat2Z.inj_succ, Z.pow_succ_r by lia.
  replace (i + k * (2 * 2 ^ Z.of_nat (length proof)))
    with (i + 2 * (k * 2 ^ Z.of_nat (length proof))) by lia.
  rewrite merkle_step_index.
  replace (i + 2 * (k * 2 ^ Z.of_nat (length proof)))
    with (i + (k * 2 ^ Z.of_nat (length proof)) * 2) by lia.
  rewrite Z.div_add by lia.
  apply IH.
Qed.

Lemma merkle_loop_app proof : forall h i e,
  merkle_loop h i (proof ++ [e])
  = merkle_step (merkle_loop h i proof) e (i / 2 ^ Z.of_nat (length proof)).
Proof.
  induction proof as [|e0 proof IH]; intros h i e.
  - simpl. now rewrite Z.div_1_r.
  - cbn [merkle_loop length app]. rewrite IH.
    rewrite Nat2Z.inj_succ, Z.pow_succ_r by lia.
    rewrite Z.div_div by lia. reflexivity.
Qed.

(** X2. [verifyMerkleProof] reads only the low bits of the leaf index, one
    per proof element: indices that differ by a multiple of two to the
    proof length get the same verdict. *)
Theorem verifyMerkleProof_index_wraps transactionHash merkleRoot proof leafIndex k :
  verifyMerkleProof transactionHash merkleRoot proof
    (leafIndex + k * 2 ^ Z.of_nat (length proof))
  = verifyMerkleProof transactionHash merkleRoot proof leafIndex.
Proof. unfold verifyMerkleProof. now rewrite merkle_loop_index. Qed.

End LightClientMoreFacts.

Section MerkleTreeFacts.
Import LightClientMore MerkleTree.

Lemma siblings_length t : forall i,
  perfect t = true -> length (siblings t i) = depth t.
Proof.
  induction t as [tx|l IHl r IHr]; intros i Hp; [reflexivity|].
  simpl in Hp. apply andb_prop in Hp as [Hp Hd]. apply andb_prop in Hp as [Hl Hr].
  apply Nat.eqb_eq in Hd.
  simpl. destruct (i <? 2 ^ Z.of_nat (depth l)); rewrite length_app; simpl.
  - rewrite IHl by assumption. lia.
  - rewrite IHr by assumption. lia.
Qed.

Lemma merkle_loop_siblings t : forall i,
  perfect t = true -> 0 <= i < 2 ^ Z.of_nat (depth t) ->
  merkle_loop (toHex (Sha256.sha256 (leaf t i))) i (siblings t i) = root t.
Proof.
  induction t as [tx|l IHl r IHr]; intros i Hp Hi; [reflexivity|].
  simpl in Hp. apply andb_prop in Hp as [Hp Hd]. apply andb_prop in Hp as [Hl Hr].
  apply Nat.eqb_eq in Hd.
  cbn [depth] in Hi. rewrite Nat2Z.inj_succ, Z.pow_succ_r in Hi by lia.
  assert (Hpos : 0 < 2 ^ Z.of_nat (depth l)) by (apply Z.pow_pos_nonneg; lia).
  cbn [leaf siblings root].
  destruct (i <? 2 ^ Z.of_nat (depth l)) eqn:E.
  - apply Z.ltb_lt in E.
    rewrite merkle_loop_app, IHl by (assumption || lia).
    rewrite siblings_length by assumption.
    rewrite Z.div_small by lia. reflexivity.
  - apply Z.ltb_ge in E.
    rewrite merkle_loop_app, siblings_length by assumption.
    replace (merkle_loop (toHex (Sha256.sha256 (leaf r (i - 2 ^ Z.of_nat (depth l))))) i
               (siblings r (i - 2 ^ Z.of_nat (depth l))))
      with (root r).
    + rewrite <- Hd.
      replace (i / 2 ^ Z.of_nat (depth l)) with 1; [reflexivity|].
      apply Z.div_unique with (r := i - 2 ^ Z.of_nat (depth l)); lia.
    + symmetry.
      rewrite <- (IHr (i - 2 ^ Z.of_nat (depth l))) by (assumption || (rewrite <- Hd; lia)).
      rewrite <- (merkle_loop_index (siblings r (i - 2 ^ Z.of_nat (depth l)))
                    _ (i - 2 ^ Z.of_nat (depth l)) 1).
      rewrite siblings_length by assumption. rewrite <- Hd.
      f_equal. lia.
Qed.

(** X3. In a perfect tree built as the comments of [verifyMerkleProof]
    describe, every leaf verifies against the root with its index and the
    list of its siblings from the bottom up. *)
Theorem verifyMerkleProof_complete t leafIndex :
  perfect t = true ->
  0 <= leafIndex < 2 ^ Z.of_nat (depth t) ->
  verifyMerkleProof (leaf t leafIndex) (root t) (siblings t leafIndex) leafIndex = true.
Proof.
  intros Hp Hi. unfold verifyMerkleProof.
  rewrite merkle_loop_siblings by assumption. apply String.eqb_refl.
Qed.

Lemma verifyMerkleProof_complete_witness :
  let t := Node (Node (Leaf "a") (Leaf "b")) (Node (Leaf "c") (Leaf "d")) in
  leaf t 2 = "c" /\
  verifyMerkleProof "c" (root t) [root (Leaf "d"); root (Node (Leaf "a") (Leaf "b"))] 2
  = true.
Proof.
  intros t. split; [reflexivity|].
  apply (verifyMerkleProof_complete t 2); [reflexivity|cbn; lia].
Defined.

End MerkleTreeFacts.

Section LightClientCheckpoint.
Import Solana SolanaLightClient LightClientMore.

Lemma merkle_loop_digest proof : forall h i,
  (exists x, h = toHex (Sha256.digest x)) ->
  exists y, merkle_loop h i proof = toHex (Sha256.digest y).
Proof.
  induction proof as [|e proof IH]; intros h i Hh; [exact Hh|].
  cbn [merkle_loop]. apply IH.
  unfold merkle_step, hash_pair. destruct (Z.rem i 2 =? 0); eexists; reflexivity.
Qed.

Lemma digest_hex_shape x : test_class_repeat is_hex_lower 64 64 (toHex (Sha256.digest x)) = true.
Proof.
  unfold test_class_repeat. rewrite toHex_length, digest_length, toHex_lower. reflexivity.
Qed.

Lemma merkle_loop_bytes proof : forall proof' h i,
  map fromHex proof = map fromHex proof' ->
  merkle_loop h i proof = merkle_loop h i proof'.
Proof.
  induction proof as [|e proof IH]; intros [|e' proof'] h i H; try discriminate; [reflexivity|].
  cbn [map] in H. injection H as He Hrest.
  cbn [merkle_loop].
  replace (merkle_step h e' i) with (merkle_step h e i).
  - now apply IH.
  - unfold merkle_step, hash_pair. now rewrite He.
Qed.

(** X4. [verifyMerkleProof] compares hex text: it accepts only a root
    written as 64 lower-case hexadecimal digits, while a proof element
    counts only through the bytes that [Buffer.from(_, 'hex')] reads from
    it, so elements with the same bytes are interchangeable. *)
Theorem verifyMerkleProof_text transactionHash merkleRoot proof proof' leafIndex :
  (verifyMerkleProof transactionHash merkleRoot proof leafIndex = true ->
   test_class_repeat is_hex_lower 64 64 merkleRoot = true) /\
  (map fromHex proof = map fromHex proof' ->
   verifyMerkleProof transactionHash merkleRoot proof leafIndex
   = verifyMerkleProof transactionHash merkleRoot proof' leafIndex).
Proof.
  unfold verifyMerkleProof. split.
  - intros H. apply String.eqb_eq in H. subst merkleRoot.
    destruct (merkle_loop_digest proof (toHex (Sha256.sha256 transactionHash)) leafIndex)
      as [y ->]; [eexists; reflexivity|].
    apply digest_hex_shape.
  - intros H. now rewrite (merkle_loop_bytes proof proof').
Qed.

(** An upper-case sibling and a sibling followed by text that is not
    hexadecimal verify like the plain one. *)
Lemma verifyMerkleProof_text_witness :
  let t := MerkleTree.Node (MerkleTree.Leaf "a") (MerkleTree.Leaf "b") in
  let sibling := MerkleTree.root (MerkleTree.Leaf "b") in
  test_class_repeat is_hex_lower 64 64 (MerkleTree.root t) = true /\
  verifyMerkleProof "a" (MerkleTree.root t) [sibling +:+ "zz"] 0
  = verifyMerkleProof "a" (MerkleTree.root t) [sibling] 0.
Proof.
  intros t sibling. split.
  - apply (proj1 (verifyMerkleProof_text "a" (MerkleTree.root t) [sibling] [] 0)).
    vm_compute. reflexivity.
  - apply (proj2 (verifyMerkleProof_text "a" (MerkleTree.root t)
                    [sibling +:+ "zz"] [sibling] 0)).
    vm_compute. reflexivity.
Defined.

(** X5. The checkpoint that [getLatestFinalizedBlock] returns has its
    height equal to the finalized slot, and [verifyBlockHash] on the same
    endpoint confirms it and trusts its hash. *)
Theorem checkpoint_verifies rpc trusted cp :
  getLatestFinalizedBlock rpc = Returns cp ->
  getSlot rpc = Returns (cp_slot cp) /\
  cp_blockHeight cp = cp_slot cp /\
  verifyBlockHash rpc trusted (cp_blockHash cp) (cp_blockHeight cp)
  = (Returns true, addTrustedBlockHash trusted (cp_blockHash cp)).
Proof.
  unfold getLatestFinalizedBlock, verifyBlockHash.
  destruct (getSlot rpc) as [slot|m]; [|discriminate].
  cbn [mbind outcome_bind Js.bind].
  destruct (getBlock rpc slot) as [[block|]|m] eqn:Hb; cbn [mbind outcome_bind Js.bind];
    try discriminate.
  intros H. injection H as <-. cbn [cp_slot cp_blockHeight cp_blockHash].
  rewrite Hb, String.eqb_refl. auto.
Qed.

Lemma checkpoint_verifies_witness :
  let cp := {| cp_slot := 200; cp_blockHash := Samples.block_hash; cp_blockHeight := 200 |} in
  getLatestFinalizedBlock Samples.rpc_finalized = Returns cp /\
  verifyBlockHash Samples.rpc_finalized ∅ Samples.block_hash 200
  = (Returns true, addTrustedBlockHash ∅ Samples.block_hash).
Proof.
  intros cp.
  assert (H : getLatestFinalizedBlock Samples.rpc_finalized = Returns cp) by reflexivity.
  split; [exact H|].
  exact (proj2 (proj2 (checkpoint_verifies Samples.rpc_finalized ∅ cp H))).
Defined.

End LightClientCheckpoint.

Section ProofValidatorMore.
Import Solana SolanaLightClient UnicityProofValidator.

Lemma validateLockEvent_ok e :
  validateLockEvent e = Returns tt ->
  length (BC.lockId e) = 32%nat /\ 0 < BC.amount e /\
  BC.unicityRecipient e <> EmptyString /\ 0 <= BC.nonce e /\ 0 < BC.timestamp e.
Proof.
  unfold validateLockEvent.
  destruct (length (BC.lockId e) =? 32)%nat eqn:E1; cbn [negb]; [|discriminate].
  destruct (BC.amount e <=? 0) eqn:E2; [discriminate|].
  destruct (String.length (BC.unicityRecipient e) =? 0)%nat eqn:E3; [discriminate|].
  destruct (BC.nonce e <? 0) eqn:E4; [discriminate|].
  destruct (BC.timestamp e <=? 0) eqn:E5; [discriminate|].
  intros _. apply Nat.eqb_eq in E1. apply Z.leb_gt in E2. apply Nat.eqb_neq in E3.
  apply Z.ltb_ge in E4. apply Z.leb_gt in E5.
  split_and!; try assumption.
  intros H. rewrite H in E3. apply E3. reflexivity.
Qed.

(** X6. [validateLockEvent] accepts exactly the events with a 32-byte lock
    id, a positive amount, a non-empty recipient, a non-negative nonce and
    a positive timestamp; for any other event [validateGenesisProof]
    throws its error whatever the endpoint answers, and leaves the trusted
    block hashes as they were. *)
Theorem invalid_event_rejected rpc pid now trusted proof :
  let e := BC.event proof in
  (validateLockEvent e = Returns tt <->
   length (BC.lockId e) = 32%nat /\ 0 < BC.amount e /\
   BC.unicityRecipient e <> EmptyString /\ 0 <= BC.nonce e /\ 0 < BC.timestamp e) /\
  (forall m, validateLockEvent e = Throws m ->
     validateGenesisProof rpc pid now trusted proof = (Throws m, trusted)).
Proof.
  intros e. split.
  - split; [apply validateLockEvent_ok|].
    intros (H1 & H2 & H3 & H4 & H5). unfold validateLockEvent.
    apply Nat.eqb_eq in H1. rewrite H1. cbn [negb].
    destruct (BC.amount e <=? 0) eqn:E2; [apply Z.leb_le in E2; lia|].
    destruct (BC.unicityRecipient e) eqn:E3; [contradiction|]. cbn [String.length Nat.eqb].
    destruct (BC.nonce e <? 0) eqn:E4; [apply Z.ltb_lt in E4; lia|].
    destruct (BC.timestamp e <=? 0) eqn:E5; [apply Z.leb_le in E5; lia|].
    reflexivity.
  - intros m H. unfold validateGenesisProof. fold e. rewrite H. reflexivity.
Qed.

Lemma invalid_event_rejected_witness :
  let proof := Samples.proof_with Samples.block_hash None None in
  validateLockEvent (BC.event proof) = Returns tt.
Proof.
  intros proof.
  apply (proj1 (invalid_event_rejected Samples.rpc_finalized "" 0 ∅ proof)).
  cbv; split_and!; try reflexivity; discriminate.
Defined.

Lemma existsb_eqb_In pid keys :
  existsb (fun key => String.eqb key pid) keys = true <-> In pid keys.
Proof.
  rewrite existsb_exists. split.
  - intros (k & Hk & E). apply String.eqb_eq in E. now subst.
  - intros H. exists pid. split; [exact H|apply String.eqb_refl].
Qed.

(** X7. [validateTransactionExists] succeeds in two cases only: the
    endpoint returns the transaction and the bridge program is among its
    account keys, or it returns no transaction and the signature status
    exists without error (the program is then not looked at). Every
    failure carries the prefix "Transaction validation failed: ". *)
Theorem validateTransactionExists_cases rpc pid signature :
  (validateTransactionExists rpc pid signature = Returns tt <->
   (exists tx body,
      getTransaction rpc signature = Returns (Some tx) /\
      Solana.transaction tx = Some body /\ In pid (staticAccountKeys body)) \/
   (getTransaction rpc signature = Returns None /\
    exists st, getSignatureStatus rpc signature = Returns (Some st) /\ err st = None)) /\
  (forall m, validateTransactionExists rpc pid signature = Throws m ->
     startsWith m "Transaction validation failed: " = true).
Proof.
  unfold validateTransactionExists, validateTransactionExists_body. split.
  - destruct (getTransaction rpc signature) as [[tx|]|m];
      cbn [mbind outcome_bind Js.bind try_catch].
    + destruct (Solana.transaction tx) as [body|] eqn:Hb; cbn [try_catch].
      * destruct (existsb (fun key => String.eqb key pid) (staticAccountKeys body)) eqn:E;
          cbn [negb try_catch].
        -- split; [intros _|reflexivity]. left. exists tx, body.
           split_and!; [reflexivity|assumption|now apply existsb_eqb_In].
        -- split; [discriminate|].
           intros [(tx' & body' & Ht & Hb' & Hin) | (Ht & _)]; [|discriminate].
           injection Ht as <-. rewrite Hb in Hb'. injection Hb' as <-.
           apply existsb_eqb_In in Hin. congruence.
      * split; [discriminate|].
        intros [(tx' & body' & Ht & Hb' & _) | (Ht & _)]; [|discriminate].
        injection Ht as <-. congruence.
    + destruct (getSignatureStatus rpc signature) as [[st|]|m];
        cbn [mbind outcome_bind Js.bind try_catch].
      * destruct (err st) as [e|] eqn:He; cbn [try_catch].
        -- split; [discriminate|].
           intros [(tx' & body' & Ht & _) | (_ & st' & Hs & He')]; [discriminate|].
           injection Hs as <-. congruence.
        -- split; [intros _|reflexivity]. right. split; [reflexivity|].
           exists st. split; [reflexivity|assumption].
      * split; [discriminate|].
        intros [(tx' & body' & Ht & _) | (_ & st' & Hs & _)]; discriminate.
      * split; [discriminate|].
        intros [(tx' & body' & Ht & _) | (_ & st' & Hs & _)]; discriminate.
    + split; [discriminate|].
      intros [(tx' & body' & Ht & _) | (Ht & _)]; discriminate.
  - intros m.
    match goal with |- try_catch ?c _ = _ -> _ => destruct c as [u|m0] end;
      cbn [try_catch]; [discriminate|].
    intros H. injection H as <-. apply prefix_append.
Qed.

(** X8. When the block is pending, or the stored status does not pass the
    confirmation step, [validateGenesisProof] returns its proof without
    looking for the transaction: the result is the same for every bridge
    program id and for every endpoint that agrees on the finalized block
    and slot. *)
Theorem existence_check_skipped rpc rpc' pid pid' now trusted proof b :
  getBlock rpc (BC.blockHeight proof) = getBlock rpc' (BC.blockHeight proof) ->
  getSlot rpc = getSlot rpc' ->
  validateLockEvent (BC.event proof) = Returns tt ->
  fst (verify_block_step rpc trusted proof) = Returns b ->
  b && verify_status_step proof = false ->
  validateGenesisProof rpc pid now trusted proof
  = (Returns (build_genesisProof now proof b (verify_status_step proof)),
     snd (verify_block_step rpc trusted proof)) /\
  validateGenesisProof rpc' pid' now trusted proof
  = validateGenesisProof rpc pid now trusted proof.
Proof.
  intros Hblock Hslot Hev Hstep Hb.
  assert (Hsame : verify_block_step rpc' trusted proof = verify_block_step rpc trusted proof).
  { unfold verify_block_step, verifyBlockHash, alternative_validation, alternative_body.
    rewrite Hblock, Hslot. reflexivity. }
  assert (H1 : forall r p, verify_block_step r trusted proof = verify_block_step rpc trusted proof ->
             validateGenesisProof r p now trusted proof
             = (Returns (build_genesisProof now proof b (verify_status_step proof)),
                snd (verify_block_step rpc trusted proof))).
  { intros r p Hr. unfold validateGenesisProof. rewrite Hev, Hr.
    destruct (verify_block_step rpc trusted proof) as [s t]. cbn [fst snd] in *.
    subst s. rewrite Hb. reflexivity. }
  split; [apply H1; reflexivity|].
  rewrite (H1 rpc' pid' Hsame). symmetry. apply H1. reflexivity.
Qed.

Lemma existence_check_skipped_witness :
  let rpc' := {| getBlock := getBlock Samples.rpc_ahead;
                 getSlot := getSlot Samples.rpc_ahead;
                 getSignatureStatuses := fun _ => Throws "unreachable";
                 getSignatureStatus := fun _ => Throws "unreachable";
                 getTransaction := fun _ => Returns None |} in
  validateGenesisProof rpc' "another program" 0 ∅ Samples.proof_data
  = validateGenesisProof Samples.rpc_ahead CompleteDemo.bridgeProgramId 0 ∅ Samples.proof_data.
Proof.
  intros rpc'.
  apply (existence_check_skipped Samples.rpc_ahead rpc' CompleteDemo.bridgeProgramId
           "another program" 0 ∅ Samples.proof_data false).
  - reflexivity.
  - reflexivity.
  - vm_compute; reflexivity.
  - vm_compute; reflexivity.
  - reflexivity.
Defined.

End ProofValidatorMore.

Section TextShape.

Lemma toString_nonempty z : truthy_string (toString z) = true.
Proof.
  unfold toString. destruct (Z.to_int z) as [d|d]; [|reflexivity].
  destruct d; reflexivity.
Qed.

Lemma toHex_nonempty l : l <> [] -> truthy_string (toHex l) = true.
Proof. destruct l; [contradiction|reflexivity]. Qed.

Lemma base58_digits_acc fuel : forall n acc,
  truthy_string acc = true -> truthy_string (base58_digits fuel n acc) = true.
Proof.
  induction fuel as [|fuel IH]; intros n acc H; [exact H|].
  simpl. destruct (n =? 0)%N; [exact H|]. apply IH. reflexivity.
Qed.

Lemma be_to_N_acc l : forall acc,
  (0 < acc)%N -> (0 < fold_left (fun acc b => acc * 256 + Byte.to_N b) l acc)%N.
Proof.
  induction l as [|b l IH]; intros acc H; [exact H|].
  simpl. apply IH. lia.
Qed.

Lemma string_app_nonempty a b :
  truthy_string a = true \/ truthy_string b = true -> truthy_string (a +:+ b) = true.
Proof. destruct a; simpl; [intros [H|H]; [discriminate|exact H]|reflexivity]. Qed.

Lemma base58_nonempty l : l <> [] -> truthy_string (base58_encode l) = true.
Proof.
  destruct l as [|b rest]; [contradiction|]. intros _.
  unfold base58_encode. apply string_app_nonempty.
  destruct (Byte.to_N b) as [|p] eqn:Hb.
  - left. assert (b = Byte.x00) as ->.
    { apply (f_equal Byte.of_N) in Hb. rewrite Byte.of_to_N in Hb.
      injection Hb as <-. reflexivity. }
    reflexivity.
  - right.
    assert (Hn : (0 < be_to_N (b :: rest))%N).
    { unfold be_to_N. cbn [fold_left]. apply be_to_N_acc. lia. }
    cbn [length]. replace (2 * S (length rest))%nat with (S (S (2 * length rest))) by lia.
    generalize (S (2 * length rest)). intros fuel.
    cbn [base58_digits].
    destruct (be_to_N (b :: rest) =? 0)%N eqn:E; [apply N.eqb_eq in E; lia|].
    apply base58_digits_acc. reflexivity.
Qed.

End TextShape.

Section BridgeClientFacts.
Import Solana SolanaLightClient UnicityProofValidator SolanaBridgeClient.

Lemma generateProof_returns c event signature slot proof :
  generateProof c event signature slot = Returns proof ->
  exists tx st blockTime,
    getTransaction c signature = Returns (Some tx) /\
    getSignatureStatuses c signature = Returns (Some st) /\ Solana.err st = None /\
    proof = {| BC.event := event; BC.proof_slot := slot;
               BC.blockHash := match getBlock c slot with
                               | Returns (Some block) => block_hash block
                               | _ => EmptyString
                               end;
               BC.blockHeight := slot;
               BC.transaction :=
                 {| BC.signature := signature; BC.slot := slot;
                    BC.blockTime := blockTime;
                    BC.fullTransaction := Some (details tx) |};
               BC.signatureStatus := Some st |}.
Proof.
  unfold generateProof.
  destruct (getTransaction c signature) as [[tx|]|m]; cbn [mbind outcome_bind Js.bind];
    try discriminate.
  destruct (getSignatureStatuses c signature) as [[st|]|m]; cbn [mbind outcome_bind Js.bind];
    try discriminate.
  destruct (Solana.err st) as [e|] eqn:He; [discriminate|].
  intros H. exists tx, st.
  destruct (getBlock c slot) as [[block|]|m]; injection H as <-;
    eexists; split_and!; (reflexivity || assumption).
Qed.

(** X9. [generateProof] returns exactly when the transaction is found and
    its signature status exists without error; the proof then carries the
    event and the signature it was given, the slot as its height, that
    status, and the hash of the confirmed block, or the empty text when
    the block request gave nothing or failed. *)
Theorem generateProof_cases c event signature slot :
  (is_returns (generateProof c event signature slot) = true <->
   exists tx st,
     getTransaction c signature = Returns (Some tx) /\
     getSignatureStatuses c signature = Returns (Some st) /\ Solana.err st = None) /\
  (forall proof, generateProof c event signature slot = Returns proof ->
     BC.event proof = event /\
     BC.signature (BC.transaction proof) = signature /\
     BC.proof_slot proof = slot /\ BC.blockHeight proof = slot /\
     BC.slot (BC.transaction proof) = slot /\
     (exists tx, getTransaction c signature = Returns (Some tx) /\
        BC.fullTransaction (BC.transaction proof) = Some (details tx)) /\
     (exists st, getSignatureStatuses c signature = Returns (Some st) /\
        Solana.err st = None /\ BC.signatureStatus proof = Some st) /\
     BC.blockHash proof =
       match getBlock c slot with
       | Returns (Some block) => block_hash block
       | _ => EmptyString
       end).
Proof.
  split.
  - unfold generateProof.
    destruct (getTransaction c signature) as [[tx|]|m]; cbn [mbind outcome_bind Js.bind].
    2,3: split; [discriminate|intros (? & ? & ? & _); discriminate].
    destruct (getSignatureStatuses c signature) as [[st|]|m];
      cbn [mbind outcome_bind Js.bind].
    2,3: split; [discriminate|intros (? & ? & _ & ? & _); discriminate].
    destruct (Solana.err st) as [e|] eqn:He.
    { split; [discriminate|].
      intros (? & st' & _ & Hs & He'). injection Hs as <-. congruence. }
    split; [intros _; exists tx, st; auto|intros _].
    destruct (getBlock c slot) as [[block|]|m]; reflexivity.
  - intros proof H.
    destruct (generateProof_returns c event signature slot proof H)
      as (tx' & st' & bt & Ht & Hs & He' & ->). cbn.
    split_and!; try reflexivity.
    + exists tx'. auto.
    + exists st'. auto.
Qed.

Lemma format_valid_empty : test_class_repeat is_base58 32 44 EmptyString = false.
Proof. reflexivity. Qed.

(** X10. A proof that [generateProof] built while the block was not
    served has an empty block hash, and [validateGenesisProof] rejects it
    with "Block hash verification failed" on every endpoint whose blocks
    have a hash: it is never treated as pending. *)
Theorem proof_without_block_hash_rejected c rpc pid now trusted event signature slot proof :
  generateProof c event signature slot = Returns proof ->
  (forall block, getBlock c slot <> Returns (Some block)) ->
  validateLockEvent event = Returns tt ->
  (forall block, Solana.getBlock rpc slot = Returns (Some block) ->
     Solana.blockhash block <> EmptyString) ->
  BC.blockHash proof = EmptyString /\
  validateGenesisProof rpc pid now trusted proof
  = (Throws "Block hash verification failed", trusted).
Proof.
  intros Hgen Hnone Hev Hrpc.
  destruct (generateProof_returns c event signature slot proof Hgen)
    as (tx & st & bt & _ & _ & _ & Hp).
  assert (He : BC.event proof = event) by (subst proof; reflexivity).
  assert (Hh : BC.blockHeight proof = slot) by (subst proof; reflexivity).
  assert (Hempty : BC.blockHash proof = EmptyString).
  { subst proof. cbn. destruct (getBlock c slot) as [[block|]|m]; try reflexivity.
    exfalso. apply (Hnone block). reflexivity. }
  clear Hp.
  split; [exact Hempty|].
  assert (Hv : verifyBlockHash rpc trusted (BC.blockHash proof) (BC.blockHeight proof)
               = (Returns false, trusted)).
  { rewrite Hempty, Hh. unfold verifyBlockHash.
    assert (Halt : alternative_validation rpc trusted EmptyString slot
                   = (Returns false, trusted)) by reflexivity.
    destruct (Solana.getBlock rpc slot) as [[block|]|m] eqn:Hblock; try exact Halt.
    specialize (Hrpc block eq_refl).
    destruct (Solana.blockhash block); [contradiction|reflexivity]. }
  unfold validateGenesisProof. rewrite He, Hev.
  unfold verify_block_step. rewrite Hv. reflexivity.
Qed.

End BridgeClientFacts.

Section BridgeClientChecks.
Import Solana SolanaLightClient UnicityProofValidator SolanaBridgeClient.

Lemma proof_without_block_hash_rejected_witness :
  let c := MoreSamples.connection_with (Throws "Block not available") in
  exists proof,
    generateProof c Samples.lock_event Samples.tx_signature 100 = Returns proof /\
    validateGenesisProof Samples.rpc_finalized CompleteDemo.bridgeProgramId 0 ∅ proof
    = (Throws "Block hash verification failed", ∅).
Proof.
  intros c. eexists. split; [reflexivity|].
  refine (proj2 (proof_without_block_hash_rejected c Samples.rpc_finalized
                   CompleteDemo.bridgeProgramId 0 ∅ Samples.lock_event
                   Samples.tx_signature 100 _ eq_refl _ _ _)).
  - intros block. discriminate.
  - reflexivity.
  - intros block H. injection H as <-. discriminate.
Defined.

(** X11. Every proof that passes the event check and the confirmation
    step of the validator and has a signature is accepted by the static
    [verifyProof] of the bridge client. *)
Theorem verifyProof_accepts_validated proof :
  validateLockEvent (BC.event proof) = Returns tt ->
  verify_status_step proof = true ->
  BC.signature (BC.transaction proof) <> EmptyString ->
  verifyProof proof = true.
Proof.
  intros Hev Hst Hsig.
  apply validateLockEvent_ok in Hev.
  destruct Hev as (Hid & Hamt & _).
  unfold verifyProof.
  apply Nat.eqb_eq in Hid. rewrite Hid. cbn [negb].
  destruct (BC.amount (BC.event proof) <=? 0) eqn:E; [apply Z.leb_le in E; lia|].
  destruct (BC.signature (BC.transaction proof)) eqn:Es; [contradiction|]. cbn [truthy_string negb].
  unfold verify_status_step in Hst.
  destruct (BC.signatureStatus proof) as [st|]; [|discriminate].
  destruct (confirmationStatus st) as [cs|]; [|discriminate].
  destruct (confirmations st); [|discriminate].
  destruct (slot st); [|discriminate].
  destruct (truthy_string cs); [|discriminate].
  unfold verifySignatureStatus in Hst.
  destruct (Solana.err st); [discriminate|].
  cbn [negb orb].
  destruct (existsb (String.eqb cs) ["processed"; "confirmed"; "finalized"]);
    [reflexivity|discriminate].
Qed.

Lemma verifyProof_accepts_validated_witness : verifyProof Samples.proof_data = true.
Proof.
  refine (verifyProof_accepts_validated Samples.proof_data _ _ _).
  - reflexivity.
  - reflexivity.
  - discriminate.
Defined.

(** X12. [ProofUtils.verifyProofIntegrity] accepts every genesis proof
    that [validateGenesisProof] returns for an event with an account, a
    signature and a height other than zero; the lock id it computes from
    the event is not compared with the stored one. *)
Theorem verifyProofIntegrity_of_validated rpc pid now trusted proof gp :
  fst (validateGenesisProof rpc pid now trusted proof) = Returns gp ->
  BC.user (BC.event proof) <> [] ->
  BC.signature (BC.transaction proof) <> EmptyString ->
  BC.blockHeight proof <> 0 ->
  ProofUtils.verifyProofIntegrity gp = true.
Proof.
  intros Hgp Huser Hsig Hheight.
  assert (Hev : validateLockEvent (BC.event proof) = Returns tt).
  { rewrite validateGenesisProof_unfold in Hgp.
    destruct (validateLockEvent (BC.event proof)) as [[]|m]; [reflexivity|discriminate]. }
  apply validateLockEvent_ok in Hev.
  destruct Hev as (Hid & _).
  destruct (validateGenesisProof_returns _ _ _ _ _ _ Hgp) as (b & _ & ->).
  unfold ProofUtils.verifyProofIntegrity.
  cbn [build_genesisProof Genesis.lockEvent Genesis.solanaTransaction genesis_lockEvent
       Genesis.lockId Genesis.user Genesis.amount Genesis.blockHeight Genesis.signature].
  rewrite toHex_nonempty, base58_nonempty, toString_nonempty by
    (try assumption; intros H; rewrite H in Hid; discriminate).
  destruct (BC.signature (BC.transaction proof)); [contradiction|].
  destruct (BC.blockHeight proof =? 0) eqn:E; [apply Z.eqb_eq in E; contradiction|].
  reflexivity.
Qed.

(** The converse of the acceptance fails: [verifyProof] does not ask for
    numeric confirmations. *)
Example verifyProof_weaker :
  verifyProof Samples.proof_finalized = true /\
  verify_status_step Samples.proof_finalized = false.
Proof. split; reflexivity. Qed.

Lemma verifyProofIntegrity_of_validated_witness :
  ProofUtils.verifyProofIntegrity Samples.genesis_validated = true /\
  Genesis.lockId (Genesis.lockEvent Samples.genesis_validated)
  <> ProofUtils.generateLockId
       (Genesis.user (Genesis.lockEvent Samples.genesis_validated)) "100000000" "0"
       "1700000000".
Proof.
  split.
  - refine (verifyProofIntegrity_of_validated Samples.rpc_finalized
              CompleteDemo.bridgeProgramId 0 ∅ Samples.proof_data _ _ _ _ _).
    + vm_compute. reflexivity.
    + discriminate.
    + discriminate.
    + discriminate.
  - vm_compute. discriminate.
Defined.

End BridgeClientChecks.

Section SdkMintFacts.
Import SdkMint.

(** X13. The mint submits nothing and writes no file unless a wallet is
    loaded and the key it is called with is the public key of that
    wallet. *)
Theorem mint_requires_authorization sdk proof minterPublicKey outputDir bridgeProgramId :
  snd (mintBridgedTokenWithSDK sdk proof minterPublicKey outputDir bridgeProgramId) <> [] ->
  exists wallet,
    loadUnicityWallet sdk = Some wallet /\ minterPublicKey = publicKey wallet.
Proof.
  unfold mintBridgedTokenWithSDK.
  destruct (loadUnicityWallet sdk) as [wallet|]; [|intros H; now contradiction H].
  unfold validateMinterAuthorization.
  destruct (String.eqb minterPublicKey (publicKey wallet)) eqn:E; cbn [negb].
  - intros _. exists wallet. split; [reflexivity|]. now apply String.eqb_eq.
  - intros H. now contradiction H.
Qed.

Lemma mint_requires_authorization_witness :
  exists wallet,
    loadUnicityWallet Samples.sdk_accepting = Some wallet /\
    "[SHA256]" +:+ Samples.digest_recipient = publicKey wallet.
Proof.
  apply (mint_requires_authorization Samples.sdk_accepting Samples.genesis_validated
           ("[SHA256]" +:+ Samples.digest_recipient) "demo-output"
           CompleteDemo.bridgeProgramId).
  vm_compute. discriminate.
Defined.

(** The shape of a run of the mint: the data it submits, if it gets that
    far, and what follows. *)
Lemma mint_run sdk proof minterPublicKey outputDir bridgeProgramId :
  let r := mintBridgedTokenWithSDK sdk proof minterPublicKey outputDir bridgeProgramId in
  (exists m, r = (Throws m, [])) \/
  exists wallet amount recipient,
    loadUnicityWallet sdk = Some wallet /\
    BigInt (Genesis.amount (Genesis.lockEvent proof)) = Returns amount /\
    directAddress sdk (tokenIdHash proof) (tokenTypeHash bridgeProgramId) wallet
      = Returns recipient /\
    let data := {| mint_tokenId := tokenIdHash proof;
                   mint_tokenType := tokenTypeHash bridgeProgramId;
                   mint_tokenData := tokenData proof;
                   mint_coinData := [("BRIDGED_SOL", amount)];
                   mint_recipient := recipient;
                   mint_salt := saltHash proof;
                   mint_dataHash := Sha256.digest (encode sdk (tokenData proof)) |} in
    ((exists m, r = (Throws m, [Submitted data])) \/
     exists commitment,
       submitMintTransaction sdk data = Returns commitment /\
       waitInclusionProof sdk commitment = Returns tt /\
       createTransaction sdk commitment = Returns tt /\
       r = (Returns {| commitment := commitment;
                       tokenFile := outputDir +:+ "/unicity-token-" +:+ lockIdHex proof
                                    +:+ ".json";
                       ownerFile := outputDir +:+ "/token-owner-" +:+ lockIdHex proof
                                    +:+ ".json";
                       genesisFile := outputDir +:+ "/genesis-record-" +:+ lockIdHex proof
                                      +:+ ".json" |},
            [ Submitted data;
              WroteOwnerFile (outputDir +:+ "/token-owner-" +:+ lockIdHex proof +:+ ".json")
                minterPublicKey (toHex (tokenIdHash proof)) commitment;
              WroteTokenFile (outputDir +:+ "/unicity-token-" +:+ lockIdHex proof +:+ ".json")
                (token_of data commitment);
              WroteGenesisRecord
                (outputDir +:+ "/genesis-record-" +:+ lockIdHex proof +:+ ".json") proof ])).
Proof.
  intros r. subst r. unfold mintBridgedTokenWithSDK.
  destruct (loadUnicityWallet sdk) as [wallet|]; [|left; eexists; reflexivity].
  destruct (negb (validateMinterAuthorization minterPublicKey wallet));
    [left; eexists; reflexivity|].
  destruct (BigInt (Genesis.amount (Genesis.lockEvent proof))) as [amount|m] eqn:Ha;
    [|left; eexists; reflexivity].
  destruct (directAddress sdk (tokenIdHash proof) (tokenTypeHash bridgeProgramId) wallet)
    as [recipient|m] eqn:Hd; [|left; eexists; reflexivity].
  right. exists wallet, amount, recipient. split_and!; try reflexivity; try assumption.
  cbv zeta.
  match goal with |- context [submitMintTransaction sdk ?d] =>
    destruct (submitMintTransaction sdk d) as [commitment|m] eqn:Hs end;
    [|left; eexists; reflexivity].
  destruct (waitInclusionProof sdk commitment) as [[]|m] eqn:Hw;
    cbn [mbind outcome_bind Js.bind]; [|left; eexists; reflexivity].
  destruct (createTransaction sdk commitment) as [[]|m] eqn:Hc; [|left; eexists; reflexivity].
  right. exists commitment. split_and!; try reflexivity; assumption.
Qed.

(** X14. The mint writes its three files only when it returns, that is
    after the network accepted the submission, the inclusion proof arrived
    and the transaction was created, and it names them after the first
    eight characters of the lock id; a mint that throws leaves at most the
    submission behind. *)
Theorem mint_files_only_on_success sdk proof minterPublicKey outputDir bridgeProgramId :
  let r := mintBridgedTokenWithSDK sdk proof minterPublicKey outputDir bridgeProgramId in
  match fst r with
  | Returns res =>
      exists data,
        submitMintTransaction sdk data = Returns (commitment res) /\
        waitInclusionProof sdk (commitment res) = Returns tt /\
        createTransaction sdk (commitment res) = Returns tt /\
        ownerFile res = outputDir +:+ "/token-owner-" +:+ lockIdHex proof +:+ ".json" /\
        tokenFile res = outputDir +:+ "/unicity-token-" +:+ lockIdHex proof +:+ ".json" /\
        genesisFile res = outputDir +:+ "/genesis-record-" +:+ lockIdHex proof +:+ ".json" /\
        snd r = [ Submitted data;
                  WroteOwnerFile (ownerFile res) minterPublicKey
                    (toHex (mint_tokenId data)) (commitment res);
                  WroteTokenFile (tokenFile res) (token_of data (commitment res));
                  WroteGenesisRecord (genesisFile res) proof ]
  | Throws _ => snd r = [] \/ exists data, snd r = [Submitted data]
  end.
Proof.
  intros r.
  destruct (mint_run sdk proof minterPublicKey outputDir bridgeProgramId)
    as [(m & H) | (wallet & amount & recipient & _ & _ & _ & H)].
  - subst r. rewrite H. left. reflexivity.
  - cbv zeta in H. destruct H as [(m & H) | (commitment & Hs & Hw & Hc & H)];
      subst r; rewrite H; cbn [fst snd].
    + right. eexists. reflexivity.
    + eexists. cbn [SdkMint.commitment ownerFile tokenFile genesisFile].
      split_and!; [eassumption|assumption|assumption|reflexivity..].
Qed.

(** X15. The token id and the salt that the mint submits are the hashes
    of the commitment string with the suffixes "_tokenId" and "_salt":
    mints of the same bridge proof ask for the same id and salt whatever
    the wallet, the output directory, the program id, the validation time
    and the outcome of the block and status verification. *)
Theorem mint_token_identity sdk1 sdk2 proof now1 now2 b1 s1 b2 s2
    key1 key2 dir1 dir2 pid1 pid2 data1 data2 :
  let gp1 := UnicityProofValidator.build_genesisProof now1 proof b1 s1 in
  let gp2 := UnicityProofValidator.build_genesisProof now2 proof b2 s2 in
  In (Submitted data1) (snd (mintBridgedTokenWithSDK sdk1 gp1 key1 dir1 pid1)) ->
  In (Submitted data2) (snd (mintBridgedTokenWithSDK sdk2 gp2 key2 dir2 pid2)) ->
  mint_tokenId data1 = Sha256.sha256 (commitmentData gp1 +:+ "_tokenId") /\
  mint_salt data1 = Sha256.sha256 (commitmentData gp1 +:+ "_salt") /\
  mint_tokenId data1 = mint_tokenId data2 /\
  mint_salt data1 = mint_salt data2.
Proof.
  intros gp1 gp2 H1 H2.
  assert (Hsub : forall sdk gp key dir pid data,
             In (Submitted data) (snd (mintBridgedTokenWithSDK sdk gp key dir pid)) ->
             mint_tokenId data = tokenIdHash gp /\ mint_salt data = saltHash gp).
  { intros sdk gp key dir pid data Hin.
    destruct (mint_run sdk gp key dir pid)
      as [(m & H) | (wallet & amount & recipient & _ & _ & _ & H)].
    - rewrite H in Hin. destruct Hin.
    - cbv zeta in H. destruct H as [(m & H) | (commitment & _ & _ & _ & H)];
        rewrite H in Hin; cbn [snd] in Hin.
      + destruct Hin as [Hin|[]]. injection Hin as <-. split; reflexivity.
      + destruct Hin as [Hin|[Hin|[Hin|[Hin|[]]]]]; try discriminate.
        injection Hin as <-. split; reflexivity. }
  destruct (Hsub _ _ _ _ _ _ H1) as (Ht1 & Hs1).
  destruct (Hsub _ _ _ _ _ _ H2) as (Ht2 & Hs2).
  rewrite Ht1, Hs1, Ht2, Hs2. split_and!; reflexivity.
Qed.

Lemma mint_token_identity_witness :
  let sdk2 := {| loadUnicityWallet :=
                   Some {| secret := []; wallet_nonce := []; publicKey := "another key" |};
                 encode := fun _ => [];
                 directAddress := fun _ _ _ => Returns "DIRECT://ffff";
                 submitMintTransaction := fun _ => Throws "REQUEST_ID_EXISTS";
                 waitInclusionProof := fun _ => Returns tt;
                 createTransaction := fun _ => Returns tt |} in
  exists data1 data2,
    hd_error (snd (mintBridgedTokenWithSDK Samples.sdk_accepting
                     (UnicityProofValidator.build_genesisProof 0 Samples.proof_data true true)
                     ("[SHA256]" +:+ Samples.digest_recipient) "demo-output"
                     CompleteDemo.bridgeProgramId)) = Some (Submitted data1) /\
    hd_error (snd (mintBridgedTokenWithSDK sdk2
                     (UnicityProofValidator.build_genesisProof 5 Samples.proof_data false false)
                     "another key" "elsewhere" "another program"))
    = Some (Submitted data2) /\
    mint_tokenId data1 = mint_tokenId data2 /\
    mint_salt data1 = mint_salt data2.
Proof.
  intros sdk2. eexists. eexists.
  split; [vm_compute; reflexivity|].
  split; [vm_compute; reflexivity|].
  refine (proj2 (proj2 (mint_token_identity Samples.sdk_accepting sdk2 Samples.proof_data
                          0 5 true true false false
                          ("[SHA256]" +:+ Samples.digest_recipient) "another key"
                          "demo-output" "elsewhere"
                          CompleteDemo.bridgeProgramId "another program" _ _ _ _)));
    vm_compute; left; reflexivity.
Defined.

End SdkMintFacts.

Section CommitmentText.
Import SdkMint UnicityProofValidator.

Lemma split_at_bar p : forall a a' r r',
  p "|"%char = false ->
  all_chars p a = true -> all_chars p a' = true ->
  a +:+ "|" +:+ r = a' +:+ "|" +:+ r' -> a = a' /\ r = r'.
Proof.
  intros a a' r r' Hp. revert a'.
  induction a as [|c a IH]; intros [|c' a'] Ha Ha' H.
  - change (String "|" r = String "|" r') in H. injection H as ->. auto.
  - change (String "|" r = String c' (a' +:+ "|" +:+ r')) in H. injection H as <- _.
    cbn in Ha'. apply andb_prop in Ha' as [Hc _]. congruence.
  - change (String c (a +:+ "|" +:+ r) = String "|" r') in H. injection H as -> _.
    cbn in Ha. apply andb_prop in Ha as [Hc _]. congruence.
  - change (String c (a +:+ "|" +:+ r) = String c' (a' +:+ "|" +:+ r')) in H.
    injection H as <- H. cbn in Ha, Ha'.
    apply andb_prop in Ha as [_ Ha]. apply andb_prop in Ha' as [_ Ha'].
    destruct (IH a' Ha Ha' H) as [-> ->]. auto.
Qed.


Lemma all_chars_app p a b :
  all_chars p (a +:+ b) = all_chars p a && all_chars p b.
Proof. induction a as [|c a IH]; [reflexivity|]. simpl. now rewrite IH, andb_assoc. Qed.

Lemma get_all_chars p s : forall k c,
  all_chars p s = true -> String.get k s = Some c -> p c = true.
Proof.
  induction s as [|c0 s IH]; intros k c Hs Hg; [discriminate|].
  cbn in Hs. apply andb_prop in Hs as [Hc Hs].
  destruct k; cbn in Hg; [congruence|]. eapply IH; eassumption.
Qed.

Lemma base58_digit_class n : is_base58 (base58_digit n) = true.
Proof.
  unfold base58_digit.
  destruct (String.get _ _) as [c|] eqn:E; [|reflexivity].
  eapply get_all_chars; [|exact E]. reflexivity.
Qed.

Lemma base58_digits_class fuel : forall n acc,
  all_chars is_base58 acc = true -> all_chars is_base58 (base58_digits fuel n acc) = true.
Proof.
  induction fuel as [|fuel IH]; intros n acc H; [exact H|].
  cbn. destruct (n =? 0)%N; [exact H|]. apply IH. cbn. now rewrite base58_digit_class, H.
Qed.

Lemma ones_class n : all_chars is_base58 (ones n) = true.
Proof. induction n as [|n IH]; [reflexivity|]. cbn. exact IH. Qed.

Lemma base58_encode_class l : all_chars is_base58 (base58_encode l) = true.
Proof.
  unfold base58_encode. rewrite all_chars_app, ones_class. cbn.
  apply base58_digits_class. reflexivity.
Qed.



Lemma toHex_injective l1 l2 : toHex l1 = toHex l2 -> l1 = l2.
Proof. intros H. apply (f_equal fromHex) in H. now rewrite !fromHex_toHex in H. Qed.

Lemma toString_injective z1 z2 : toString z1 = toString z2 -> z1 = z2.
Proof.
  intros H. apply (f_equal BigInt) in H. rewrite !BigInt_toString in H. congruence.
Qed.

(** X16. The commitment strings of two bridge proofs whose signatures are
    base-58 text are equal only if the proofs agree on the lock id, the
    signature, the block height, the account, the amount, the nonce and
    the timestamp: no field can run into the next one. *)
Theorem commitment_unambiguous now1 now2 p1 p2 b1 s1 b2 s2 :
  all_chars is_base58 (BC.signature (BC.transaction p1)) = true ->
  all_chars is_base58 (BC.signature (BC.transaction p2)) = true ->
  commitmentData (build_genesisProof now1 p1 b1 s1)
  = commitmentData (build_genesisProof now2 p2 b2 s2) ->
  BC.lockId (BC.event p1) = BC.lockId (BC.event p2) /\
  BC.signature (BC.transaction p1) = BC.signature (BC.transaction p2) /\
  BC.blockHeight p1 = BC.blockHeight p2 /\
  base58_encode (BC.user (BC.event p1)) = base58_encode (BC.user (BC.event p2)) /\
  BC.amount (BC.event p1) = BC.amount (BC.event p2) /\
  BC.nonce (BC.event p1) = BC.nonce (BC.event p2) /\
  BC.timestamp (BC.event p1) = BC.timestamp (BC.event p2).
Proof.
  intros Hs1 Hs2 H.
  unfold commitmentData, join in H.
  cbn [build_genesisProof Genesis.lockEvent Genesis.solanaTransaction genesis_lockEvent
       Genesis.lockId Genesis.user Genesis.amount Genesis.nonce Genesis.timestamp
       Genesis.blockHeight Genesis.signature String.concat] in H.
  set (field_char := fun c : ascii =>
         is_hex_lower c || is_base58 c || in_range "0" "9" c || Ascii.eqb c "-").
  assert (Hbar : field_char "|"%char = false) by reflexivity.
  assert (Hhex : forall l, all_chars field_char (toHex l) = true).
  { intros l. apply (all_chars_weaken is_hex_lower); [|apply toHex_lower].
    intros c Hc. unfold field_char. now rewrite Hc. }
  assert (H58 : forall s, all_chars is_base58 s = true -> all_chars field_char s = true).
  { intros s. apply all_chars_weaken. intros c Hc. unfold field_char.
    rewrite Hc. now rewrite orb_true_r. }
  assert (Hdec : forall z, all_chars field_char (toString z) = true).
  { intros z. apply (all_chars_weaken (fun c => in_range "0" "9" c || Ascii.eqb c "-"));
      [|apply toString_class].
    intros c Hc. unfold field_char. apply orb_prop in Hc as [-> | ->];
      rewrite ?orb_true_r; reflexivity. }
  apply (split_at_bar field_char) in H as [H1 H]; [|auto..].
  apply (split_at_bar field_char) in H as [H2 H]; [|auto..].
  apply (split_at_bar field_char) in H as [H3 H]; [|auto..].
  apply (split_at_bar field_char) in H as [H4 H];
    [|auto using base58_encode_class..].
  apply (split_at_bar field_char) in H as [H5 H]; [|auto..].
  apply (split_at_bar field_char) in H as [H6 H7]; [|auto..].
  split_and!; auto using toHex_injective, toString_injective.
Qed.

Lemma commitment_unambiguous_witness :
  commitmentData (build_genesisProof 0 Samples.proof_data true true)
  = commitmentData (build_genesisProof 5 Samples.proof_finalized false false) /\
  BC.amount (BC.event Samples.proof_data) = BC.amount (BC.event Samples.proof_finalized).
Proof.
  assert (H : commitmentData (build_genesisProof 0 Samples.proof_data true true)
              = commitmentData (build_genesisProof 5 Samples.proof_finalized false false))
    by (vm_compute; reflexivity).
  split; [exact H|].
  refine (proj1 (proj2 (proj2 (proj2 (proj2
            (commitment_unambiguous 0 5 Samples.proof_data Samples.proof_finalized
               true true false false _ _ H)))))); vm_compute; reflexivity.
Defined.

End CommitmentText.

Section TokenValidatorFacts.
Import Solana UnicityTokenValidator.

Lemma lower_char_hex c : is_hex_ci (lower_char c) = is_hex_ci c.
Proof. destruct c as [[] [] [] [] [] [] [] []]; reflexivity. Qed.

Lemma toLowerCase_hex s : all_chars is_hex_ci (toLowerCase s) = all_chars is_hex_ci s.
Proof. induction s as [|c s IH]; [reflexivity|]. cbn. now rewrite lower_char_hex, IH. Qed.

Lemma toLowerCase_length s : String.length (toLowerCase s) = String.length s.
Proof. induction s as [|c s IH]; [reflexivity|]. cbn. now rewrite IH. Qed.

Lemma hex_run_class s : all_chars is_hex_ci (fst (hex_run s)) = true.
Proof.
  induction s as [|c s IH]; [reflexivity|].
  cbn. destruct (is_hex_ci c) eqn:E; [|reflexivity].
  destruct (hex_run s) as [run after]. cbn in *. now rewrite E, IH.
Qed.

Lemma hex_run_all s : all_chars is_hex_ci s = true -> hex_run s = (s, EmptyString).
Proof.
  induction s as [|c s IH]; [reflexivity|].
  cbn. intros H. apply andb_prop in H as [Hc Hs]. rewrite Hc, (IH Hs). reflexivity.
Qed.

Lemma match_hex64_class fuel : forall s run,
  match_hex64 fuel s = Some run ->
  all_chars is_hex_ci run = true /\ (64 <= String.length run)%nat.
Proof.
  induction fuel as [|fuel IH]; intros s run H; [discriminate|].
  cbn [match_hex64] in H. destruct s as [|c rest]; [discriminate|].
  pose proof (hex_run_class (String c rest)) as Hclass.
  destruct (hex_run (String c rest)) as [r after]. cbn [fst] in Hclass.
  destruct (64 <=? String.length r)%nat eqn:E.
  - injection H as <-. apply Nat.leb_le in E. auto.
  - destruct r; eapply IH; eassumption.
Qed.

(** The verdict of [validateMinterKeyConsistency] on the recipient of the
    payload itself, as [validateToken] calls it. *)
Lemma key_consistency_self payload :
  let r := Genesis.unicityRecipient (Token.lockEvent payload) in
  fst (validateMinterKeyConsistency payload r) = true <->
  all_chars is_hex_ci r = true /\ (64 <= String.length r)%nat.
Proof.
  intros r. unfold validateMinterKeyConsistency. fold r.
  destruct (truthy_string r) eqn:Et; cbn [negb].
  2:{ destruct r; [|discriminate]. split; [discriminate|]. intros [_ H]. cbn in H. lia. }
  rewrite String.eqb_refl. cbn [negb].
  destruct ((String.length r =? 66)%nat && all_chars is_hex_ci r) eqn:E66.
  - apply andb_prop in E66 as [Hl Hh]. apply Nat.eqb_eq in Hl.
    cbn [fst]. split; [intros _|reflexivity]. split; [exact Hh|lia].
  - destruct (match_hex64 (S (String.length r)) r) as [run|] eqn:Em.
    + destruct (match_hex64_class _ _ _ Em) as [Hrun Hlen].
      destruct (String.eqb (toLowerCase run) (toLowerCase r)) eqn:Eq; cbn [negb fst].
      * apply String.eqb_eq in Eq. split; [intros _|reflexivity].
        split.
        -- rewrite <- toLowerCase_hex, <- Eq, toLowerCase_hex. exact Hrun.
        -- rewrite <- (toLowerCase_length r), <- Eq, toLowerCase_length. exact Hlen.
      * split; [discriminate|]. intros [Hh Hl].
        destruct r as [|c rest] eqn:Er; [discriminate|].
        cbn [match_hex64] in Em. rewrite (hex_run_all _ Hh) in Em.
        apply Nat.leb_le in Hl. rewrite Hl in Em. injection Em as <-.
        rewrite String.eqb_refl in Eq. discriminate.
    + cbn [fst]. split; [discriminate|]. intros [Hh Hl].
      destruct r as [|c rest] eqn:Er; [discriminate|].
      cbn [match_hex64] in Em. rewrite (hex_run_all _ Hh) in Em.
      apply Nat.leb_le in Hl. rewrite Hl in Em. discriminate.
Qed.

Lemma prefix_first c p s : String.prefix (String c p) s = true -> exists t, s = String c t.
Proof.
  destruct s as [|c' s]; [discriminate|]. cbn.
  destruct (ascii_dec c c') as [->|]; [|discriminate]. intros _. eexists; reflexivity.
Qed.

(** X17. [validateMinterKeyConsistency], called by [validateToken] with
    the recipient of the lock event as the minter key, passes exactly when
    that recipient consists of at least 64 hexadecimal digits and nothing
    else; a recipient in the tagged form that starts with "[SHA256]" never
    passes. *)
Theorem key_consistency_needs_hex payload :
  let r := Genesis.unicityRecipient (Token.lockEvent payload) in
  (fst (validateMinterKeyConsistency payload r) = true <->
   all_chars is_hex_ci r = true /\ (64 <= String.length r)%nat) /\
  (startsWith r "[SHA256]" = true ->
   fst (validateMinterKeyConsistency payload r) = false).
Proof.
  intros r. split; [apply key_consistency_self|].
  intros Hp. destruct (fst (validateMinterKeyConsistency payload r)) eqn:E; [|reflexivity].
  apply key_consistency_self in E. destruct E as [Hh _]. fold r in Hh.
  apply prefix_first in Hp as [t Ht]. rewrite Ht in Hh. discriminate.
Qed.

End TokenValidatorFacts.

Section TokenVerdictFacts.
Import Solana UnicityTokenValidator.

Lemma count_status_app st a b :
  count_status st (a ++ b) = (count_status st a + count_status st b)%nat.
Proof. unfold count_status. now rewrite List.filter_app, length_app. Qed.

Lemma key_fail d k :
  fst (validateMinterKeyConsistency d k) = false ->
  (0 < count_status FAIL (snd (validateMinterKeyConsistency d k)))%nat.
Proof.
  unfold validateMinterKeyConsistency.
  repeat match goal with
         | |- context [if ?c then _ else _] => destruct c
         | |- context [match ?c with Some _ => _ | None => _ end] => destruct c
         end; cbn; intros; (discriminate || lia).
Qed.

Lemma signature_fail w r c s :
  fst (validateMinterSignatureWithRecovery w r c s) = false ->
  (0 < count_status FAIL (snd (validateMinterSignatureWithRecovery w r c s)))%nat.
Proof.
  unfold validateMinterSignatureWithRecovery.
  destruct (negb (length (fromHex s) =? 65)%nat); [cbn; lia|].
  match goal with |- context [match ?c with Returns _ => _ | Throws _ => _ end] =>
    destruct c as [[|]|m] end; cbn [negb]; try (cbn; lia).
  match goal with |- context [if ?c then _ else _] => destruct c end;
    cbn; intros; (discriminate || lia).
Qed.

Lemma tokenId_fail a c s :
  fst (validateTokenIdDerivation a c s) = false ->
  (0 < count_status FAIL (snd (validateTokenIdDerivation a c s)))%nat.
Proof.
  unfold validateTokenIdDerivation.
  match goal with |- context [if ?c then _ else _] => destruct c end;
    cbn; intros; (discriminate || lia).
Qed.

Lemma stored_early anchor v :
  fst (check_stored_signatures anchor) = Some v ->
  valid v = false /\ (0 < count_status FAIL (snd (check_stored_signatures anchor)))%nat.
Proof.
  unfold check_stored_signatures.
  destruct (Genesis.transaction anchor) as [txData|]; [|discriminate].
  destruct (Solana.transaction txData) as [body|]; [|discriminate].
  destruct (signatures body) as [[|first rest]|]; try discriminate.
  destruct (negb (String.eqb first (Genesis.signature anchor))); [|discriminate].
  cbn. intros H. injection H as <-. split; [reflexivity|lia].
Qed.

Lemma rpc_early w s v :
  fst (check_rpc_status w s) = Some v ->
  valid v = false /\ (0 < count_status FAIL (snd (check_rpc_status w s)))%nat.
Proof.
  unfold check_rpc_status.
  destruct (getSignatureStatuses (rpc w) s) as [[st|]|m]; try discriminate.
  - destruct (err st); [cbn; intros H; injection H as <-; split; [reflexivity|lia]|].
    match goal with |- context [if ?c then _ else _] => destruct c end; [|discriminate].
    cbn. intros H. injection H as <-. split; [reflexivity|lia].
  - cbn. intros H. injection H as <-. split; [reflexivity|lia].
Qed.

Lemma validate_signed_verdict w token d s results :
  valid (fst (validate_signed w token d s results))
  = (count_status FAIL (snd (validate_signed w token d s results)) =? 0)%nat.
Proof.
  unfold validate_signed.
  pose proof (key_fail d (Genesis.unicityRecipient (Token.lockEvent d))) as Hk.
  destruct (validateMinterKeyConsistency d _) as [[|] r1]; cbn [negb fst snd] in *.
  2:{ rewrite count_status_app. specialize (Hk eq_refl).
      symmetry. apply Nat.eqb_neq. lia. }
  clear Hk.
  pose proof (signature_fail w (Genesis.unicityRecipient (Token.lockEvent d))
                (reconstructedCommitmentData d) s) as Hs.
  destruct (validateMinterSignatureWithRecovery w _ _ s) as [[|] r2]; cbn [negb fst snd] in *.
  2:{ rewrite !count_status_app. specialize (Hs eq_refl).
      symmetry. apply Nat.eqb_neq. lia. }
  clear Hs.
  pose proof (tokenId_fail (Token.tokenId (Token.genesis_data token))
                (reconstructedCommitmentData d) s) as Ht.
  destruct (validateTokenIdDerivation _ _ s) as [[|] r3]; cbn [negb fst snd] in *.
  2:{ rewrite !count_status_app. specialize (Ht eq_refl).
      symmetry. apply Nat.eqb_neq. lia. }
  clear Ht.
  pose proof (stored_early (Token.solanaTransaction d)) as He.
  destruct (check_stored_signatures _) as [[v|] r4]; cbn [fst snd] in *.
  { destruct (He v eq_refl) as [-> Hc]. rewrite !count_status_app.
    symmetry. apply Nat.eqb_neq. lia. }
  clear He.
  pose proof (rpc_early w (Genesis.signature (Token.solanaTransaction d))) as Hr.
  destruct (check_rpc_status w _) as [[v|] r5]; cbn [fst snd] in *.
  { destruct (Hr v eq_refl) as [-> Hc]. rewrite !count_status_app.
    symmetry. apply Nat.eqb_neq. lia. }
  reflexivity.
Qed.

(** X18. The verdict of [validateToken] agrees with the results it
    recorded on every path: the token is valid exactly when no recorded
    result is a FAIL, so every rejection comes with at least one FAIL
    result. *)
Theorem verdict_matches_results w tokenFilePath :
  valid (fst (validateToken w tokenFilePath))
  = (count_status FAIL (snd (validateToken w tokenFilePath)) =? 0)%nat.
Proof.
  unfold validateToken.
  destruct (readToken w tokenFilePath) as [[token|m]|]; try reflexivity.
  destruct (tokenFactory_create w token) as [[]|m]; [|reflexivity].
  assert (Hc : fst (consistentSolanaLockingProof (Token.tokenData (Token.genesis_data token)))
               = None ->
               (0 < count_status FAIL
                      (snd (consistentSolanaLockingProof
                              (Token.tokenData (Token.genesis_data token)))))%nat).
  { unfold consistentSolanaLockingProof.
    destruct (decodeTokenData _) as [d|m]; [|cbn; lia].
    repeat match goal with
           | |- context [if ?c then _ else _] => destruct c
           end; cbn; intros; (discriminate || lia). }
  destruct (consistentSolanaLockingProof _) as [[d|] r]; cbn [fst snd] in *.
  - destruct (Token.minterSignature d) as [s|].
    + destruct (truthy_string s).
      * apply validate_signed_verdict.
      * cbn [fst snd]. rewrite !count_status_app. cbn. symmetry. apply Nat.eqb_neq. lia.
    + cbn [fst snd]. rewrite !count_status_app. cbn. symmetry. apply Nat.eqb_neq. lia.
  - specialize (Hc eq_refl). rewrite count_status_app.
    symmetry. apply Nat.eqb_neq. lia.
Qed.

End TokenVerdictFacts.

Section TokenAcceptance.
Import Solana UnicityTokenValidator.

Lemma key_pass_no_fail d k :
  fst (validateMinterKeyConsistency d k) = true ->
  count_status FAIL (snd (validateMinterKeyConsistency d k)) = 0%nat.
Proof.
  unfold validateMinterKeyConsistency.
  repeat match goal with
         | |- context [if ?c then _ else _] => destruct c
         | |- context [match ?c with Some _ => _ | None => _ end] => destruct c
         end; cbn; intros; (discriminate || reflexivity).
Qed.

Lemma signature_pass w r c s :
  fst (validateMinterSignatureWithRecovery w r c s) = true <->
  length (fromHex s) = 65%nat /\
  (exists pk,
     ecdsaRecover w (firstn 64 (fromHex s)) (nth 64 (fromHex s) Byte.x00) (Sha256.sha256 c)
       = Returns pk /\
     ecdsaVerify w (firstn 64 (fromHex s)) (Sha256.sha256 c) pk = Returns true) /\
  (startsWith r "[SHA256]" = true \/ test_class_repeat is_hex_ci 64 64 r = true).
Proof.
  unfold validateMinterSignatureWithRecovery.
  destruct (length (fromHex s) =? 65)%nat eqn:El; cbn [negb].
  2:{ apply Nat.eqb_neq in El. split; [discriminate|]. intros (H & _). contradiction. }
  apply Nat.eqb_eq in El.
  destruct (ecdsaRecover w _ _ _) as [pk|m] eqn:Er; cbn [mbind outcome_bind Js.bind].
  2:{ split; [discriminate|]. intros (_ & (pk & H & _) & _). discriminate. }
  destruct (ecdsaVerify w _ _ pk) as [[|]|m] eqn:Ev; cbn [negb].
  2,3: split; [discriminate|]; intros (_ & (pk' & H & Hv) & _);
       injection H as <-; rewrite Ev in Hv; discriminate.
  destruct r as [|c0 r0].
  { cbn. split; [discriminate|]. intros (_ & _ & [H|H]); discriminate. }
  cbn [truthy_string negb andb orb].
  destruct (startsWith (String c0 r0) "[SHA256]") eqn:Ep; cbn [negb andb fst].
  - split; [intros _|reflexivity]. split_and!; [exact El|exists pk; auto|auto].
  - destruct (test_class_repeat is_hex_ci 64 64 (String c0 r0)) eqn:Et; cbn [negb fst].
    + split; [intros _|reflexivity]. split_and!; [exact El|exists pk; auto|auto].
    + split; [discriminate|]. intros (_ & _ & [H|H]); discriminate.
Qed.

Lemma signature_pass_no_fail w r c s :
  fst (validateMinterSignatureWithRecovery w r c s) = true ->
  count_status FAIL (snd (validateMinterSignatureWithRecovery w r c s)) = 0%nat.
Proof.
  unfold validateMinterSignatureWithRecovery.
  destruct (negb (length (fromHex s) =? 65)%nat); [discriminate|].
  match goal with |- context [match ?c with Returns _ => _ | Throws _ => _ end] =>
    destruct c as [[|]|m] end; cbn [negb]; try discriminate.
  match goal with |- context [if ?c then _ else _] => destruct c end;
    cbn; intros; (discriminate || reflexivity).
Qed.

Lemma tokenId_pass a c s :
  fst (validateTokenIdDerivation a c s) = true <-> a = expectedTokenIdHex c s.
Proof.
  unfold validateTokenIdDerivation.
  destruct (String.eqb a (expectedTokenIdHex c s)) eqn:E; cbn [negb fst].
  - apply String.eqb_eq in E. tauto.
  - apply String.eqb_neq in E. split; [discriminate|contradiction].
Qed.

Lemma tokenId_pass_no_fail a c s :
  fst (validateTokenIdDerivation a c s) = true ->
  count_status FAIL (snd (validateTokenIdDerivation a c s)) = 0%nat.
Proof.
  unfold validateTokenIdDerivation.
  match goal with |- context [if ?c then _ else _] => destruct c end;
    cbn; intros; (discriminate || reflexivity).
Qed.

Lemma stored_pass anchor :
  fst (check_stored_signatures anchor) = None <->
  (forall txData body first rest,
     Genesis.transaction anchor = Some txData ->
     Solana.transaction txData = Some body ->
     signatures body = Some (first :: rest) ->
     first = Genesis.signature anchor).
Proof.
  unfold check_stored_signatures.
  destruct (Genesis.transaction anchor) as [txData|] eqn:E1;
    [|split; [intros _ ? ? ? ? H1; discriminate|reflexivity]].
  destruct (Solana.transaction txData) as [body|] eqn:E2;
    [|split; [intros _ ? ? ? ? H1 H2; congruence|reflexivity]].
  destruct (signatures body) as [[|first rest]|] eqn:E3;
    [split; [intros _ ? ? ? ? H1 H2 H3; congruence|reflexivity]|
    |split; [intros _ ? ? ? ? H1 H2 H3; congruence|reflexivity]].
  destruct (String.eqb first (Genesis.signature anchor)) eqn:E; cbn [negb fst].
  - apply String.eqb_eq in E. split; [|reflexivity].
    intros _ ? ? ? ? H1 H2 H3. congruence.
  - apply String.eqb_neq in E. split; [discriminate|].
    intros H. exfalso. apply E. eapply H; reflexivity || eassumption.
Qed.

Lemma stored_pass_no_fail anchor :
  fst (check_stored_signatures anchor) = None ->
  count_status FAIL (snd (check_stored_signatures anchor)) = 0%nat.
Proof.
  unfold check_stored_signatures.
  destruct (Genesis.transaction anchor) as [txData|]; [|reflexivity].
  destruct (Solana.transaction txData) as [body|]; [|reflexivity].
  destruct (signatures body) as [[|first rest]|]; try reflexivity.
  destruct (negb (String.eqb first (Genesis.signature anchor))); [discriminate|reflexivity].
Qed.

Lemma rpc_pass w s :
  fst (check_rpc_status w s) = None /\
  count_status FAIL (snd (check_rpc_status w s)) = 0%nat <->
  exists st cs,
    getSignatureStatuses (rpc w) s = Returns (Some st) /\ err st = None /\
    confirmationStatus st = Some cs /\
    (cs = "processed" \/ cs = "confirmed" \/ cs = "finalized").
Proof.
  unfold check_rpc_status.
  destruct (getSignatureStatuses (rpc w) s) as [[st|]|m].
  - destruct (err st) as [e|] eqn:He.
    { split; [intros [H _]; discriminate|].
      intros (st' & cs & H & He' & _). injection H as <-. congruence. }
    destruct (confirmationStatus st) as [cs|] eqn:Hcs; cbn [from_option id].
    + destruct (existsb (String.eqb cs) ["processed"; "confirmed"; "finalized"]) eqn:Ev.
      * pose proof (proj1 (valid_status_spec cs) Ev) as Hv.
        assert (Ht : truthy_string cs = true)
          by (destruct Hv as [-> | [-> | ->]]; reflexivity).
        rewrite Ht. cbn [negb orb fst snd].
        split; [intros _|intros _; split; reflexivity].
        exists st, cs. auto.
      * rewrite orb_true_r. split; [intros [H _]; discriminate|].
        intros (st' & cs' & H & _ & Hc & Hv). injection H as <-.
        rewrite Hcs in Hc. injection Hc as <-.
        apply valid_status_spec in Hv. congruence.
    + cbn. split; [intros [H _]; discriminate|].
      intros (st' & cs' & H & _ & Hc & _). injection H as <-. congruence.
  - split; [intros [H _]; discriminate|]. intros (st' & cs' & H & _). discriminate.
  - cbn. split; [intros [_ H]; discriminate|]. intros (st' & cs' & H & _). discriminate.
Qed.

Lemma consistent_pass td d :
  fst (consistentSolanaLockingProof td) = Some d <->
  td = Token.Encoded d /\
  Token.bridgeType d = "SOLANA_BRIDGE" /\
  truthy_string (Genesis.lockId (Token.lockEvent d)) = true /\
  truthy_string (Genesis.user (Token.lockEvent d)) = true /\
  truthy_string (Genesis.amount (Token.lockEvent d)) = true /\
  truthy_string (Genesis.unicityRecipient (Token.lockEvent d)) = true /\
  truthy_string (Genesis.nonce (Token.lockEvent d)) = true /\
  truthy_string (Genesis.timestamp (Token.lockEvent d)) = true /\
  test_class_repeat is_base58 87 88 (Genesis.signature (Token.solanaTransaction d)) = true.
Proof.
  unfold consistentSolanaLockingProof, decodeTokenData.
  destruct td as [p|hex].
  2:{ split; [discriminate|]. intros (H & _). discriminate. }
  destruct (String.eqb (Token.bridgeType p) "SOLANA_BRIDGE") eqn:Eb; cbn [negb].
  2:{ apply String.eqb_neq in Eb. split; [discriminate|].
      intros (H & Hb & _). injection H as <-. contradiction. }
  apply String.eqb_eq in Eb.
  destruct (truthy_string (Genesis.lockId (Token.lockEvent p))) eqn:E1; cbn [negb orb].
  2:{ split; [discriminate|]. intros (H & _ & H1 & _). injection H as <-. congruence. }
  destruct (truthy_string (Genesis.user (Token.lockEvent p))) eqn:E2; cbn [negb orb].
  2:{ split; [discriminate|]. intros (H & _ & _ & H1 & _). injection H as <-. congruence. }
  destruct (truthy_string (Genesis.amount (Token.lockEvent p))) eqn:E3; cbn [negb orb].
  2:{ split; [discriminate|]. intros (H & _ & _ & _ & H1 & _). injection H as <-. congruence. }
  destruct (truthy_string (Genesis.unicityRecipient (Token.lockEvent p))) eqn:E4;
    cbn [negb orb].
  2:{ split; [discriminate|]. intros (H & _ & _ & _ & _ & H1 & _).
      injection H as <-. congruence. }
  destruct (truthy_string (Genesis.nonce (Token.lockEvent p))) eqn:E5; cbn [negb orb].
  2:{ split; [discriminate|]. intros (H & _ & _ & _ & _ & _ & H1 & _).
      injection H as <-. congruence. }
  destruct (truthy_string (Genesis.timestamp (Token.lockEvent p))) eqn:E6; cbn [negb orb].
  2:{ split; [discriminate|]. intros (H & _ & _ & _ & _ & _ & _ & H1 & _).
      injection H as <-. congruence. }
  destruct (test_class_repeat is_base58 87 88 (Genesis.signature (Token.solanaTransaction p)))
    eqn:E7.
  2:{ destruct (truthy_string (Genesis.signature (Token.solanaTransaction p)));
        cbn [negb fst]; (split; [discriminate|]);
        intros (H & _ & _ & _ & _ & _ & _ & _ & H1); injection H as <-; congruence. }
  assert (Et : truthy_string (Genesis.signature (Token.solanaTransaction p)) = true).
  { destruct (Genesis.signature (Token.solanaTransaction p)); [discriminate|reflexivity]. }
  rewrite Et. cbn [negb fst].
  split.
  - intros H. injection H as <-. split_and!; auto.
  - intros (H & _). injection H as <-. reflexivity.
Qed.

Lemma consistent_pass_no_fail td d :
  fst (consistentSolanaLockingProof td) = Some d ->
  count_status FAIL (snd (consistentSolanaLockingProof td)) = 0%nat.
Proof.
  unfold consistentSolanaLockingProof.
  destruct (decodeTokenData td); [|discriminate].
  repeat match goal with
         | |- context [if ?c then _ else _] => destruct c
         end; cbn; intros; (discriminate || reflexivity).
Qed.

(** The conditions under which [validate_signed] accepts. *)
Lemma validate_signed_accepts w token d s results :
  count_status FAIL results = 0%nat ->
  (valid (fst (validate_signed w token d s results)) = true <->
   fst (validateMinterKeyConsistency d (Genesis.unicityRecipient (Token.lockEvent d))) = true /\
   fst (validateMinterSignatureWithRecovery w (Genesis.unicityRecipient (Token.lockEvent d))
          (reconstructedCommitmentData d) s) = true /\
   fst (validateTokenIdDerivation (Token.tokenId (Token.genesis_data token))
          (reconstructedCommitmentData d) s) = true /\
   fst (check_stored_signatures (Token.solanaTransaction d)) = None /\
   fst (check_rpc_status w (Genesis.signature (Token.solanaTransaction d))) = None /\
   count_status FAIL
     (snd (check_rpc_status w (Genesis.signature (Token.solanaTransaction d)))) = 0%nat).
Proof.
  intros Hres. unfold validate_signed.
  pose proof (key_pass_no_fail d (Genesis.unicityRecipient (Token.lockEvent d))) as Hk.
  destruct (validateMinterKeyConsistency d _) as [[|] r1]; cbn [negb fst snd] in *.
  2:{ split; [discriminate|]. intros (H & _). discriminate. }
  specialize (Hk eq_refl).
  pose proof (signature_pass_no_fail w (Genesis.unicityRecipient (Token.lockEvent d))
                (reconstructedCommitmentData d) s) as Hs.
  destruct (validateMinterSignatureWithRecovery w _ _ s) as [[|] r2]; cbn [negb fst snd] in *.
  2:{ split; [discriminate|]. intros (_ & H & _). discriminate. }
  specialize (Hs eq_refl).
  pose proof (tokenId_pass_no_fail (Token.tokenId (Token.genesis_data token))
                (reconstructedCommitmentData d) s) as Ht.
  destruct (validateTokenIdDerivation _ _ s) as [[|] r3]; cbn [negb fst snd] in *.
  2:{ split; [discriminate|]. intros (_ & _ & H & _). discriminate. }
  specialize (Ht eq_refl).
  pose proof (stored_early (Token.solanaTransaction d)) as He.
  pose proof (stored_pass_no_fail (Token.solanaTransaction d)) as He'.
  destruct (check_stored_signatures _) as [[v|] r4]; cbn [fst snd] in *.
  { destruct (He v eq_refl) as [-> _]. split; [discriminate|].
    intros (_ & _ & _ & H & _). discriminate. }
  specialize (He' eq_refl).
  pose proof (rpc_early w (Genesis.signature (Token.solanaTransaction d))) as Hr.
  destruct (check_rpc_status w _) as [[v|] r5]; cbn [fst snd] in *.
  { destruct (Hr v eq_refl) as [-> _]. split; [discriminate|].
    intros (_ & _ & _ & _ & H & _). discriminate. }
  cbn [valid]. rewrite !count_status_app, Hres, Hk, Hs, Ht, He'. cbn [Nat.add].
  rewrite Nat.eqb_eq. tauto.
Qed.

(** X19. [validateToken] declares a token valid exactly when: the file
    parses and the token factory accepts it; its token data decodes to a
    SOLANA_BRIDGE payload with every lock event field present and a
    transaction signature of 87 or 88 base-58 characters; the recipient is
    64 hexadecimal digits; the minter signature is 65 bytes of hex text
    from which secp256k1 recovers a key that verifies it over the hash of
    the commitment string; the token id is the hash of the commitment
    string, the signature text and "_tokenId"; a stored transaction does
    not carry another first signature; and the endpoint reports the
    signature without error in one of the three confirmation states. The
    recovered key is not compared with the recipient. *)
Theorem validateToken_accepts w tokenFilePath :
  valid (fst (validateToken w tokenFilePath)) = true <->
  exists token payload s st cs,
    let lock := Token.lockEvent payload in
    let anchor := Token.solanaTransaction payload in
    let commitment := reconstructedCommitmentData payload in
    readToken w tokenFilePath = Some (Returns token) /\
    tokenFactory_create w token = Returns tt /\
    Token.tokenData (Token.genesis_data token) = Token.Encoded payload /\
    Token.bridgeType payload = "SOLANA_BRIDGE" /\
    (truthy_string (Genesis.lockId lock) = true /\
     truthy_string (Genesis.user lock) = true /\
     truthy_string (Genesis.amount lock) = true /\
     truthy_string (Genesis.nonce lock) = true /\
     truthy_string (Genesis.timestamp lock) = true) /\
    test_class_repeat is_base58 87 88 (Genesis.signature anchor) = true /\
    Recipient.looks_like_digest (Genesis.unicityRecipient lock) = true /\
    Token.minterSignature payload = Some s /\
    length (fromHex s) = 65%nat /\
    (exists pk,
       ecdsaRecover w (firstn 64 (fromHex s)) (nth 64 (fromHex s) Byte.x00)
         (Sha256.sha256 commitment) = Returns pk /\
       ecdsaVerify w (firstn 64 (fromHex s)) (Sha256.sha256 commitment) pk = Returns true) /\
    Token.tokenId (Token.genesis_data token) = expectedTokenIdHex commitment s /\
    (forall txData body first rest,
       Genesis.transaction anchor = Some txData ->
       Solana.transaction txData = Some body ->
       signatures body = Some (first :: rest) ->
       first = Genesis.signature anchor) /\
    getSignatureStatuses (rpc w) (Genesis.signature anchor) = Returns (Some st) /\
    err st = None /\ confirmationStatus st = Some cs /\
    (cs = "processed" \/ cs = "confirmed" \/ cs = "finalized").
Proof.
  (* the recipient conditions of the two checks together *)
  assert (Hrecipient : forall payload w' c s,
            fst (validateMinterKeyConsistency payload
                   (Genesis.unicityRecipient (Token.lockEvent payload))) = true /\
            fst (validateMinterSignatureWithRecovery w'
                   (Genesis.unicityRecipient (Token.lockEvent payload)) c s) = true <->
            Recipient.looks_like_digest
              (Genesis.unicityRecipient (Token.lockEvent payload)) = true /\
            length (fromHex s) = 65%nat /\
            (exists pk,
               ecdsaRecover w' (firstn 64 (fromHex s)) (nth 64 (fromHex s) Byte.x00)
                 (Sha256.sha256 c) = Returns pk /\
               ecdsaVerify w' (firstn 64 (fromHex s)) (Sha256.sha256 c) pk = Returns true)).
  { intros payload w' c s. rewrite key_consistency_self, signature_pass.
    unfold Recipient.looks_like_digest.
    set (r := Genesis.unicityRecipient (Token.lockEvent payload)).
    split.
    - intros ((Hh & Hl) & Hlen & Hpk & [Hp | Hd]); [|auto].
      exfalso. apply prefix_first in Hp as [t Ht]. rewrite Ht in Hh. discriminate.
    - intros (Hd & Hlen & Hpk). split_and!; auto.
      + unfold test_class_repeat in Hd. apply andb_prop in Hd as [_ Hd]. exact Hd.
      + unfold test_class_repeat in Hd. apply andb_prop in Hd as [Hd _].
        apply andb_prop in Hd as [Hd _]. now apply Nat.leb_le in Hd. }
  unfold validateToken. split.
  - destruct (readToken w tokenFilePath) as [[token|m]|] eqn:Hread; try discriminate.
    destruct (tokenFactory_create w token) as [[]|m] eqn:Hfactory; [|discriminate].
    pose proof (consistent_pass (Token.tokenData (Token.genesis_data token))) as Hc.
    pose proof (consistent_pass_no_fail (Token.tokenData (Token.genesis_data token))) as Hc'.
    destruct (consistentSolanaLockingProof _) as [[d|] r]; cbn [fst snd] in *;
      [|discriminate].
    destruct (proj1 (Hc d) eq_refl) as (Htd & Hb & H1 & H2 & H3 & H4 & H5 & H6 & H7).
    specialize (Hc' d eq_refl).
    destruct (Token.minterSignature d) as [s|] eqn:Hs; [|discriminate].
    destruct (truthy_string s); [|discriminate].
    intros Hv. apply validate_signed_accepts in Hv.
    2:{ rewrite count_status_app, Hc'. reflexivity. }
    destruct Hv as (Hk & Hsig & Ht & Hst & Hr1 & Hr2).
    destruct (proj1 (Hrecipient d w (reconstructedCommitmentData d) s) (conj Hk Hsig))
      as (Hd & Hlen & Hpk).
    destruct (proj1 (rpc_pass w _) (conj Hr1 Hr2)) as (st & cs & Hq & He & Hcs & Hvalid).
    exists token, d, s, st, cs. cbv zeta.
    split_and!; auto.
    + now apply tokenId_pass.
    + now apply stored_pass.
  - intros (token & payload & s & st & cs & H). cbv zeta in H.
    destruct H as (Hread & Hfactory & Htd & Hb & (H1 & H2 & H3 & H5 & H6) & H7 & Hd & Hs &
                   Hlen & Hpk & Hid & Hstored & Hq & He & Hcs & Hvalid).
    rewrite Hread, Hfactory.
    assert (H4 : truthy_string (Genesis.unicityRecipient (Token.lockEvent payload)) = true).
    { destruct (Genesis.unicityRecipient (Token.lockEvent payload)); [discriminate|reflexivity]. }
    pose proof (proj2 (consistent_pass (Token.tokenData (Token.genesis_data token)) payload))
      as Hc.
    pose proof (consistent_pass_no_fail (Token.tokenData (Token.genesis_data token)) payload)
      as Hc'.
    destruct (consistentSolanaLockingProof _) as [d r]; cbn [fst snd] in *.
    rewrite Hc in * by (split_and!; auto). specialize (Hc' eq_refl).
    rewrite Hs.
    assert (Hts : truthy_string s = true).
    { destruct s; [discriminate|reflexivity]. }
    rewrite Hts.
    apply validate_signed_accepts.
    { rewrite count_status_app, Hc'. reflexivity. }
    destruct (proj2 (Hrecipient payload w (reconstructedCommitmentData payload) s)
                (conj Hd (conj Hlen Hpk))) as (Hk & Hsig).
    destruct (proj2 (rpc_pass w (Genesis.signature (Token.solanaTransaction payload))))
      as (Hr1 & Hr2); [exists st, cs; auto|].
    split_and!; auto.
    + now apply tokenId_pass.
    + now apply stored_pass.
Qed.

Lemma validateToken_accepts_witness :
  let w := Samples.validator_world SignedSamples.signed_token in
  valid (fst (validateToken w "unicity-token-2a2a2a2a.json")) = true /\
  exists s, length (fromHex s) = 65%nat.
Proof.
  intros w.
  assert (H : valid (fst (validateToken w "unicity-token-2a2a2a2a.json")) = true)
    by (vm_compute; reflexivity).
  split; [exact H|].
  destruct (proj1 (validateToken_accepts w "unicity-token-2a2a2a2a.json") H)
    as (token & payload & s & st & cs & Hall).
  exists s. apply Hall.
Defined.

End TokenAcceptance.

Section ExtractorTrailing.
Import EventExtractor LogEncoding.

Lemma subarray_app buf extra a b :
  (b <= length buf)%nat -> subarray (buf ++ extra) a b = subarray buf a b.
Proof.
  intros Hb. unfold subarray.
  rewrite skipn_app, firstn_app, length_skipn.
  replace (b - a - (length buf - a))%nat with 0%nat by lia.
  rewrite firstn_O, app_nil_r. reflexivity.
Qed.

Lemma byte_at_app_l buf extra i :
  (i < length buf)%nat -> byte_at (buf ++ extra) i = byte_at buf i.
Proof. intros Hi. unfold byte_at. now rewrite app_nth1. Qed.

Lemma readUInt32LE_app buf extra off :
  (off + 4 <= length buf)%nat ->
  readUInt32LE (buf ++ extra) off = readUInt32LE buf off.
Proof.
  intros H. unfold readUInt32LE. rewrite length_app.
  rewrite !(proj2 (Nat.ltb_ge _ _)) by lia.
  rewrite !byte_at_app_l by lia. reflexivity.
Qed.

Lemma parse_body_app buf extra ev :
  parseTokenLockedEvent_body buf = Returns ev ->
  parseTokenLockedEvent_body (buf ++ extra) = Returns ev.
Proof.
  intros H. destruct (parse_success_length buf ev H) as (n & Hread & Hlen).
  rewrite <- H. clear H.
  unfold parseTokenLockedEvent_body. cbv zeta.
  change (8 + 32 + 32 + 8)%nat with 80%nat.
  rewrite (readUInt32LE_app buf extra 80) by lia. rewrite Hread.
  rewrite length_app.
  rewrite !(proj2 (Nat.ltb_ge (length buf + length extra) _)) by lia.
  rewrite !(proj2 (Nat.ltb_ge (length buf) _)) by lia.
  rewrite !subarray_app by lia.
  destruct (negb _); [reflexivity|].
  destruct (readU64LE _) as [amount|m]; [|reflexivity].
  rewrite !bind_returns.
  rewrite !(proj2 (Nat.ltb_ge (length buf + length extra) _)) by lia.
  rewrite !(proj2 (Nat.ltb_ge (length buf) _)) by lia.
  rewrite !subarray_app by lia.
  reflexivity.
Qed.

End ExtractorTrailing.

Section ExtractorReaders.
Import EventExtractor LogEncoding.

(** X20. [parseTokenLockedEvent] ignores what follows the event: a
    buffer that parses gives the same event with any bytes appended. *)
Theorem parse_ignores_trailing_bytes buf extra ev :
  parseTokenLockedEvent buf = Some ev ->
  parseTokenLockedEvent (buf ++ extra) = Some ev.
Proof.
  unfold parseTokenLockedEvent.
  destruct (parseTokenLockedEvent_body buf) as [ev'|m] eqn:E; [|discriminate].
  intros H. injection H as ->.
  now rewrite (parse_body_app buf extra ev E).
Qed.

Lemma parse_ignores_trailing_bytes_witness :
  parseTokenLockedEvent (serialize Samples.lock_event ++ [Byte.xff; Byte.x00])
  = Some (UnicityProofValidator.genesis_lockEvent Samples.lock_event).
Proof.
  apply parse_ignores_trailing_bytes.
  vm_compute. reflexivity.
Defined.

Lemma byte_to_Z_range b : 0 <= byte_to_Z b < 256.
Proof.
  unfold byte_to_Z. pose proof (Byte.to_N_bounded b). lia.
Qed.

Lemma byte_of_to_Z b : byte_of_Z (byte_to_Z b) = b.
Proof.
  pose proof (byte_to_Z_range b) as Hr.
  unfold byte_of_Z, byte_of_N. rewrite Z.mod_small by lia.
  unfold byte_to_Z in *. rewrite N2Z.id.
  rewrite N.mod_small by lia. now rewrite Byte.of_to_N.
Qed.

Lemma le_bytes_step n b k :
  le_bytes (S n) (byte_to_Z b + 256 * k) = b :: le_bytes n k.
Proof.
  pose proof (byte_to_Z_range b) as Hr.
  cbn [le_bytes]. f_equal.
  - rewrite <- (byte_of_to_Z b) at 2. unfold byte_of_Z. do 2 f_equal.
    rewrite (Z.mul_comm 256 k), Z.mod_add by lia. reflexivity.
  - f_equal. rewrite (Z.mul_comm 256 k), Z.div_add by lia.
    rewrite Z.div_small by lia. lia.
Qed.

Lemma le_bytes_wrap n : forall x k,
  le_bytes n (x + k * 256 ^ Z.of_nat n) = le_bytes n x.
Proof.
  induction n as [|n IH]; intros x k; [reflexivity|].
  cbn [le_bytes]. rewrite Nat2Z.inj_succ, Z.pow_succ_r by lia.
  f_equal.
  - unfold byte_of_Z. do 2 f_equal.
    replace (x + k * (256 * 256 ^ Z.of_nat n)) with (x + (k * 256 ^ Z.of_nat n) * 256) by lia.
    now rewrite Z.mod_add by lia.
  - replace (x + k * (256 * 256 ^ Z.of_nat n)) with (x + (k * 256 ^ Z.of_nat n) * 256) by lia.
    rewrite Z.div_add by lia. apply IH.
Qed.

(** The two 64-bit readers on a buffer of at least 8 bytes. *)
Lemma read64_shape buffer :
  (8 <= length buffer)%nat ->
  exists u i,
    readU64LE buffer = Returns u /\ readI64LE buffer = Returns i /\
    0 <= u < 2 ^ 64 /\ - 2 ^ 63 <= i < 2 ^ 63 /\
    i = (if u <? 2 ^ 63 then u else u - 2 ^ 64) /\
    le_bytes 8 u = firstn 8 buffer /\ le_bytes 8 i = firstn 8 buffer.
Proof.
  intros Hlen.
  destruct buffer as [|b0 [|b1 [|b2 [|b3 [|b4 [|b5 [|b6 [|b7 rest]]]]]]]];
    cbn [length] in Hlen; try lia.
  unfold readU64LE, readI64LE, readUInt32LE, readInt32LE.
  rewrite !(proj2 (Nat.ltb_ge _ _)) by (cbn [length]; lia).
  rewrite !bind_returns.
  unfold byte_at, shl24_int32. cbn [nth Nat.add firstn]. rewrite !shiftl_32.
  pose proof (byte_to_Z_range b0). pose proof (byte_to_Z_range b1).
  pose proof (byte_to_Z_range b2). pose proof (byte_to_Z_range b3).
  pose proof (byte_to_Z_range b4). pose proof (byte_to_Z_range b5).
  pose proof (byte_to_Z_range b6). pose proof (byte_to_Z_range b7).
  set (u := byte_to_Z b0 + byte_to_Z b1 * 2 ^ 8 + byte_to_Z b2 * 2 ^ 16
            + byte_to_Z b3 * 2 ^ 24
            + (byte_to_Z b4 + byte_to_Z b5 * 2 ^ 8 + byte_to_Z b6 * 2 ^ 16
               + byte_to_Z b7 * 2 ^ 24) * 4294967296).
  assert (Hu8 : le_bytes 8 u = [b0; b1; b2; b3; b4; b5; b6; b7]).
  { replace u with
      (byte_to_Z b0 + 256 * (byte_to_Z b1 + 256 * (byte_to_Z b2 + 256 * (byte_to_Z b3
       + 256 * (byte_to_Z b4 + 256 * (byte_to_Z b5 + 256 * (byte_to_Z b6
       + 256 * (byte_to_Z b7 + 256 * 0))))))))
      by (subst u; pow_values; lia).
    rewrite !le_bytes_step. reflexivity. }
  eexists u, _. split; [reflexivity|]. split; [reflexivity|].
  assert (Hi : byte_to_Z b0 + byte_to_Z b1 * 2 ^ 8 + byte_to_Z b2 * 2 ^ 16
               + byte_to_Z b3 * 2 ^ 24
               + (byte_to_Z b4 + byte_to_Z b5 * 2 ^ 8 + byte_to_Z b6 * 2 ^ 16
                  + (if byte_to_Z b7 <? 128 then byte_to_Z b7 * 2 ^ 24
                     else byte_to_Z b7 * 2 ^ 24 - 2 ^ 32)) * 4294967296
               = if u <? 2 ^ 63 then u else u - 2 ^ 64).
  { subst u. pow_values.
    destruct (Z.ltb_spec (byte_to_Z b7) 128);
      match goal with |- _ = if ?c then _ else _ => destruct c eqn:E end;
      try (apply Z.ltb_lt in E); try (apply Z.ltb_ge in E); lia. }
  rewrite Hi.
  split; [subst u; pow_values; lia|].
  split; [destruct (Z.ltb_spec u (2 ^ 63)); subst u; pow_values; lia|].
  split; [reflexivity|].
  split; [exact Hu8|].
  destruct (u <? 2 ^ 63); [exact Hu8|].
  replace (u - 2 ^ 64) with (u + (-1) * 256 ^ Z.of_nat 8) by (cbn; lia).
  rewrite le_bytes_wrap. exact Hu8.
Qed.

(** X21. On a buffer of fewer than 8 bytes [readU64LE] and [readI64LE]
    throw; otherwise they return the unsigned and the two's-complement
    value of the first 8 bytes, little-endian: the values are in range,
    they differ by 2^64 exactly when the top bit is set, and writing
    either back as 8 little-endian bytes gives those bytes again. *)
Theorem read64_values buffer :
  ((length buffer < 8)%nat ->
   readU64LE buffer = Throws "ERR_OUT_OF_RANGE" /\
   readI64LE buffer = Throws "ERR_OUT_OF_RANGE") /\
  ((8 <= length buffer)%nat ->
   exists u i,
     readU64LE buffer = Returns u /\ readI64LE buffer = Returns i /\
     0 <= u < 2 ^ 64 /\ - 2 ^ 63 <= i < 2 ^ 63 /\
     i = (if u <? 2 ^ 63 then u else u - 2 ^ 64) /\
     le_bytes 8 u = firstn 8 buffer /\ le_bytes 8 i = firstn 8 buffer).
Proof.
  split; [|apply read64_shape].
  intros Hlen. unfold readU64LE, readI64LE, readUInt32LE, readInt32LE.
  destruct (length buffer <? 0 + 4)%nat eqn:E0; [split; reflexivity|].
  apply Nat.ltb_ge in E0.
  rewrite !bind_returns.
  rewrite (proj2 (Nat.ltb_lt (length buffer) (4 + 4))) by lia. split; reflexivity.
Qed.

End ExtractorReaders.

Section MonitorMoreFacts.
Import BridgeMonitor MonitorMore.

(** X22. What [saveProcessedTransactions] writes, [loadProcessedTransactions]
    reads back: the processed signatures and the last checked slot of the
    saved monitor, so that a transaction processed before the save is
    skipped after a restart. The event counter and the trusted block
    hashes are not stored, and a missing or unreadable file changes
    nothing. *)
Theorem processed_transactions_roundtrip cfg w st st0 isoNow event proof :
  let loaded :=
    loadProcessedTransactions st0 (Some (Returns (saveProcessedTransactions st isoNow))) in
  processedTransactions loaded = processedTransactions st /\
  lastCheckedSlot loaded = lastCheckedSlot st /\
  processedEvents loaded = processedEvents st0 /\
  trustedBlockHashes loaded = trustedBlockHashes st0 /\
  (BC.signature (BC.transaction proof) ∈ processedTransactions st ->
   processBridgeEvent cfg w loaded event proof = (loaded, [])) /\
  loadProcessedTransactions st0 None = st0 /\
  (forall m, loadProcessedTransactions st0 (Some (Throws m)) = st0).
Proof.
  intros loaded.
  assert (Hp : processedTransactions loaded = processedTransactions st).
  { subst loaded. cbn. apply list_to_set_elements_L. }
  split_and!; try reflexivity.
  - exact Hp.
  - subst loaded. cbn. destruct (lastCheckedSlot st =? 0) eqn:E; [|reflexivity].
    apply Z.eqb_eq in E. now rewrite E.
  - intros Hin. apply processBridgeEvent_skips. now rewrite Hp.
Qed.

Lemma processed_transactions_roundtrip_witness :
  let loaded :=
    loadProcessedTransactions Samples.fresh_state
      (Some (Returns (saveProcessedTransactions Samples.seen_state "2024-01-01T00:00:00.000Z"))) in
  processBridgeEvent Samples.config (Samples.world Samples.rpc_finalized) loaded
    Samples.lock_event Samples.proof_data = (loaded, []).
Proof.
  intros loaded.
  apply (processed_transactions_roundtrip Samples.config (Samples.world Samples.rpc_finalized)
           Samples.seen_state Samples.fresh_state "2024-01-01T00:00:00.000Z"
           Samples.lock_event Samples.proof_data).
  change (Samples.tx_signature ∈ ({[ Samples.tx_signature ]} : gset string)).
  apply elem_of_singleton_2. reflexivity.
Defined.

Lemma poll_one_effects cfg w st info st' log :
  poll_one cfg w st info = (st', log) ->
  processedTransactions st ⊆ processedTransactions st' /\
  processedTransactions st' ⊆ {[ info_signature info ]} ∪ processedTransactions st /\
  lastCheckedSlot st <= lastCheckedSlot st' /\
  (info_signature info ∈ processedTransactions st' ->
   info_signature info ∉ processedTransactions st ->
   lastCheckedSlot st < info_slot info).
Proof.
  assert (Hsame : (st, @nil Action) = (st', log) ->
            processedTransactions st ⊆ processedTransactions st' /\
            processedTransactions st' ⊆ {[ info_signature info ]} ∪ processedTransactions st /\
            lastCheckedSlot st <= lastCheckedSlot st' /\
            (info_signature info ∈ processedTransactions st' ->
             info_signature info ∉ processedTransactions st ->
             lastCheckedSlot st < info_slot info)).
  { intros H. injection H as <- <-. split_and!.
    - reflexivity.
    - apply union_subseteq_r.
    - lia.
    - intros H1 H2. contradiction. }
  unfold poll_one.
  destruct (bool_decide _); [exact Hsame|].
  destruct (info_slot info <=? lastCheckedSlot st) eqn:Eslot; [exact Hsame|].
  apply Z.leb_gt in Eslot.
  destruct (transaction_succeeded w (info_signature info)) as [[|]|m]; try exact Hsame.
  destruct (parseTokenLockedEvent w (info_signature info)) as [lockEvent|]; [|exact Hsame].
  destruct (SolanaBridgeClient.generateProof _ _ _ _) as [proof|m] eqn:Hgen; [|exact Hsame].
  destruct (generateProof_returns _ _ _ _ _ Hgen) as (tx & s & bt & _ & _ & _ & Hp).
  assert (Hsig : BC.signature (BC.transaction proof) = info_signature info)
    by (subst proof; reflexivity).
  intros H. apply processBridgeEvent_effects in H. cbv zeta in H. rewrite Hsig in H.
  destruct H as (H1 & H2 & _ & H4 & _).
  split_and!; auto.
Qed.

Lemma poll_loop_effects cfg w signatures : forall st st' log,
  poll_loop cfg w st signatures = (st', log) ->
  processedTransactions st ⊆ processedTransactions st' /\
  lastCheckedSlot st <= lastCheckedSlot st' /\
  (forall sig, sig ∈ processedTransactions st' -> sig ∉ processedTransactions st ->
     exists info, In info signatures /\ info_signature info = sig /\
                  lastCheckedSlot st < info_slot info).
Proof.
  induction signatures as [|info rest IH]; intros st st' log H.
  - injection H as <- <-. split_and!; [reflexivity|lia|]. intros sig H1 H2. contradiction.
  - cbn [poll_loop] in H.
    destruct (poll_one cfg w st info) as [st1 log1] eqn:H1.
    destruct (poll_loop cfg w st1 rest) as [st2 log2] eqn:H2.
    injection H as <- <-.
    apply poll_one_effects in H1 as (Ha & Hb & Hc & Hd).
    apply IH in H2 as (Ha' & Hc' & Hd').
    split_and!.
    + etransitivity; eassumption.
    + lia.
    + intros sig Hin Hnot.
      destruct (decide (sig ∈ processedTransactions st1)) as [Hin1|Hnot1].
      * assert (sig = info_signature info) as ->.
        { apply Hb in Hin1. apply elem_of_union in Hin1 as [Hs|Hs]; [|contradiction].
          now apply elem_of_singleton_1 in Hs. }
        exists info. split_and!; [left; reflexivity|reflexivity|auto].
      * destruct (Hd' sig Hin Hnot1) as (info' & Hi & Hs & Hl).
        exists info'. split_and!; [right; exact Hi|exact Hs|lia].
Qed.

(** X23. A poll for missed transactions only adds to the processed set
    and never lowers the last checked slot; every signature it adds is one
    of the listed signatures with a slot above the last checked slot at
    the start of the poll, so a missed transaction at or below that slot
    is never picked up. When the list request fails the monitor is left
    as it was. *)
Theorem poll_effects cfg w st :
  let r := pollForMissedTransactions cfg w st in
  processedTransactions st ⊆ processedTransactions (fst r) /\
  lastCheckedSlot st <= lastCheckedSlot (fst r) /\
  (forall sig, sig ∈ processedTransactions (fst r) -> sig ∉ processedTransactions st ->
     exists signatures info,
       getSignaturesForAddress w = Returns signatures /\
       In info signatures /\ info_signature info = sig /\
       lastCheckedSlot st < info_slot info) /\
  (forall m, getSignaturesForAddress w = Throws m -> r = (st, [])).
Proof.
  intros r. subst r. unfold pollForMissedTransactions.
  destruct (getSignaturesForAddress w) as [signatures|m].
  - destruct (poll_loop cfg w st (rev signatures)) as [st' log] eqn:H.
    apply poll_loop_effects in H as (Ha & Hb & Hc). cbn [fst].
    split_and!; [exact Ha|exact Hb| |discriminate].
    intros sig Hin Hnot. destruct (Hc sig Hin Hnot) as (info & Hi & Hs & Hl).
    exists signatures, info. split_and!; auto. now apply in_rev.
  - cbn [fst]. split_and!; [reflexivity|lia| |reflexivity].
    intros sig H1 H2. contradiction.
Qed.

End MonitorMoreFacts.

Section MonitorGate.
Import BridgeMonitor UnicityProofValidator.


Lemma process_body_result cfg w st event proof :
  let validated :=
    fst (validateGenesisProof (rpc w) (bridgeProgramId cfg) (now w)
           (trustedBlockHashes st) proof) in
  is_returns (fst (fst (process_body cfg w st event proof))) = is_returns validated.
Proof.
  unfold process_body.
  destruct (validateGenesisProof _ _ _ _ _) as [[gp|m] trusted']; cbn [fst]; [|reflexivity].
  destruct (chain_never_throws (rpc w) gp) as [b ->].
  destruct (SdkMint.mintBridgedTokenWithSDK _ _ _ _ _) as [mintResult effects].
  reflexivity.
Qed.

(** X24. For a transaction that is not yet in the processed set, the
    monitor records it as processed, and calls the mint for it, exactly
    when the amount is below 2^53 and [validateGenesisProof] returns a
    proof: neither the answer of [validateCryptographicChain] nor a
    failure of the mint changes that. An event with a larger amount is
    dropped without any action. *)
Theorem monitor_marks_processed cfg w st event proof :
  let sig := BC.signature (BC.transaction proof) in
  let r := processBridgeEvent cfg w st event proof in
  let validated :=
    fst (validateGenesisProof (rpc w) (bridgeProgramId cfg) (now w)
           (trustedBlockHashes st) proof) in
  sig ∉ processedTransactions st ->
  (sig ∈ processedTransactions (fst r) <->
   Z.abs (BC.amount event) < 2 ^ 53 /\ is_returns validated = true) /\
  (existsb is_mint_call (snd r) = true <->
   Z.abs (BC.amount event) < 2 ^ 53 /\ is_returns validated = true) /\
  (2 ^ 53 <= Z.abs (BC.amount event) -> r = (st, [])).
Proof.
  intros sig r validated Hfresh. subst r. unfold processBridgeEvent. fold sig.
  rewrite bool_decide_eq_false_2 by exact Hfresh.
  unfold BN_toNumber.
  destruct (Z.abs (BC.amount event) <? 2 ^ 53) eqn:E.
  - apply Z.ltb_lt in E.
    pose proof (process_body_cases cfg w st event proof) as Hc.
    pose proof (process_body_result cfg w st event proof) as Hr.
    cbv zeta in Hc, Hr. fold sig in Hc. fold validated in Hr.
    destruct (process_body cfg w st event proof) as [[res st'] log].
    cbn [fst snd] in *. destruct Hc as (_ & _ & Hc).
    destruct res as [[]|m]; cbn [is_returns] in Hr; rewrite <- Hr.
    + destruct Hc as (Hp & _ & _ & Hm). split_and!.
      * split; [intros _; auto|intros _]. rewrite Hp. apply elem_of_union_l.
        now apply elem_of_singleton_2.
      * split; [intros _; auto|intros _; exact Hm].
      * lia.
    + destruct Hc as (Hp & _ & _ & Hm). split_and!.
      * split; [|intros [_ H]; discriminate]. rewrite Hp. intros H. contradiction.
      * rewrite Hm. split; [discriminate|intros [_ H]; discriminate].
      * lia.
  - apply Z.ltb_ge in E. cbn [fst snd existsb]. split_and!.
    + split; [intros H; contradiction|intros [H _]; lia].
    + split; [discriminate|intros [H _]; lia].
    + reflexivity.
Qed.

Lemma monitor_marks_processed_witness :
  Samples.tx_signature ∈
    processedTransactions
      (fst (processBridgeEvent Samples.config (Samples.world Samples.rpc_ahead)
              Samples.fresh_state Samples.lock_event Samples.proof_data)).
Proof.
  refine (proj2 (proj1 (monitor_marks_processed Samples.config (Samples.world Samples.rpc_ahead)
                          Samples.fresh_state Samples.lock_event Samples.proof_data _)) _).
  - apply not_elem_of_empty.
  - split; [reflexivity|vm_compute; reflexivity].
Defined.

End MonitorGate.

Section DemoGate.
Import CompleteDemo UnicityProofValidator.

(** X25. The event handler of the demo flow resolves exactly when
    [validateGenesisProof] returns a proof, [validateCryptographicChain]
    answers true for it and the mint returns; it calls the mint only after
    the chain validation answered true, and it turns a mint error that
    mentions REQUEST_ID_EXISTS into the rejection TOKEN_ALREADY_EXISTS. *)
Theorem demo_settlement rpc sdk now outputDir trusted event proof :
  let r := processEvent rpc sdk now outputDir trusted event proof in
  let validated := fst (validateGenesisProof rpc bridgeProgramId now trusted proof) in
  let key := Recipient.restore (BC.unicityRecipient event) in
  (fst (fst r) = Resolved <->
   exists gp,
     validated = Returns gp /\ validateCryptographicChain rpc gp = Returns true /\
     is_returns (fst (mintBridgedTokens sdk outputDir gp key)) = true) /\
  ((exists gp k effects, In (CalledMint gp k effects) (snd r)) <->
   exists gp,
     validated = Returns gp /\ validateCryptographicChain rpc gp = Returns true) /\
  (forall gp m,
     validated = Returns gp -> validateCryptographicChain rpc gp = Returns true ->
     fst (mintBridgedTokens sdk outputDir gp key) = Throws m ->
     includes "REQUEST_ID_EXISTS" m = true ->
     fst (fst r) = Rejected "TOKEN_ALREADY_EXISTS").
Proof.
  intros r validated key. subst r validated. unfold processEvent.
  destruct (validateGenesisProof rpc bridgeProgramId now trusted proof)
    as [[gp|m] trusted']; cbn [fst snd].
  2:{ split_and!.
      - split; [discriminate|intros (gp & H & _); discriminate].
      - split; [|intros (gp & H & _); discriminate].
        intros (gp & k & eff & [H|[]]). discriminate.
      - intros gp m0 H. discriminate. }
  destruct (chain_never_throws rpc gp) as [b Hb]. rewrite Hb.
  destruct b; cbn [negb].
  2:{ split_and!.
      - split; [discriminate|]. intros (gp' & H & Hc & _). injection H as <-. congruence.
      - split; [|intros (gp' & H & Hc); injection H as <-; congruence].
        intros (g & k & eff & [H|[H|[]]]); discriminate.
      - intros gp' m0 H Hc. injection H as <-. congruence. }
  fold key.
  destruct (mintBridgedTokens sdk outputDir gp key) as [[res|m] effects] eqn:Hm;
    cbn [fst snd].
  - split_and!.
    + split; [intros _|reflexivity]. exists gp. rewrite Hm. auto.
    + split; [intros _; exists gp; auto|intros _].
      exists gp, key, effects. right. right. left. reflexivity.
    + intros gp' m0 H _ Hmint. injection H as <-. rewrite Hm in Hmint. discriminate.
  - split_and!.
    + split.
      * destruct (includes "REQUEST_ID_EXISTS" m || includes "already exists" m);
          discriminate.
      * intros (gp' & H & _ & Hr). injection H as <-. rewrite Hm in Hr. discriminate.
    + split; [intros _; exists gp; auto|intros _].
      exists gp, key, effects.
      destruct (includes "REQUEST_ID_EXISTS" m || includes "already exists" m);
        right; right; left; reflexivity.
    + intros gp' m0 H _ Hmint Hinc. injection H as <-. rewrite Hm in Hmint.
      cbn [fst] in Hmint. injection Hmint as <-. rewrite Hinc. reflexivity.
Qed.

End DemoGate.

Section RecipientRoundTrip.
Import Recipient LockDemo.

Lemma prefix_split p : forall s, String.prefix p s = true -> exists t, s = p +:+ t.
Proof.
  induction p as [|a p IH]; intros s H.
  - exists s. reflexivity.
  - destruct s as [|b s]; [discriminate|]. simpl in H.
    destruct (ascii_dec a b) as [->|]; [|discriminate].
    destruct (IH s H) as [t ->]. exists t. reflexivity.
Qed.

Lemma substring_all t : String.substring 0 (String.length t) t = t.
Proof. induction t as [|c t IH]; [reflexivity|]. simpl. now rewrite IH. Qed.

Lemma substring_append p t :
  String.substring (String.length p) (String.length t) (p +:+ t) = t.
Proof. induction p as [|a p IH]; [apply substring_all|]. simpl. exact IH. Qed.

Lemma utf16_units_app a b : utf16_units (a ++ b) = (utf16_units a + utf16_units b)%nat.
Proof.
  induction a as [|x a IH]; [reflexivity|].
  cbn [app utf16_units]. rewrite IH. lia.
Qed.

Lemma bytes_of_string_append a b :
  bytes_of_string (a +:+ b) = bytes_of_string a ++ bytes_of_string b.
Proof.
  unfold bytes_of_string. induction a as [|c a IH]; [reflexivity|].
  change (String c a +:+ b) with (String c (a +:+ b)).
  rewrite !list_byte_of_string_cons, IH. reflexivity.
Qed.

Lemma js_length_append a b : js_length (a +:+ b) = (js_length a + js_length b)%nat.
Proof. unfold js_length. now rewrite bytes_of_string_append, utf16_units_app. Qed.

(** A word character is one byte and one code unit. *)
Lemma js_length_word r :
  all_chars is_word_char r = true -> js_length r = String.length r.
Proof.
  unfold js_length, bytes_of_string. induction r as [|c r IH]; [reflexivity|].
  cbn [all_chars]. intros H. apply andb_prop in H as [Hc Hr].
  rewrite list_byte_of_string_cons. cbn [utf16_units String.length].
  rewrite (IH Hr). f_equal.
  destruct c as [[] [] [] [] [] [] [] []]; try discriminate Hc; reflexivity.
Qed.

(** X26. A recipient that the lock script accepts is sent to the
    contract in at most 64 UTF-16 code units, unchanged if it is a simple
    identifier, and the restoration applied by the monitor and the demo
    flow gives the original recipient back exactly when it is a simple
    identifier or a tagged key whose 64 characters after "[SHA256]" are
    hexadecimal digits; the text sent is then at most 64 bytes long. *)
Theorem recipient_strip_restore r :
  accepted r = true ->
  (js_length (contractRecipient r) <= 64)%nat /\
  (isSimpleRecipient r = true -> contractRecipient r = r) /\
  (restore (contractRecipient r) = r <->
   isSimpleRecipient r = true \/ looks_like_digest (contractRecipient r) = true) /\
  (restore (contractRecipient r) = r ->
   (String.length (contractRecipient r) <= 64)%nat).
Proof.
  unfold accepted, contractRecipient. intros Hacc.
  destruct (startsWith r "[SHA256]") eqn:Ep.
  - (* a tagged recipient is not a simple identifier *)
    destruct (prefix_split _ _ Ep) as [t ->].
    assert (Hsimple : isSimpleRecipient ("[SHA256]" +:+ t) = false).
    { unfold isSimpleRecipient, test_class_repeat.
      replace (all_chars is_word_char ("[SHA256]" +:+ t)) with false by reflexivity.
      now rewrite andb_false_r. }
    rewrite Hsimple, orb_false_r in Hacc.
    unfold isUnicityKey in Hacc. apply andb_prop in Hacc as [_ Hlen].
    apply Nat.eqb_eq in Hlen. rewrite js_length_append in Hlen.
    change (js_length "[SHA256]") with 8%nat in Hlen.
    rewrite append_length.
    change (String.length "[SHA256]") with 8%nat.
    replace (8 + String.length t - 8)%nat with (String.length t) by lia.
    assert (Hsub : String.substring 8 (String.length t) ("[SHA256]" +:+ t) = t)
      by apply (substring_append "[SHA256]" t).
    rewrite Hsub.
    assert (Hround : restore t = "[SHA256]" +:+ t <-> looks_like_digest t = true).
    { unfold restore. destruct (looks_like_digest t) eqn:Ed; [tauto|].
      split; [|discriminate].
      intros H. apply (f_equal String.length) in H. rewrite append_length in H.
      change (String.length "[SHA256]") with 8%nat in H. lia. }
    split_and!; [lia|congruence| |].
    + rewrite Hround. split; [auto|intros [H|H]; congruence].
    + intros H. apply Hround, looks_like_digest_spec in H as [H _]. lia.
  - unfold isUnicityKey in Hacc. rewrite Ep in Hacc. cbn [andb orb] in Hacc.
    assert (Hlen : (String.length r <= 50)%nat).
    { unfold isSimpleRecipient in Hacc. apply andb_prop in Hacc as [_ H].
      apply Nat.leb_le in H. exact H. }
    assert (Hword : all_chars is_word_char r = true).
    { unfold isSimpleRecipient, test_class_repeat in Hacc.
      apply andb_prop in Hacc as [Hacc _]. apply andb_prop in Hacc as [Hacc _].
      apply andb_prop in Hacc as [_ Hacc]. exact Hacc. }
    split_and!.
    + rewrite (js_length_word r Hword). lia.
    + reflexivity.
    + split; [auto|intros _].
      apply restore_other. unfold looks_like_digest, test_class_repeat.
      rewrite (proj2 (Nat.leb_gt 64 (String.length r))) by lia. reflexivity.
    + intros _. lia.
Qed.

Lemma recipient_strip_restore_witness :
  contractRecipient ("[SHA256]" +:+ Samples.digest_recipient) = Samples.digest_recipient /\
  restore (contractRecipient ("[SHA256]" +:+ Samples.digest_recipient))
  = "[SHA256]" +:+ Samples.digest_recipient /\
  (String.length (contractRecipient ("[SHA256]" +:+ Samples.digest_recipient)) <= 64)%nat.
Proof.
  destruct (recipient_strip_restore ("[SHA256]" +:+ Samples.digest_recipient))
    as (_ & _ & Hround & Hbytes); [vm_compute; reflexivity|].
  assert (H : restore (contractRecipient ("[SHA256]" +:+ Samples.digest_recipient))
              = "[SHA256]" +:+ Samples.digest_recipient)
    by (apply Hround; right; vm_compute; reflexivity).
  split_and!; [vm_compute; reflexivity | exact H | exact (Hbytes H)].
Defined.

(** The script counts code units, the contract bytes: a tagged recipient
    of 64 two-byte characters is accepted and sent in 128 bytes. *)
Example accepted_recipient_of_128_bytes :
  let e := String (ascii_of_nat 195) (String (ascii_of_nat 169) EmptyString) in
  let r := "[SHA256]" +:+ String.concat EmptyString (repeat e 64) in
  accepted r = true /\
  js_length (contractRecipient r) = 64%nat /\
  String.length (contractRecipient r) = 128%nat /\
  restore (contractRecipient r) <> r.
Proof.
  cbv zeta. split_and!; [vm_compute; reflexivity..|].
  vm_compute. discriminate.
Qed.

End RecipientRoundTrip.

Section ExtractorLayout.
Import EventExtractor LogEncoding.

Lemma subarray_length buf a b :
  (a <= b <= length buf)%nat -> length (subarray buf a b) = (b - a)%nat.
Proof. intros H. unfold subarray. rewrite length_firstn, length_skipn. lia. Qed.

Lemma skipn_subarray buf a b :
  (a <= b)%nat -> skipn a buf = subarray buf a b ++ skipn b buf.
Proof.
  intros H. unfold subarray.
  rewrite <- (firstn_skipn (b - a) (skipn a buf)) at 1.
  rewrite skipn_skipn. replace (b - a + a)%nat with b by lia. reflexivity.
Qed.

Lemma readUInt32LE_shape buf off n :
  readUInt32LE buf off = Returns n ->
  0 <= n < 2 ^ 32 /\ le_bytes 4 n = subarray buf off (off + 4).
Proof.
  unfold readUInt32LE.
  destruct (length buf <? off + 4)%nat eqn:E; [discriminate|].
  apply Nat.ltb_ge in E. intros H. injection H as <-.
  assert (Hs : exists b0 b1 b2 b3,
             subarray buf off (off + 4) = [b0; b1; b2; b3] /\
             byte_at buf off = byte_to_Z b0 /\ byte_at buf (off + 1) = byte_to_Z b1 /\
             byte_at buf (off + 2) = byte_to_Z b2 /\ byte_at buf (off + 3) = byte_to_Z b3).
  { unfold subarray, byte_at. replace (off + 4 - off)%nat with 4%nat by lia.
    assert (H0 : nth off buf Byte.x00 = nth 0 (skipn off buf) Byte.x00)
      by (rewrite nth_skipn; f_equal; lia).
    assert (H1 : nth (off + 1) buf Byte.x00 = nth 1 (skipn off buf) Byte.x00)
      by (rewrite nth_skipn; reflexivity).
    assert (H2 : nth (off + 2) buf Byte.x00 = nth 2 (skipn off buf) Byte.x00)
      by (rewrite nth_skipn; reflexivity).
    assert (H3 : nth (off + 3) buf Byte.x00 = nth 3 (skipn off buf) Byte.x00)
      by (rewrite nth_skipn; reflexivity).
    rewrite H0, H1, H2, H3. clear H0 H1 H2 H3.
    assert (Hl : (4 <= length (skipn off buf))%nat) by (rewrite length_skipn; lia).
    destruct (skipn off buf) as [|b0 [|b1 [|b2 [|b3 rest]]]]; cbn [length] in Hl; try lia.
    exists b0, b1, b2, b3.
    split_and!; reflexivity. }
  destruct Hs as (b0 & b1 & b2 & b3 & -> & -> & -> & -> & ->).
  pose proof (byte_to_Z_range b0). pose proof (byte_to_Z_range b1).
  pose proof (byte_to_Z_range b2). pose proof (byte_to_Z_range b3).
  split; [pow_values; lia|].
  replace (byte_to_Z b0 + byte_to_Z b1 * 2 ^ 8 + byte_to_Z b2 * 2 ^ 16 + byte_to_Z b3 * 2 ^ 24)
    with (byte_to_Z b0 + 256 * (byte_to_Z b1 + 256 * (byte_to_Z b2
          + 256 * (byte_to_Z b3 + 256 * 0)))) by (pow_values; lia).
  rewrite !le_bytes_step. reflexivity.
Qed.

End ExtractorLayout.

Section ExtractorLayoutTheorem.
Import EventExtractor LogEncoding.

Lemma read_unsigned64 bytes v :
  length bytes = 8%nat -> readU64LE bytes = Returns v ->
  0 <= v < 2 ^ 64 /\ le_bytes 8 v = bytes.
Proof.
  intros Hl Hr.
  destruct (read64_shape bytes ltac:(lia)) as (u & i & Hu & _ & Hur & _ & _ & Hb & _).
  rewrite Hu in Hr. injection Hr as <-.
  split; [exact Hur|]. rewrite Hb. apply firstn_all2. lia.
Qed.

Lemma read_signed64 bytes v :
  length bytes = 8%nat -> readI64LE bytes = Returns v ->
  - 2 ^ 63 <= v < 2 ^ 63 /\ le_bytes 8 v = bytes.
Proof.
  intros Hl Hr.
  destruct (read64_shape bytes ltac:(lia)) as (u & i & _ & Hi & _ & Hir & _ & _ & Hb).
  rewrite Hi in Hr. injection Hr as <-.
  split; [exact Hir|]. rewrite Hb. apply firstn_all2. lia.
Qed.

(** X27. Every buffer that [parseTokenLockedEvent] accepts has the
    layout of the event log: the discriminator, 32 bytes of lock id, 32
    bytes of account, the amount in 8 bytes, the recipient length in 4
    bytes and that many bytes, the nonce and the timestamp in 8 bytes
    each, all numbers little-endian; the event returned is the hex, base-58
    and decimal text of exactly these fields, the recipient being its
    bytes read as UTF-8 with U+FFFD in place of what is not UTF-8. *)
Theorem parse_layout buf ev :
  parseTokenLockedEvent buf = Some ev ->
  exists lockId user amount recipientBytes nonce timestamp extra,
    length lockId = 32%nat /\ length user = 32%nat /\
    0 <= amount < 2 ^ 64 /\ Z.of_nat (length recipientBytes) < 2 ^ 32 /\
    0 <= nonce < 2 ^ 64 /\ - 2 ^ 63 <= timestamp < 2 ^ 63 /\
    buf = expectedDiscriminator ++ lockId ++ user ++ le_bytes 8 amount
          ++ le_bytes 4 (Z.of_nat (length recipientBytes)) ++ recipientBytes
          ++ le_bytes 8 nonce ++ le_bytes 8 timestamp ++ extra /\
    ev = {| Genesis.lockId := toHex lockId;
            Genesis.user := base58_encode user;
            Genesis.amount := toString amount;
            Genesis.unicityRecipient := string_of_bytes recipientBytes;
            Genesis.nonce := toString nonce;
            Genesis.timestamp := toString timestamp |}.
Proof.
  unfold parseTokenLockedEvent.
  destruct (parseTokenLockedEvent_body buf) as [ev'|m] eqn:Hbody; [|discriminate].
  intros H. injection H as ->.
  destruct (parse_success_length buf ev Hbody) as (n & Hread & Hlen).
  destruct (readUInt32LE_shape buf 80 n Hread) as (Hn & Hnbytes).
  revert Hbody. unfold parseTokenLockedEvent_body. cbv zeta.
  change (8 + 32 + 32 + 8)%nat with 80%nat.
  rewrite Hread.
  rewrite !(proj2 (Nat.ltb_ge (length buf) _)) by lia.
  destruct (bytes_equal (subarray buf 0 8) expectedDiscriminator) eqn:Hd;
    cbn [negb]; [|discriminate].
  apply bytes_equal_spec in Hd.
  destruct (readU64LE (subarray buf (8 + 32 + 32) 80)) as [amount|] eqn:Ha; [|discriminate].
  rewrite !bind_returns.
  rewrite !(proj2 (Nat.ltb_ge (length buf) _)) by lia.
  match goal with |- context [readU64LE ?x] =>
    destruct (readU64LE x) as [nonce|] eqn:Hno end; [|discriminate].
  cbn [mbind outcome_bind Js.bind].
  match goal with |- context [readI64LE ?x] =>
    destruct (readI64LE x) as [timestamp|] eqn:Hts end; [|discriminate].
  cbn [mbind outcome_bind Js.bind].
  intros H. injection H as <-.
  apply read_unsigned64 in Ha as (Har & Hab); [|rewrite subarray_length; lia].
  apply read_unsigned64 in Hno as (Hnr & Hnb); [|rewrite subarray_length; lia].
  apply read_signed64 in Hts as (Htr & Htb); [|rewrite subarray_length; lia].
  set (L := Z.to_nat n) in *.
  exists (subarray buf 8 (8 + 32)), (subarray buf (8 + 32) (8 + 32 + 32)), amount,
         (subarray buf (80 + 4) (80 + 4 + L)), nonce, timestamp,
         (skipn (80 + 4 + L + 8 + 8) buf).
  assert (HL : Z.of_nat (length (subarray buf (80 + 4) (80 + 4 + L))) = n).
  { rewrite subarray_length by lia. subst L. lia. }
  split_and!; try (rewrite subarray_length; lia); try assumption; try reflexivity;
    try lia; try (rewrite HL; lia).
  - rewrite HL, Hab, Hnb, Htb, Hnbytes, <- Hd.
    rewrite <- (skipn_O buf) at 1.
    rewrite (skipn_subarray buf 0 8) by lia.
    rewrite (skipn_subarray buf 8 (8 + 32)) by lia.
    rewrite (skipn_subarray buf (8 + 32) (8 + 32 + 32)) by lia.
    rewrite (skipn_subarray buf (8 + 32 + 32) 80) by lia.
    rewrite (skipn_subarray buf 80 (80 + 4)) by lia.
    rewrite (skipn_subarray buf (80 + 4) (80 + 4 + L)) by lia.
    rewrite (skipn_subarray buf (80 + 4 + L) (80 + 4 + L + 8)) by lia.
    rewrite (skipn_subarray buf (80 + 4 + L + 8) (80 + 4 + L + 8 + 8)) by lia.
    reflexivity.
Qed.

Lemma parse_layout_witness :
  exists lockId amount,
    length lockId = 32%nat /\ 0 <= amount < 2 ^ 64 /\
    Genesis.lockId (UnicityProofValidator.genesis_lockEvent Samples.lock_event)
    = toHex lockId /\
    Genesis.amount (UnicityProofValidator.genesis_lockEvent Samples.lock_event)
    = toString amount.
Proof.
  destruct (parse_layout (serialize Samples.lock_event)
              (UnicityProofValidator.genesis_lockEvent Samples.lock_event))
    as (lockId & user & amount & rb & nonce & ts & extra & H1 & _ & H3 & _ & _ & _ & _ & Hev).
  - vm_compute. reflexivity.
  - exists lockId, amount. split_and!; try assumption; try lia.
    + now rewrite Hev.
    + now rewrite Hev.
Defined.

End ExtractorLayoutTheorem.

Section MintedAmount.
Import SdkMint UnicityProofValidator.

(** X28. Whenever the mint submits for a proof built by
    [validateGenesisProof], the coin data is the single entry BRIDGED_SOL
    with the amount of the lock event, and the payload carries the text
    form of that event and the transaction of the proof. *)
Theorem minted_amount_is_locked_amount sdk now proof b s key dir pid data :
  In (Submitted data)
     (snd (mintBridgedTokenWithSDK sdk (build_genesisProof now proof b s) key dir pid)) ->
  mint_coinData data = [("BRIDGED_SOL", BC.amount (BC.event proof))] /\
  Token.lockEvent (mint_tokenData data) = genesis_lockEvent (BC.event proof) /\
  Genesis.signature (Token.solanaTransaction (mint_tokenData data))
  = BC.signature (BC.transaction proof) /\
  Token.bridgeType (mint_tokenData data) = "SOLANA_BRIDGE".
Proof.
  intros Hin.
  destruct (mint_run sdk (build_genesisProof now proof b s) key dir pid)
    as [(m & H) | (wallet & amount & recipient & _ & Ha & _ & H)].
  - rewrite H in Hin. destruct Hin.
  - cbn [build_genesisProof Genesis.lockEvent genesis_lockEvent Genesis.amount] in Ha.
    rewrite BigInt_toString in Ha. injection Ha as <-.
    cbv zeta in H. destruct H as [(m & H) | (commitment & _ & _ & _ & H)];
      rewrite H in Hin; cbn [snd] in Hin.
    + destruct Hin as [Hin|[]]. injection Hin as <-. split_and!; reflexivity.
    + destruct Hin as [Hin|[Hin|[Hin|[Hin|[]]]]]; try discriminate.
      injection Hin as <-. split_and!; reflexivity.
Qed.

Lemma minted_amount_is_locked_amount_witness :
  exists data,
    hd_error (snd (mintBridgedTokenWithSDK Samples.sdk_accepting
                     (build_genesisProof 0 Samples.proof_data true true)
                     ("[SHA256]" +:+ Samples.digest_recipient) "demo-output"
                     CompleteDemo.bridgeProgramId)) = Some (Submitted data) /\
    mint_coinData data = [("BRIDGED_SOL", 100000000)].
Proof.
  eexists. split; [vm_compute; reflexivity|].
  refine (proj1 (minted_amount_is_locked_amount Samples.sdk_accepting 0 Samples.proof_data
                   true true ("[SHA256]" +:+ Samples.digest_recipient) "demo-output"
                   CompleteDemo.bridgeProgramId _ _)).
  vm_compute. left. reflexivity.
Defined.

End MintedAmount.
